(** * BaileysHelper: interactive-button helpers

    A shallow embedding of [src/helpers/buttons.ts] and of the
    [InteractiveValidationError] class of [src/types/validation.ts],
    together with the properties stated about them.

    The TypeScript functions work on untyped JavaScript values ([any]), so
    the embedding starts with a small model of those values and of the
    operators the helpers use on them: truthiness, [typeof], property read,
    [||], [ToString], [RegExp.prototype.test] and [JSON.stringify]. *)

From Stdlib Require Import ZArith Ascii String DecimalNat DecimalString.
From stdpp Require Import base option list strings gmap.

Local Open Scope Z_scope.
#[local] Set Warnings "-register-all".

(** ** JavaScript values *)

Module JS.

(** Strings are sequences of code units; a Rocq character stands for one
    code unit in the range U+0000..U+00FF.  Numbers are represented by
    their integral values and NaN, which is all the helpers can tell apart
    (they only test numbers for truthiness and print them); the printing
    below is that of the safe integers, of magnitude below [2^53], which
    print digit by digit.  The fields of an object are its own properties, kept
    in own-property order, because [JSON.stringify] prints them in that
    order; what an object does not define itself it inherits from
    [Object.prototype].  No value is a function. *)
Inductive value : Type :=
  | VUndefined
  | VNull
  | VBool (b : bool)
  | VNum (n : Z)
  | VNaN
  | VStr (s : string)
  | VObj (fields : list (string * value))
  | VArr (items : list value).

(** Exceptions raised by the language itself. *)
Inductive exn : Type :=
  | TypeError.

(** The outcome of evaluating an expression or calling a function. *)
Inductive completion (A : Type) : Type :=
  | Returns (a : A)
  | Throws (e : exn).

Arguments Returns {A} a.
Arguments Throws {A} e.

#[export] Instance completion_ret : MRet completion := fun A a => Returns a.

#[export] Instance completion_bind : MBind completion :=
  fun A B (k : A -> completion B) (c : completion A) =>
    match c with
    | Returns a => k a
    | Throws e => Throws e
    end.

(** [ToBoolean]. *)
Definition truthy (v : value) : bool :=
  match v with
  | VUndefined | VNull | VNaN => false
  | VBool b => b
  | VNum n => negb (n =? 0)
  | VStr s => negb (String.eqb s "")
  | VObj _ | VArr _ => true
  end.

Definition nullish (v : value) : bool :=
  match v with
  | VUndefined | VNull => true
  | _ => false
  end.

Definition typeof (v : value) : string :=
  match v with
  | VUndefined => "undefined"
  | VNull | VObj _ | VArr _ => "object"
  | VBool _ => "boolean"
  | VNum _ | VNaN => "number"
  | VStr _ => "string"
  end.

Definition is_string (v : value) : bool :=
  String.eqb (typeof v) "string".

Fixpoint lookup_field (k : string) (fs : list (string * value)) : value :=
  match fs with
  | [] => VUndefined
  | (k', v) :: fs' => if String.eqb k k' then v else lookup_field k fs'
  end.

(** [v.k] for the property names the helpers read.  None of them is
    defined on a built-in prototype, so on a primitive or an array the read
    yields [undefined]; on [undefined] and [null] it throws. *)
Definition get (v : value) (k : string) : completion value :=
  match v with
  | VUndefined | VNull => Throws TypeError
  | VObj fs => Returns (lookup_field k fs)
  | _ => Returns VUndefined
  end.

Notation "v .[ k ]" := (get v k) (at level 1, format "v .[ k ]").

(** [a || b], with [b] already evaluated (it is a literal or a plain value
    at every use). *)
Definition or_else (a b : value) : value :=
  if truthy a then a else b.

(** [a ?? b]. *)
Definition coalesce (a b : value) : value :=
  if nullish a then b else a.

(** [obj.k = v]: an existing property keeps its position, a new one is
    added last. *)
Fixpoint set_field (k : string) (v : value) (fs : list (string * value))
  : list (string * value) :=
  match fs with
  | [] => [(k, v)]
  | (k', v') :: fs' =>
      if String.eqb k k' then (k', v) :: fs' else (k', v') :: set_field k v fs'
  end.

(** [v === 'lit'] for a string literal. *)
Definition strict_eq_str (v : value) (lit : string) : bool :=
  match v with
  | VStr s => String.eqb s lit
  | _ => false
  end.

(** Decimal digits of an index or of an integral number, as a template
    literal and [ToString] print them. *)
Definition string_of_nat (n : nat) : string :=
  NilZero.string_of_uint (Nat.to_uint n).

Definition string_of_Z (n : Z) : string :=
  NilZero.string_of_int (Z.to_int n).

(** [k in fs], for the own properties of an object. *)
Definition has_own (k : string) (fs : list (string * value)) : bool :=
  existsb (fun kv => String.eqb (fst kv) k) fs.

(** The values of a list of completions, evaluated from left to right. *)
Fixpoint all_of {A : Type} (cs : list (completion A)) : completion (list A) :=
  match cs with
  | [] => Returns []
  | c :: cs' => x ← c; xs ← all_of cs'; Returns (x :: xs)
  end.

(** [ToString].  An object is converted by its [toString] method and,
    failing that, by its [valueOf] method.  The [toString] inherited from
    [Object.prototype] prints [[object Object]].  An own property named
    [toString] hides it and is no function, so it is skipped; [valueOf],
    own or inherited, then yields no primitive either, and the conversion
    throws a [TypeError].  An array prints its items separated by commas,
    converting each in turn, with [undefined] and [null] items printed as
    nothing. *)
Fixpoint to_string (v : value) : completion string :=
  match v with
  | VUndefined => Returns "undefined"
  | VNull => Returns "null"
  | VBool b => Returns (if b then "true" else "false")
  | VNum n => Returns (string_of_Z n)
  | VNaN => Returns "NaN"
  | VStr s => Returns s
  | VObj fields =>
      if has_own "toString" fields then Throws TypeError
      else Returns "[object Object]"
  | VArr items =>
      parts ←
        all_of
          (List.map (fun x => if nullish x then Returns "" else to_string x)
             items);
      Returns (String.concat "," parts)
  end.

(** *** Arrays *)

Definition isArray (v : value) : bool :=
  match v with
  | VArr _ => true
  | _ => false
  end.

(** [Array.prototype.forEach] with a callback that updates a state (here
    the list that the callback pushes to).  The callback receives the item
    and its index. *)
Fixpoint forEach_from {S : Type} (f : value -> nat -> S -> completion S)
    (index : nat) (items : list value) (s : S) : completion S :=
  match items with
  | [] => Returns s
  | x :: items' =>
      s' ← f x index s;
      forEach_from f (Datatypes.S index) items' s'
  end.

(** [arr.forEach(f)]: reading [forEach] off [undefined] or [null] throws,
    and on any other value that is not an array the property is
    [undefined], so that the call throws. *)
Definition forEach {S : Type} (arr : value)
    (f : value -> nat -> S -> completion S) (s : S) : completion S :=
  match arr with
  | VArr items => forEach_from f 0%nat items s
  | _ => Throws TypeError
  end.

Fixpoint map_items {A : Type} (f : value -> completion A) (items : list value)
  : completion (list A) :=
  match items with
  | [] => Returns []
  | x :: items' => y ← f x; ys ← map_items f items'; Returns (y :: ys)
  end.

(** [arr.map(f)], which throws on a non-array for the same reasons. *)
Definition array_map (arr : value) (f : value -> completion value)
  : completion (list value) :=
  match arr with
  | VArr items => map_items f items
  | _ => Throws TypeError
  end.

(** *** [JSON.stringify] *)

Definition dquote : string := String (ascii_of_nat 34) EmptyString.
Definition backslash : string := String (ascii_of_nat 92) EmptyString.

Definition hex_digit (n : nat) : string :=
  String.substring n 1 "0123456789abcdef".

(** One code unit of a quoted string. *)
Definition escape_unit (c : ascii) : string :=
  let n := nat_of_ascii c in
  if (n =? 34)%nat then backslash +:+ dquote
  else if (n =? 92)%nat then backslash +:+ backslash
  else if (n =? 8)%nat then backslash +:+ "b"
  else if (n =? 9)%nat then backslash +:+ "t"
  else if (n =? 10)%nat then backslash +:+ "n"
  else if (n =? 12)%nat then backslash +:+ "f"
  else if (n =? 13)%nat then backslash +:+ "r"
  else if (n <? 32)%nat then
    backslash +:+ "u00" +:+ hex_digit (n / 16) +:+ hex_digit (n mod 16)
  else String c EmptyString.

Fixpoint escape (s : string) : string :=
  match s with
  | EmptyString => EmptyString
  | String c s' => escape_unit c +:+ escape s'
  end.

Definition quote (s : string) : string := dquote +:+ escape s +:+ dquote.

(** The text of a value, or [None] where [JSON.stringify] yields
    [undefined].  An [undefined] item of an array prints as [null]; a field
    whose value is [undefined] is left out. *)
Fixpoint serialize (v : value) : option string :=
  match v with
  | VUndefined => None
  | VNull => Some "null"
  | VBool b => Some (if b then "true" else "false")
  | VNum n => Some (string_of_Z n)
  | VNaN => Some "null"
  | VStr s => Some (quote s)
  | VArr items =>
      Some ("[" +:+
            String.concat ","
              (List.map (fun x => default "null" (serialize x)) items)
            +:+ "]")
  | VObj fields =>
      Some ("{" +:+
            String.concat ","
              (List.flat_map
                 (fun kv => match serialize (snd kv) with
                            | Some t => [quote (fst kv) +:+ ":" +:+ t]
                            | None => []
                            end) fields)
            +:+ "}")
  end.

Definition JSON_stringify (v : value) : value :=
  match serialize v with
  | Some t => VStr t
  | None => VUndefined
  end.

End JS.

(** ** Regular expressions

    The fragment needed for the phone pattern: character ranges,
    concatenation, alternation, bounded repetition.  Matching is by
    derivatives and decides whether the whole input belongs to the
    language, which is what a pattern anchored by [^] and [$] tests. *)

Module Regex.

Inductive regex : Type :=
  | Never
  | Empty
  | Range (lo hi : ascii)
  | Cat (r s : regex)
  | Or (r s : regex).

Definition Char (c : ascii) : regex := Range c c.

(** [r?] *)
Definition Opt (r : regex) : regex := Or r Empty.

Fixpoint Power (r : regex) (n : nat) : regex :=
  match n with
  | O => Empty
  | S n' => Cat r (Power r n')
  end.

(** [r{lo,hi}] *)
Definition Repeat (r : regex) (lo hi : nat) : regex :=
  Cat (Power r lo) (Power (Opt r) (hi - lo)).

Fixpoint nullable (r : regex) : bool :=
  match r with
  | Never => false
  | Empty => true
  | Range _ _ => false
  | Cat r s => nullable r && nullable s
  | Or r s => nullable r || nullable s
  end.

Definition in_range (lo hi c : ascii) : bool :=
  (nat_of_ascii lo <=? nat_of_ascii c)%nat
  && (nat_of_ascii c <=? nat_of_ascii hi)%nat.

Definition cat (r s : regex) : regex :=
  match r with
  | Never => Never
  | Empty => s
  | _ => Cat r s
  end.

Definition or (r s : regex) : regex :=
  match r, s with
  | Never, _ => s
  | _, Never => r
  | _, _ => Or r s
  end.

Fixpoint deriv (c : ascii) (r : regex) : regex :=
  match r with
  | Never | Empty => Never
  | Range lo hi => if in_range lo hi c then Empty else Never
  | Cat r s =>
      or (cat (deriv c r) s) (if nullable r then deriv c s else Never)
  | Or r s => or (deriv c r) (deriv c s)
  end.

Fixpoint matches (r : regex) (s : string) : bool :=
  match s with
  | EmptyString => nullable r
  | String c s' => matches (deriv c r) s'
  end.

(** The language of an expression, to state what [matches] decides. *)
Inductive lang : regex -> string -> Prop :=
  | lang_Empty : lang Empty EmptyString
  | lang_Range (lo hi c : ascii) :
      in_range lo hi c = true -> lang (Range lo hi) (String c EmptyString)
  | lang_Cat (r s : regex) (u v : string) :
      lang r u -> lang s v -> lang (Cat r s) (u +:+ v)
  | lang_Or_l (r s : regex) (u : string) : lang r u -> lang (Or r s) u
  | lang_Or_r (r s : regex) (u : string) : lang s u -> lang (Or r s) u.

(** [/^r$/.test(v)]: the argument is converted to a string first, and
    the call throws when the conversion does. *)
Definition test (r : regex) (v : JS.value) : JS.completion bool :=
  match JS.to_string v with
  | JS.Returns s => JS.Returns (matches r s)
  | JS.Throws e => JS.Throws e
  end.

End Regex.

Import JS.

(** ** [getButtonType] *)

Definition getButtonType (button : value) : completion value :=
  if negb (truthy button) || negb (String.eqb (typeof button) "object")
  then Returns (VStr "quick_reply")
  else
    type ← button.["type"];
    if truthy type then button.["type"] else
    url ← button.["url"];
    if truthy url then Returns (VStr "cta_url") else
    copyText ← button.["copyText"];
    if truthy copyText then Returns (VStr "cta_copy") else
    phoneNumber ← button.["phoneNumber"];
    if truthy phoneNumber then Returns (VStr "cta_call") else
    catalogLink ← button.["catalogLink"];
    if truthy catalogLink then Returns (VStr "cta_catalog") else
    reminderText ← button.["reminderText"];
    if truthy reminderText then Returns (VStr "cta_reminder") else
    reminderId ← button.["reminderId"];
    if truthy reminderId then Returns (VStr "cta_cancel_reminder") else
    addressId ← button.["addressId"];
    if truthy addressId then Returns (VStr "address_message") else
    options ← button.["options"];
    if truthy options then Returns (VStr "single_select") else
    Returns (VStr "quick_reply").

(** *** The classifier as the specification words it

    An ordered table of [(field, tag)] pairs, searched for the first field
    that passes a test; the test is a parameter so that the table can be
    read both with the specification's presence test and with the
    truthiness test of the code. *)

Definition classifier_table : list (string * string) :=
  [ ("url", "cta_url"); ("copyText", "cta_copy"); ("phoneNumber", "cta_call");
    ("catalogLink", "cta_catalog"); ("reminderText", "cta_reminder");
    ("reminderId", "cta_cancel_reminder"); ("addressId", "address_message");
    ("options", "single_select") ].

(** A field is present when it is not absent, that is neither [undefined]
    nor [null]. *)
Definition present (v : value) : bool := negb (nullish v).

Definition field (button : value) (k : string) : value :=
  match button with
  | VObj fs => lookup_field k fs
  | _ => VUndefined
  end.

Definition is_object (v : value) : bool :=
  match v with
  | VObj _ | VArr _ => true
  | _ => false
  end.

Definition classify_by (test : value -> bool) (button : value) : value :=
  if is_object button then
    if test (field button "type") then field button "type"
    else
      match List.find (fun r => test (field button (fst r)))
              classifier_table with
      | Some r => VStr (snd r)
      | None => VStr "quick_reply"
      end
  else VStr "quick_reply".

(** The reference definition: presence checks. *)
Definition getButtonType_reference : value -> value := classify_by present.


(** ** Validation results ([src/types/index.ts]) *)

Module ValidationError.
Record t : Type := mk {
  path : string;
  message : string;
  expected : string;
  value : JS.value
}.
End ValidationError.

Module ValidationWarning.
Record t : Type := mk {
  path : string;
  message : string;
  suggestion : JS.value
}.
End ValidationWarning.

Record ValidationResult : Type := {
  isValid : bool;
  errors : list ValidationError.t;
  warnings : list ValidationWarning.t
}.

(** ** [isValidButtonId] *)

(** [typeof id === 'string' && id.length > 0 && id.length <= 64] *)
Definition isValidButtonId (id : value) : bool :=
  match id with
  | VStr s => (0 <? String.length s)%nat && (String.length s <=? 64)%nat
  | _ => false
  end.

(** ** [validateInteractiveMessage] *)

(** [\d] *)
Definition digit : Regex.regex := Regex.Range "0" "9".

(** [/^\+?[1-9]\d{1,14}$/] *)
Definition phone_pattern : Regex.regex :=
  Regex.Cat (Regex.Opt (Regex.Char "+"))
    (Regex.Cat (Regex.Range "1" "9") (Regex.Repeat digit 1 14)).

(** [errors.push(e)] *)
Definition push (errors : list ValidationError.t) (e : ValidationError.t)
  : list ValidationError.t :=
  errors ++ [e].

(** [`buttons[${index}].${name}`] *)
Definition button_path (index : nat) (name : string) : string :=
  "buttons[" +:+ string_of_nat index +:+ "]." +:+ name.

(** The callback given to [buttons.forEach].  In the phone check, [||]
    runs the pattern test only when the phone number is truthy. *)
Definition validate_button (button : value) (index : nat)
    (errors : list ValidationError.t) : completion (list ValidationError.t) :=
  id ← button.["id"];
  let errors :=
    if negb (isValidButtonId id) then
      push errors
        {| ValidationError.path := button_path index "id";
           ValidationError.message :=
             "Button ID must be a non-empty string (max 64 chars)";
           ValidationError.expected := "string (1-64 chars)";
           ValidationError.value := id |}
    else errors in
  title ← button.["title"];
  let errors :=
    if negb (truthy title) || negb (is_string title) then
      push errors
        {| ValidationError.path := button_path index "title";
           ValidationError.message :=
             "Button title is required and must be a string";
           ValidationError.expected := "string";
           ValidationError.value := title |}
    else errors in
  buttonType ← getButtonType button;
  if strict_eq_str buttonType "cta_url" then
    url ← button.["url"];
    if negb (truthy url) || negb (is_string url) then
      Returns
        (push errors
           {| ValidationError.path := button_path index "url";
              ValidationError.message :=
                "URL button requires a valid URL string";
              ValidationError.expected := "string (URL format)";
              ValidationError.value := url |})
    else Returns errors
  else if strict_eq_str buttonType "cta_call" then
    phoneNumber ← button.["phoneNumber"];
    invalid ←
      (if negb (truthy phoneNumber) then Returns true
       else matched ← Regex.test phone_pattern phoneNumber;
            Returns (negb matched));
    if (invalid : bool) then
      Returns
        (push errors
           {| ValidationError.path := button_path index "phoneNumber";
              ValidationError.message :=
                "Call button requires a valid phone number";
              ValidationError.expected := "string (E.164 format)";
              ValidationError.value := phoneNumber |})
    else Returns errors
  else if strict_eq_str buttonType "cta_copy" then
    copyText ← button.["copyText"];
    if negb (truthy copyText) || negb (is_string copyText) then
      Returns
        (push errors
           {| ValidationError.path := button_path index "copyText";
              ValidationError.message :=
                "Copy button requires copyText string";
              ValidationError.expected := "string";
              ValidationError.value := copyText |})
    else Returns errors
  else Returns errors.

(** [buttons.length === 0], evaluated on an array only. *)
Definition array_is_empty (v : value) : bool :=
  match v with
  | VArr items => (List.length items =? 0)%nat
  | _ => false
  end.

Definition validateInteractiveMessage (config buttons : value)
  : completion ValidationResult :=
  let errors := [] in
  let warnings := [] in
  body ← config.["body"];
  let errors :=
    if negb (truthy body) || negb (is_string body) then
      push errors
        {| ValidationError.path := "body";
           ValidationError.message :=
             "Body text is required and must be a string";
           ValidationError.expected := "string";
           ValidationError.value := body |}
    else errors in
  let errors :=
    if negb (isArray buttons) || array_is_empty buttons then
      push errors
        {| ValidationError.path := "buttons";
           ValidationError.message := "At least one button is required";
           ValidationError.expected := "array with minimum 1 item";
           ValidationError.value := buttons |}
    else errors in
  errors ← forEach buttons validate_button errors;
  Returns {| isValid := (List.length errors =? 0)%nat;
             errors := errors;
             warnings := warnings |}.

(** ** [buildInteractiveButtons] *)

(** [a && b], where [b] is evaluated only when [a] is truthy; a chain
    [a && b && c] is [(a && b) && c]. *)
Definition and_then (a : value) (b : completion value) : completion value :=
  if truthy a then b else Returns a.

(** The callback given to [buttons.map]; the index is not used. *)
Definition normalize_entry (b : value) : completion value :=
  named ← and_then b b.["name"];
  full ← and_then named b.["buttonParamsJson"];
  if truthy full then Returns b else
  identified ← and_then b b.["id"];
  legacy ← and_then identified b.["title"];
  if truthy legacy then
    id ← b.["id"];
    title ← b.["title"];
    subtitle ← b.["subtitle"];
    disabled ← b.["disabled"];
    let buttonParams :=
      VObj [ ("id", id); ("title", title);
             ("subtitle", or_else subtitle VNull);
             ("disabled", or_else disabled (VBool false)) ] in
    name ← getButtonType b;
    Returns (VObj [ ("name", name);
                    ("buttonParamsJson", JSON_stringify buttonParams) ])
  else
  identified ← and_then b b.["buttonId"];
  old ← and_then identified b.["buttonText"];
  if truthy old then
    buttonId ← b.["buttonId"];
    buttonText ← b.["buttonText"];
    displayText ← buttonText.["displayText"];
    subtitle ← b.["subtitle"];
    disabled ← b.["disabled"];
    let buttonParams :=
      VObj [ ("id", buttonId); ("title", or_else displayText buttonText);
             ("subtitle", or_else subtitle VNull);
             ("disabled", or_else disabled (VBool false)) ] in
    name ← getButtonType b;
    Returns (VObj [ ("name", name);
                    ("buttonParamsJson", JSON_stringify buttonParams) ])
  else Returns b.

(** The parameter defaults to the empty array when it is [undefined]. *)
Definition buildInteractiveButtons (buttons : value)
  : completion (list value) :=
  let buttons := match buttons with VUndefined => VArr [] | _ => buttons end in
  array_map buttons normalize_entry.

(** ** [buildMessageContent] *)

(** The two assignments to [messageParams.footer] and
    [messageParams.header] update the object built by the literal; the
    model threads the fields of [messageParams] and closes the envelope
    around them at the end. *)
Definition buildMessageContent (config buttons : value) : completion value :=
  entries ← array_map buttons
    (fun button =>
       name ← button.["name"];
       buttonParamsJson ← button.["buttonParamsJson"];
       Returns (VObj [ ("name", name);
                       ("buttonParamsJson", buttonParamsJson) ]));
  body ← config.["body"];
  let messageParams := [ ("body", VObj [ ("text", body) ]) ] in
  footer ← config.["footer"];
  let messageParams :=
    if truthy footer
    then set_field "footer" (VObj [ ("text", footer) ]) messageParams
    else messageParams in
  headerText ← config.["headerText"];
  messageParams ←
    (if truthy headerText then
       headerType ← config.["headerType"];
       Returns
         (set_field "header"
            (VObj [ ("type", or_else headerType (VNum 1));
                    ("text", headerText) ]) messageParams)
     else Returns messageParams);
  headerMedia ← config.["headerMedia"];
  messageParams ←
    (if truthy headerMedia then
       mediaType ← headerMedia.["mediaType"];
       mediaUrl ← headerMedia.["mediaUrl"];
       mediaCaption ← headerMedia.["mediaCaption"];
       Returns
         (set_field "header"
            (VObj [ ("type",
                     if strict_eq_str mediaType "image" then VNum 1
                     else if strict_eq_str mediaType "video" then VNum 2
                     else VNum 3);
                    ("text", or_else headerText (VStr ""));
                    ("media",
                     VObj [ ("url", mediaUrl);
                            ("caption", or_else mediaCaption (VStr "")) ]) ])
            messageParams)
     else Returns messageParams);
  Returns
    (VObj [ ("interactive",
             VObj [ ("nativeFlow",
                     VObj [ ("buttons", VArr entries);
                            ("messageParams", VObj messageParams) ]) ]) ]).

(** [envelope.interactive.nativeFlow.messageParams.header] *)
Definition header_of (envelope : value) : completion value :=
  interactive ← envelope.["interactive"];
  nativeFlow ← interactive.["nativeFlow"];
  messageParams ← nativeFlow.["messageParams"];
  messageParams.["header"].

(** ** [InteractiveValidationError] ([src/types/validation.ts])

    Error objects are mutable and have an identity, so they live in a
    store; a method receives the reference of its receiver.  The arrays and
    the example held by an error are immutable values here: no method of
    the class updates them. *)

Module InteractiveValidationError.
Record t : Type := mk {
  name : string;
  message : string;
  context : string;
  errors : list ValidationError.t;
  warnings : list ValidationWarning.t;
  example : JS.value
}.
End InteractiveValidationError.

Abbreviation store := (gmap nat InteractiveValidationError.t).

(** [new InteractiveValidationError(message, context, errors, warnings,
    example)]: a fresh object, whose [name] is set by the field
    initialiser. *)
Definition new_InteractiveValidationError (message context : string)
    (errors : list ValidationError.t) (warnings : list ValidationWarning.t)
    (example : value) (h : store) : nat * store :=
  let this := fresh (dom h) in
  (this,
   <[this := {| InteractiveValidationError.name := "InteractiveValidationError";
                InteractiveValidationError.message := message;
                InteractiveValidationError.context := context;
                InteractiveValidationError.errors := errors;
                InteractiveValidationError.warnings := warnings;
                InteractiveValidationError.example := example |}]> h).

(** [this.addContext(context)]; [None] stands for a receiver that is not
    in the store, which a program cannot produce. *)
Definition addContext (this : nat) (context : string) (h : store)
  : option (nat * store) :=
  e ← h !! this;
  Some (new_InteractiveValidationError
          (InteractiveValidationError.message e +:+ " in " +:+ context)
          (InteractiveValidationError.context e +:+ " -> " +:+ context)
          (InteractiveValidationError.errors e)
          (InteractiveValidationError.warnings e)
          (InteractiveValidationError.example e) h).

(** [this.toJSON()] *)
Definition toJSON (e : InteractiveValidationError.t)
  : ValidationResult * value :=
  ({| isValid := false;
      errors := InteractiveValidationError.errors e;
      warnings := InteractiveValidationError.warnings e |},
   InteractiveValidationError.example e).

(** ** The rules of the specification

    What the specification says of the validator, the normalizer and the
    assembler, written from its words, to be compared with the code. *)

Module Spec.

Definition nonempty_string (v : value) : bool :=
  match v with
  | VStr s => negb (String.eqb s "")
  | _ => false
  end.

(** The ID rule: a string with length in [[1, 64]]. *)
Definition id_rule (v : value) : bool :=
  match v with
  | VStr s => (1 <=? String.length s)%nat && (String.length s <=? 64)%nat
  | _ => false
  end.

(** The phone rule: the value has a text, and the text matches the
    E.164-like pattern. *)
Definition phone_rule (v : value) : bool :=
  match to_string v with
  | Returns text => Regex.matches phone_pattern text
  | Throws _ => false
  end.

(** Type-specific rules, keyed by the classifier's output: the field each
    one constrains and the constraint. *)
Definition type_rules : list (string * (string * (value -> bool))) :=
  [ ("cta_url", ("url", nonempty_string));
    ("cta_call", ("phoneNumber", phone_rule));
    ("cta_copy", ("copyText", nonempty_string)) ].

Definition type_rule (button : value) : bool :=
  match getButtonType button with
  | Returns (VStr tag) =>
      match List.find (fun r => String.eqb tag (fst r)) type_rules with
      | Some (_, (name, rule)) => rule (field button name)
      | None => true
      end
  | _ => true
  end.

Definition violated (ok : bool) : nat := if ok then 0%nat else 1%nat.

(** The number of rules a button violates. *)
Definition rule_violations (button : value) : nat :=
  (violated (id_rule (field button "id"))
   + violated (nonempty_string (field button "title"))
   + violated (type_rule button))%nat.

(** The field that the rule of a button's type constrains, if the type has
    a rule. *)
Definition type_field (button : value) : option string :=
  match getButtonType button with
  | Returns (VStr tag) =>
      match List.find (fun r => String.eqb tag (fst r)) type_rules with
      | Some (_, (name, _)) => Some name
      | None => None
      end
  | _ => None
  end.

(** The fields whose rule a button violates, in the order of the rules:
    id, title, then the field of the button's type. *)
Definition violated_fields (button : value) : list string :=
  (if id_rule (field button "id") then [] else [ "id" ])
  ++ (if nonempty_string (field button "title") then [] else [ "title" ])
  ++ (if type_rule button then []
      else match type_field button with
           | Some name => [ name ]
           | None => []
           end).

(** The media-type codes of the assembler, with their default. *)
Definition media_codes : list (string * Z) :=
  [ ("image", 1); ("video", 2); ("document", 3) ].

Definition media_code (mediaType : value) : Z :=
  match mediaType with
  | VStr s =>
      match List.find (fun r => String.eqb s (fst r)) media_codes with
      | Some r => snd r
      | None => 3
      end
  | _ => 3
  end.

(** A field of a string type that may be left out. *)
Definition optional_string (v : value) : bool :=
  nullish v || is_string v.

(** The entry that rule 2 of the normalizer emits, with the specification's
    [??] defaults. *)
Definition legacy_entry (name : value) (b : value) : value :=
  VObj [ ("name", name);
         ("buttonParamsJson",
          JSON_stringify
            (VObj [ ("id", field b "id"); ("title", field b "title");
                    ("subtitle", coalesce (field b "subtitle") VNull);
                    ("disabled",
                     coalesce (field b "disabled") (VBool false)) ])) ].

(** The plain text header and the media header of the assembler. *)
Definition text_header (config : value) : value :=
  VObj [ ("type", coalesce (field config "headerType") (VNum 1));
         ("text", field config "headerText") ].

Definition media_header (config : value) : value :=
  let headerMedia := field config "headerMedia" in
  VObj [ ("type", VNum (media_code (field headerMedia "mediaType")));
         ("text", coalesce (field config "headerText") (VStr ""));
         ("media",
          VObj [ ("url", field headerMedia "mediaUrl");
                 ("caption",
                  coalesce (field headerMedia "mediaCaption") (VStr "")) ]) ].

(** An entry exposes a field when the field is present. *)
Definition exposes (b : value) (k : string) : bool := present (field b k).

End Spec.

(** The errors that the validator's callback adds for one button, and for
    a run of buttons that starts at an index. *)
Definition button_errors (button : value) (index : nat)
  : list ValidationError.t :=
  match validate_button button index [] with
  | Returns es => es
  | Throws _ => []
  end.

Fixpoint errors_from (index : nat) (buttons : list value)
  : list ValidationError.t :=
  match buttons with
  | [] => []
  | b :: buttons' => button_errors b index ++ errors_from (S index) buttons'
  end.

(** The entry that the normalizer's callback yields. *)
Definition normalized (b : value) : value :=
  match normalize_entry b with
  | Returns v => v
  | Throws _ => b
  end.

(** The parameters that the two legacy rules serialize. *)
Definition buttonParams (id title subtitle disabled : value) : value :=
  VObj [ ("id", id); ("title", title);
         ("subtitle", or_else subtitle VNull);
         ("disabled", or_else disabled (VBool false)) ].

(** The header of the envelope assembled for a config. *)
Definition assembled_header (config buttons : value) : completion value :=
  envelope ← buildMessageContent config buttons;
  header_of envelope.

Definition all_digits (s : string) : Prop :=
  Forall (fun c => Regex.in_range "0" "9" c = true) (list_ascii_of_string s).

(** An error was reported at a path. *)
Definition reported_at (r : ValidationResult) (p : string) : bool :=
  existsb (fun e => String.eqb (ValidationError.path e) p) (errors r).

(** The shape test of the code: both fields are truthy. *)
Definition both_truthy (b : value) (k1 k2 : string) : bool :=
  truthy (field b k1) && truthy (field b k2).

(** A call button with a given phone number, and the result of validating
    it alone. *)
Definition call_button (phoneNumber : value) : value :=
  VObj [ ("id", VStr "call"); ("title", VStr "Call us");
         ("phoneNumber", phoneNumber) ].

Definition validate_call (phoneNumber : value) : completion ValidationResult :=
  validateInteractiveMessage (VObj [ ("body", VStr "Need help?") ])
    (VArr [ call_button phoneNumber ]).

Definition phone_error_reported (phoneNumber : value) : option bool :=
  match validate_call phoneNumber with
  | Returns r => Some (reported_at r "buttons[0].phoneNumber")
  | Throws _ => None
  end.

(** A value that [ToString] converts to a string. *)
Definition convertible (v : value) : bool :=
  match to_string v with
  | Returns _ => true
  | Throws _ => false
  end.

(** The classifier gives a button the tag [tag]. *)
Definition classified (b : value) (tag : string) : bool :=
  match getButtonType b with
  | Returns t => strict_eq_str t tag
  | Throws _ => false
  end.

(** A button that the validator's callback can check: it is neither
    [null] nor [undefined], and if the classifier makes it a call button,
    its phone number can be converted to a string.  A phone number of the
    declared type, a string or nothing, always can. *)
Definition checkable (b : value) : bool :=
  negb (nullish b)
  && (negb (classified b "cta_call") || convertible (field b "phoneNumber")).

(** The error that the callback reports for a field of a button. *)
Definition field_error (index : nat) (name message expected : string)
    (b : value) : ValidationError.t :=
  {| ValidationError.path := button_path index name;
     ValidationError.message := message;
     ValidationError.expected := expected;
     ValidationError.value := field b name |}.

(** The errors that the callback reports for a button it can check, rule
    by rule.  [validate_button_closed] shows that these are the errors the
    callback pushes. *)
Definition rule_errors (b : value) (index : nat) : list ValidationError.t :=
  (if Spec.id_rule (field b "id") then []
   else [ field_error index "id"
            "Button ID must be a non-empty string (max 64 chars)"
            "string (1-64 chars)" b ])
  ++ (if Spec.nonempty_string (field b "title") then []
      else [ field_error index "title"
               "Button title is required and must be a string" "string" b ])
  ++ (if classified b "cta_url" then
        if Spec.nonempty_string (field b "url") then []
        else [ field_error index "url"
                 "URL button requires a valid URL string"
                 "string (URL format)" b ]
      else if classified b "cta_call" then
        if Spec.phone_rule (field b "phoneNumber") then []
        else [ field_error index "phoneNumber"
                 "Call button requires a valid phone number"
                 "string (E.164 format)" b ]
      else if classified b "cta_copy" then
        if Spec.nonempty_string (field b "copyText") then []
        else [ field_error index "copyText"
                 "Copy button requires copyText string" "string" b ]
      else []).

(** ** The structural errors of the validator *)

(** The two errors that [validateInteractiveMessage] pushes before it
    visits the buttons. *)
Definition body_error (body : value) : ValidationError.t :=
  {| ValidationError.path := "body";
     ValidationError.message := "Body text is required and must be a string";
     ValidationError.expected := "string";
     ValidationError.value := body |}.

Definition buttons_error (buttons : value) : ValidationError.t :=
  {| ValidationError.path := "buttons";
     ValidationError.message := "At least one button is required";
     ValidationError.expected := "array with minimum 1 item";
     ValidationError.value := buttons |}.

(** The entry that the assembler makes of a button. *)
Definition project (b : value) : value :=
  VObj [ ("name", field b "name");
         ("buttonParamsJson", field b "buttonParamsJson") ].

(** The inputs that the validator accepts: a readable config whose body is
    a non-empty string, and a non-empty array of readable buttons that
    violate no rule. *)
Definition acceptable (config : value) (bs : list value) : Prop :=
  nullish config = false /\
  Spec.nonempty_string (field config "body") = true /\
  bs <> [] /\
  Forall (fun b => nullish b = false /\ Spec.rule_violations b = 0%nat) bs.

(** The field names under which the callback reports an error. *)
Definition button_error_fields : list string :=
  [ "id"; "title"; "url"; "phoneNumber"; "copyText" ].

(** The nine tags that the classifier produces by itself. *)
Definition inferred_tags : list string :=
  "quick_reply" :: List.map snd classifier_table.

(** ** [InteractiveValidationError.createButtonValidationError] *)

(** [new InteractiveValidationError(...)] as a value: what the constructor
    stores in the fresh object. *)
Definition constructed (message context : string)
    (errors : list ValidationError.t) (warnings : list ValidationWarning.t)
    (example : value) : InteractiveValidationError.t :=
  {| InteractiveValidationError.name := "InteractiveValidationError";
     InteractiveValidationError.message := message;
     InteractiveValidationError.context := context;
     InteractiveValidationError.errors := errors;
     InteractiveValidationError.warnings := warnings;
     InteractiveValidationError.example := example |}.

(** [requiredFields.filter(field => !providedFields.includes(field))] *)
Definition missingFields (requiredFields providedFields : list string)
  : list string :=
  List.filter (fun field => negb (existsb (String.eqb field) providedFields))
    requiredFields.

(** The callback of [requiredFields.reduce]: each test assigns one
    placeholder to the accumulator. *)
Definition example_step (acc : list (string * value)) (field : string)
  : list (string * value) :=
  let acc :=
    if String.eqb field "url"
    then set_field "url" (VStr "https://example.com") acc else acc in
  let acc :=
    if String.eqb field "phoneNumber"
    then set_field "phoneNumber" (VStr "+1234567890") acc else acc in
  let acc :=
    if String.eqb field "copyText"
    then set_field "copyText" (VStr "Text to copy") acc else acc in
  let acc :=
    if String.eqb field "reminderText"
    then set_field "reminderText" (VStr "Reminder message") acc else acc in
  let acc :=
    if String.eqb field "dateTime"
    then set_field "dateTime" (VStr "2024-01-01T00:00:00Z") acc else acc in
  let acc :=
    if String.eqb field "catalogLink"
    then set_field "catalogLink" (VStr "catalog://product/123") acc
    else acc in
  let acc :=
    if String.eqb field "addressId"
    then set_field "addressId" (VStr "address_123") acc else acc in
  let acc :=
    if String.eqb field "options"
    then set_field "options"
           (VArr [ VObj [ ("id", VStr "opt1"); ("title", VStr "Option 1") ] ])
           acc
    else acc in
  acc.

(** [{...base, ...obj}]: the properties of [obj] are copied in order onto
    the properties already written. *)
Definition spread (base obj : list (string * value))
  : list (string * value) :=
  List.fold_left (fun acc kv => set_field (fst kv) (snd kv) acc) obj base.

Definition button_example (buttonType : string) (requiredFields : list string)
  : value :=
  VObj (spread [ ("type", VStr buttonType); ("id", VStr "button_id");
                 ("title", VStr "Button Title") ]
          (List.fold_left example_step requiredFields [])).

Definition createButtonValidationError (buttonType : string)
    (requiredFields providedFields : list string) (h : store)
  : nat * store :=
  let missing := missingFields requiredFields providedFields in
  let errors :=
    List.map
      (fun field =>
         {| ValidationError.path := "button." +:+ field;
            ValidationError.message :=
              "Missing required field for " +:+ buttonType +:+ " button";
            ValidationError.expected := field;
            ValidationError.value := VUndefined |}) missing in
  let example := button_example buttonType requiredFields in
  new_InteractiveValidationError
    ("Invalid " +:+ buttonType +:+ " button configuration")
    "button_validation" errors [] example h.

(** The placeholders of [example_step], by field name. *)
Definition placeholders : list (string * value) :=
  [ ("url", VStr "https://example.com");
    ("phoneNumber", VStr "+1234567890");
    ("copyText", VStr "Text to copy");
    ("reminderText", VStr "Reminder message");
    ("dateTime", VStr "2024-01-01T00:00:00Z");
    ("catalogLink", VStr "catalog://product/123");
    ("addressId", VStr "address_123");
    ("options",
     VArr [ VObj [ ("id", VStr "opt1"); ("title", VStr "Option 1") ] ]) ].

(** A chain of calls [e.addContext(c1).addContext(c2)...]. *)
Fixpoint addContexts (this : nat) (contexts : list string) (h : store)
  : option (nat * store) :=
  match contexts with
  | [] => Some (this, h)
  | c :: contexts' =>
      match addContext this c h with
      | Some (next, h') => addContexts next contexts' h'
      | None => None
      end
  end.

(** ** The asynchronous senders

    [sendInteractiveMessage], [sendInteractiveButtonsBasic] and
    [sendButtons] are asynchronous and talk to two external parties: the
    module loader (dynamic [import]) and the Baileys socket.  A call of
    such a function is a program that ends fulfilled or rejected and that,
    on the way, asks the outside for an import, for
    [generateWAMessageFromContent] or for [relayMessage]; what the outside
    answers is not part of the program. *)

Module Send.

(** External objects (a module namespace, a socket) are known by a
    handle. *)
Definition handle : Type := nat.

(** What an asynchronous function can be rejected with. *)
Inductive rejection : Type :=
  | TypeErrorThrown
  | ValidationFailed (e : InteractiveValidationError.t)
  | ErrorThrown (message : string)
  | ExternalFailure (reason : value).

(** The answer of an external call: its value, or what it threw or was
    rejected with. *)
Inductive reply : Type :=
  | Resolved (v : value)
  | Failed (reason : value).

Inductive prog (A : Type) : Type :=
  | Done (a : A)
  | Reject (r : rejection)
  | Import (specifier : string) (k : option handle -> prog A)
  | Generate (module : handle) (jid content options : value)
      (k : reply -> prog A)
  | Relay (socket : handle) (jid key options : value) (k : reply -> prog A).

Arguments Done {A} a.
Arguments Reject {A} r.
Arguments Import {A} specifier k.
Arguments Generate {A} module jid content options k.
Arguments Relay {A} socket jid key options k.

Fixpoint prog_bind {A B : Type} (k : A -> prog B) (p : prog A) : prog B :=
  match p with
  | Done a => k a
  | Reject r => Reject r
  | Import s c => Import s (fun m => prog_bind k (c m))
  | Generate m j c o c' => Generate m j c o (fun r => prog_bind k (c' r))
  | Relay s j c o c' => Relay s j c o (fun r => prog_bind k (c' r))
  end.

#[export] Instance prog_mret : MRet prog := fun A a => Done a.
#[export] Instance prog_mbind : MBind prog := fun A B k p => prog_bind k p.

(** Synchronous code inside an asynchronous function: an exception
    rejects the promise. *)
Definition lift {A : Type} (c : completion A) : prog A :=
  match c with
  | Returns a => Done a
  | Throws TypeError => Reject TypeErrorThrown
  end.

(** An external call that is awaited, or made, outside any [try]: its
    failure rejects the caller. *)
Definition or_reject {A : Type} (r : reply) (k : value -> prog A) : prog A :=
  match r with
  | Resolved v => k v
  | Failed reason => Reject (ExternalFailure reason)
  end.

(** [try { modules.push(await import(specifier)); } catch {}] *)
Definition try_import (specifier : string) (modules : list handle)
  : prog (list handle) :=
  Import specifier
    (fun m => match m with
              | Some module => Done (modules ++ [module])
              | None => Done modules
              end).

Definition importBaileysModules : prog (list handle) :=
  let modules := [] in
  modules ← try_import "baileys" modules;
  modules ← try_import "@whiskeysockets/baileys" modules;
  modules ← try_import "@adiwajshing/baileys" modules;
  Done modules.

Record SendInteractiveMessageParams : Type := {
  socket : handle;
  jid : value;
  config : value;
  buttons : value;
  format : value
}.

Definition no_module_message : string :=
  "No Baileys module found. Please install baileys, @whiskeysockets/baileys, or @adiwajshing/baileys".

Definition sendInteractiveMessage (params : SendInteractiveMessageParams)
  : prog value :=
  let socket := socket params in
  let jid := jid params in
  let config := config params in
  let buttons := buttons params in
  let format :=
    match format params with VUndefined => VStr "current" | f => f end in
  baileysModules ← importBaileysModules;
  match baileysModules with
  | [] => Reject (ErrorThrown no_module_message)
  | baileys :: _ =>
      normalizedButtons ←
        lift (if strict_eq_str format "legacy" then Returns buttons
              else (bs ← buildInteractiveButtons buttons; Returns (VArr bs)));
      messageContent ← lift (buildMessageContent config normalizedButtons);
      Generate baileys jid messageContent
        (VObj [ ("ephemeralExpiration", VNum 86400) ])
        (fun generated =>
           or_reject generated
             (fun message =>
                key ← lift message.["key"];
                inner ← lift message.["message"];
                Relay socket jid key
                  (VObj [ ("additionalNodes", VArr [ inner ]) ])
                  (fun relayed => or_reject relayed Done)))
  end.

Record SendInteractiveButtonsBasicParams : Type := {
  basic_socket : handle;
  basic_jid : value;
  basic_config : value;
  basic_buttons : value
}.

Definition sendInteractiveButtonsBasic
    (params : SendInteractiveButtonsBasicParams) : prog value :=
  let socket := basic_socket params in
  let jid := basic_jid params in
  let config := basic_config params in
  let buttons := basic_buttons params in
  validation ← lift (validateInteractiveMessage config buttons);
  if negb (isValid validation) then
    Reject
      (ValidationFailed
         (constructed "Invalid interactive message configuration"
            "sendInteractiveButtonsBasic" (errors validation)
            (warnings validation) VUndefined))
  else
    normalizedButtons ← lift (buildInteractiveButtons buttons);
    messageContent ←
      lift (buildMessageContent config (VArr normalizedButtons));
    sendInteractiveMessage
      {| socket := socket; jid := jid; config := config;
         buttons := buttons; format := VStr "current" |}.

(** [sendButtons] of [src/index.ts]. *)
Definition sendButtons (socket : handle) (jid buttons body footer : value)
  : prog value :=
  let config := VObj [ ("body", body); ("footer", footer) ] in
  sendInteractiveButtonsBasic
    {| basic_socket := socket; basic_jid := jid; basic_config := config;
       basic_buttons := buttons |}.

(** *** Running a program against the outside *)

Inductive call : Type :=
  | Imported (specifier : string)
  | Generated (module : handle) (jid content options : value)
  | Relayed (socket : handle) (jid key options : value).

(** The outside answers each request; its answer may depend on everything
    that was asked before. *)
Record world : Type := {
  on_import : list call -> string -> option handle;
  on_generate : list call -> handle -> value -> value -> value -> reply;
  on_relay : list call -> handle -> value -> value -> value -> reply
}.

Inductive outcome (A : Type) : Type :=
  | Fulfilled (a : A)
  | Rejected (r : rejection).

Arguments Fulfilled {A} a.
Arguments Rejected {A} r.

(** The outcome of a program and the calls it made, in order, after those
    of [log]. *)
Fixpoint run {A : Type} (w : world) (p : prog A) (log : list call)
  : outcome A * list call :=
  match p with
  | Done a => (Fulfilled a, log)
  | Reject r => (Rejected r, log)
  | Import s k => run w (k (on_import w log s)) (log ++ [ Imported s ])
  | Generate m j c o k =>
      run w (k (on_generate w log m j c o)) (log ++ [ Generated m j c o ])
  | Relay s j c o k =>
      run w (k (on_relay w log s j c o)) (log ++ [ Relayed s j c o ])
  end.

Definition is_relay (c : call) : bool :=
  match c with
  | Relayed _ _ _ _ => true
  | _ => false
  end.

(** The three imports that [importBaileysModules] asks for, and the
    modules it collects from the answers. *)
Definition import_calls : list call :=
  [ Imported "baileys"; Imported "@whiskeysockets/baileys";
    Imported "@adiwajshing/baileys" ].

Definition imported_modules (w : world) (log : list call) : list handle :=
  option_list (on_import w log "baileys")
  ++ option_list
       (on_import w (log ++ [ Imported "baileys" ]) "@whiskeysockets/baileys")
  ++ option_list
       (on_import w
          ((log ++ [ Imported "baileys" ])
           ++ [ Imported "@whiskeysockets/baileys" ])
          "@adiwajshing/baileys").

(** What [sendInteractiveMessage] does once a module and a message content
    are at hand. *)
Definition deliver (w : world) (log : list call) (module socket : handle)
    (jid content : value) : outcome value * list call :=
  let options := VObj [ ("ephemeralExpiration", VNum 86400) ] in
  let log1 := log ++ [ Generated module jid content options ] in
  match on_generate w log module jid content options with
  | Failed reason => (Rejected (ExternalFailure reason), log1)
  | Resolved message =>
      if nullish message then (Rejected TypeErrorThrown, log1)
      else
        let key := field message "key" in
        let nodes :=
          VObj [ ("additionalNodes", VArr [ field message "message" ]) ] in
        let log2 := log1 ++ [ Relayed socket jid key nodes ] in
        match on_relay w log1 socket jid key nodes with
        | Resolved v => (Fulfilled v, log2)
        | Failed reason => (Rejected (ExternalFailure reason), log2)
        end
  end.

End Send.

(** ** The matcher decides the language of an expression *)

Section Matcher.

Import Regex.

Lemma lang_Cat_inv (r s : regex) (w : string) :
  lang (Cat r s) w -> exists u v, w = u +:+ v /\ lang r u /\ lang s v.
Proof. inversion 1; subst; eauto. Qed.

Lemma lang_Or_iff (r s : regex) (w : string) :
  lang (Or r s) w <-> lang r w \/ lang s w.
Proof.
  split.
  - inversion 1; subst; auto.
  - intros [H | H]; [ apply lang_Or_l | apply lang_Or_r ]; exact H.
Qed.

Lemma lang_Never (w : string) : ~ lang Never w.
Proof. inversion 1. Qed.

Lemma lang_Empty_inv (w : string) : lang Empty w -> w = EmptyString.
Proof. inversion 1; reflexivity. Qed.

Lemma nullable_lang (r : regex) : nullable r = true <-> lang r EmptyString.
Proof.
  induction r as [ | | lo hi | r IHr s IHs | r IHr s IHs ]; cbn.
  - split; [ discriminate | inversion 1 ].
  - split; [ constructor | reflexivity ].
  - split; [ discriminate | inversion 1 ].
  - rewrite andb_true_iff, IHr, IHs. split.
    + intros [Hr Hs]. apply (lang_Cat r s EmptyString EmptyString Hr Hs).
    + intros H. apply lang_Cat_inv in H. destruct H as (u & v & E & Hu & Hv).
      destruct u; [ | discriminate E ]. change (EmptyString = v) in E.
      subst v. auto.
  - rewrite orb_true_iff, IHr, IHs. symmetry. apply lang_Or_iff.
Qed.

Lemma lang_cat (r s : regex) (w : string) :
  lang (cat r s) w <-> lang (Cat r s) w.
Proof.
  destruct r; cbn; try reflexivity.
  - split; [ intros H; destruct (lang_Never _ H) | ].
    intros H. apply lang_Cat_inv in H. destruct H as (u & v & _ & Hu & _).
    destruct (lang_Never _ Hu).
  - split.
    + intros H. apply (lang_Cat Empty s EmptyString w); [ constructor | exact H ].
    + intros H. apply lang_Cat_inv in H. destruct H as (u & v & -> & Hu & Hv).
      apply lang_Empty_inv in Hu. subst u. exact Hv.
Qed.

Lemma lang_or (r s : regex) (w : string) :
  lang (or r s) w <-> lang r w \/ lang s w.
Proof.
  pose proof (lang_Or_iff r s w) as HOr.
  destruct r, s; cbn; try exact HOr;
    split; intros H; auto; destruct H as [H | H]; auto;
    destruct (lang_Never _ H).
Qed.

Lemma deriv_lang (c : ascii) (r : regex) (w : string) :
  lang (deriv c r) w <-> lang r (String c w).
Proof.
  revert w.
  induction r as [ | | lo hi | r IHr s IHs | r IHr s IHs ]; intros w; cbn.
  - split; inversion 1.
  - split; inversion 1.
  - destruct (in_range lo hi c) eqn:E; split.
    + intros H. apply lang_Empty_inv in H. subst w. constructor. exact E.
    + inversion 1; subst. constructor.
    + inversion 1.
    + inversion 1; subst. congruence.
  - rewrite lang_or, lang_cat. split.
    + intros [H | H].
      * apply lang_Cat_inv in H. destruct H as (u & v & -> & Hu & Hv).
        apply IHr in Hu. apply (lang_Cat r s (String c u) v Hu Hv).
      * destruct (nullable r) eqn:E; [ | destruct (lang_Never _ H) ].
        apply nullable_lang in E. apply IHs in H.
        apply (lang_Cat r s EmptyString (String c w) E H).
    + intros H. apply lang_Cat_inv in H. destruct H as (u & v & E & Hu & Hv).
      destruct u as [ | c0 u ].
      * change (String c w = v) in E. subst v. right. apply nullable_lang in Hu. rewrite Hu.
        apply IHs, Hv.
      * change (String c w = String c0 (u +:+ v)) in E.
        injection E as <- ->. left.
        apply lang_Cat; [ apply IHr, Hu | exact Hv ].
  - rewrite lang_or, IHr, IHs. symmetry. apply lang_Or_iff.
Qed.

Lemma matches_lang (r : regex) (u : string) :
  matches r u = true <-> lang r u.
Proof.
  revert r. induction u as [ | c u IH ]; intros r; cbn.
  - apply nullable_lang.
  - rewrite IH. apply deriv_lang.
Qed.

Lemma lang_Range_iff (lo hi : ascii) (w : string) :
  lang (Range lo hi) w <->
  exists c, w = String c EmptyString /\ in_range lo hi c = true.
Proof.
  split.
  - inversion 1; subst; eauto.
  - intros (c & -> & H). constructor. exact H.
Qed.

Lemma lang_Cat_iff (r s : regex) (w : string) :
  lang (Cat r s) w <-> exists u v, w = u +:+ v /\ lang r u /\ lang s v.
Proof.
  split; [ apply lang_Cat_inv | ].
  intros (u & v & -> & Hu & Hv). constructor; assumption.
Qed.

Lemma lang_Empty_iff (w : string) : lang Empty w <-> w = EmptyString.
Proof. split; [ apply lang_Empty_inv | intros ->; constructor ]. Qed.

Lemma lang_Opt_iff (r : regex) (w : string) :
  lang (Opt r) w <-> w = EmptyString \/ lang r w.
Proof. unfold Opt. rewrite lang_Or_iff, lang_Empty_iff. tauto. Qed.

Lemma all_digits_cons (c : ascii) (w : string) :
  all_digits (String c w) <-> in_range "0" "9" c = true /\ all_digits w.
Proof.
  unfold all_digits. cbn. split.
  - inversion 1; auto.
  - intros [Hc Hw]. constructor; assumption.
Qed.

(** [\d{0,k}], the tail of a bounded repetition. *)
Lemma lang_digits_upto (k : nat) (w : string) :
  lang (Power (Opt digit) k) w <->
  all_digits w /\ (String.length w <= k)%nat.
Proof.
  revert w. induction k as [ | k IH ]; intros w; cbn [Power].
  - rewrite lang_Empty_iff. split.
    + intros ->. split; [ constructor | cbn; lia ].
    + intros [_ H]. destruct w; [ reflexivity | cbn in H; lia ].
  - rewrite lang_Cat_iff. split.
    + intros (u & v & -> & Hu & Hv).
      apply lang_Opt_iff in Hu. apply IH in Hv. destruct Hv as [Hd Hl].
      destruct Hu as [-> | Hu].
      * change (EmptyString +:+ v) with v. split; [ exact Hd | lia ].
      * apply lang_Range_iff in Hu. destruct Hu as (c & -> & Hc).
        change (String c EmptyString +:+ v) with (String c v).
        rewrite all_digits_cons. cbn. split; [ auto | lia ].
    + intros [Hd Hl]. destruct w as [ | c w ].
      * exists EmptyString, EmptyString. split; [ reflexivity | ].
        split; [ apply lang_Opt_iff; auto | ].
        apply IH. split; [ constructor | cbn; lia ].
      * apply all_digits_cons in Hd. destruct Hd as [Hc Hd]. cbn in Hl.
        exists (String c EmptyString), w. split; [ reflexivity | ].
        split.
        -- apply lang_Opt_iff. right. apply lang_Range_iff. eauto.
        -- apply IH. split; [ exact Hd | lia ].
Qed.

(** The texts that the phone pattern accepts: an optional plus sign, a
    digit from 1 to 9, then one to fourteen digits. *)
Lemma phone_pattern_language (w : string) :
  matches phone_pattern w = true <->
  exists (sign : string) (d : ascii) (ds : string),
    w = sign +:+ String d ds /\
    (sign = EmptyString \/ sign = "+") /\
    in_range "1" "9" d = true /\
    all_digits ds /\
    (1 <= String.length ds <= 14)%nat.
Proof.
  rewrite matches_lang. unfold phone_pattern, Repeat, Char.
  cbn [Power Nat.sub]. split.
  - intros H.
    apply lang_Cat_iff in H. destruct H as (sign & w1 & -> & Hsign & H).
    apply lang_Cat_iff in H. destruct H as (u & w2 & -> & Hd & H).
    apply lang_Cat_iff in H. destruct H as (w3 & tl & -> & H & Htl).
    apply lang_Cat_iff in H. destruct H as (u1 & e & -> & Hc & He).
    apply lang_Opt_iff in Hsign. apply lang_Range_iff in Hd, Hc.
    apply lang_Empty_iff in He.
    apply (proj1 (lang_digits_upto 13 tl)) in Htl.
    destruct Hd as (d & -> & Hd). destruct Hc as (c & -> & Hc).
    destruct Htl as [Htl Hlen]. subst e.
    exists sign, d, (String c tl). split; [ reflexivity | ].
    split.
    { destruct Hsign as [-> | Hs]; [ auto | ].
      apply lang_Range_iff in Hs. destruct Hs as (p & -> & Hp).
      right. f_equal.
      unfold in_range in Hp. apply andb_true_iff in Hp.
      destruct Hp as [Hp1 Hp2]. apply Nat.leb_le in Hp1, Hp2.
      rewrite <- (ascii_nat_embedding p).
      replace (nat_of_ascii p) with (nat_of_ascii "+") by lia.
      apply ascii_nat_embedding. }
    split; [ exact Hd | ].
    split; [ apply all_digits_cons; auto | cbn; lia ].
  - intros (sign & d & ds & -> & Hsign & Hd & Hds & Hlen).
    destruct ds as [ | c tl ]; [ cbn in Hlen; lia | ].
    apply all_digits_cons in Hds. destruct Hds as [Hc Htl]. cbn in Hlen.
    apply lang_Cat_iff. exists sign, (String d (String c tl)).
    split; [ reflexivity | ]. split.
    { apply lang_Opt_iff. destruct Hsign as [-> | ->]; [ auto | right ].
      apply lang_Range_iff. eexists. split; reflexivity. }
    apply lang_Cat_iff. exists (String d EmptyString), (String c tl).
    split; [ reflexivity | ]. split; [ apply lang_Range_iff; eauto | ].
    apply lang_Cat_iff. exists (String c EmptyString), tl.
    split; [ reflexivity | ]. split.
    + apply lang_Cat_iff. exists (String c EmptyString), EmptyString.
      split; [ reflexivity | ].
      split; [ apply lang_Range_iff; eauto | constructor ].
    + apply (proj2 (lang_digits_upto 13 tl)). split; [ exact Htl | lia ].
Qed.

End Matcher.

(** ** Properties of the classifier *)

Section Classifier.

Example classify_url_and_phone :
  getButtonType (VObj [("id", VStr "a"); ("title", VStr "A");
                       ("phoneNumber", VStr "+1234567890");
                       ("url", VStr "https://example.com")])
  = Returns (VStr "cta_url").
Proof. reflexivity. Qed.

Lemma get_field (b : value) (k : string) :
  nullish b = false -> b.[k] = Returns (field b k).
Proof. destruct b; cbn; intros H; try discriminate H; reflexivity. Qed.

Lemma getButtonType_object (fs : list (string * value)) :
  getButtonType (VObj fs) = Returns (classify_by truthy (VObj fs)).
Proof.
  unfold getButtonType, classify_by, classifier_table; cbn.
  repeat (match goal with
          | |- context [truthy (lookup_field ?k fs)] =>
              destruct (truthy (lookup_field k fs)) eqn:?; cbn; try reflexivity
          end).
Qed.

Lemma getButtonType_returns (button : value) :
  getButtonType button = Returns (classify_by truthy button).
Proof.
  destruct button as [ | | b | n | | s | fs | items ]; try reflexivity.
  - destruct b; reflexivity.
  - unfold getButtonType; cbn. destruct (n =? 0); reflexivity.
  - unfold getButtonType; cbn. destruct (String.eqb s ""); reflexivity.
  - apply getButtonType_object.
Qed.

(** C5 (as the code has it).  [getButtonType] returns on every input, and
    its result is the one of the ordered rule table read with truthiness
    tests: [quick_reply] for anything that is not an object; the [type]
    field verbatim when it is truthy; otherwise the tag of the first truthy
    field in the order url, copyText, phoneNumber, catalogLink,
    reminderText, reminderId, addressId, options; [quick_reply] when there
    is none.  In particular an object without a truthy [type] whose [url]
    is truthy is [cta_url], whatever its [phoneNumber]. *)
Theorem getButtonType_truthy_table :
  (forall button : value,
      getButtonType button = Returns (classify_by truthy button)) /\
  (forall fs : list (string * value),
      truthy (lookup_field "type" fs) = false ->
      truthy (lookup_field "url" fs) = true ->
      getButtonType (VObj fs) = Returns (VStr "cta_url")).
Proof.
  split.
  - apply getButtonType_returns.
  - intros fs Htype Hurl.
    rewrite getButtonType_object.
    unfold classify_by; cbn. rewrite Htype. cbn. rewrite Hurl. reflexivity.
Qed.

Lemma getButtonType_truthy_table_witness :
  getButtonType (VObj [("url", VStr "https://example.com");
                       ("phoneNumber", VStr "+1234567890")])
  = Returns (VStr "cta_url").
Proof.
  apply (proj2 getButtonType_truthy_table); reflexivity.
Defined.

(** C5 fails as stated: an object whose [url] is the empty string carries
    both [url] and [phoneNumber]; the presence table classifies it as
    [cta_url], the code as [cta_call]. *)
Lemma getButtonType_reference_differs :
  let button := VObj [("id", VStr "a"); ("title", VStr "A"); ("url", VStr "");
                      ("phoneNumber", VStr "+1234567890")] in
  getButtonType_reference button = VStr "cta_url" /\
  getButtonType button = Returns (VStr "cta_call") /\
  getButtonType button <> Returns (getButtonType_reference button).
Proof.
  cbn. repeat split; try reflexivity. discriminate.
Qed.

End Classifier.

(** ** Properties of the validator *)

Section Validator.

(** *** Paths *)

Lemma all_digits_uint (d : Decimal.uint) :
  all_digits (NilEmpty.string_of_uint d).
Proof.
  unfold all_digits.
  induction d; cbn; constructor; auto.
Qed.

Lemma all_digits_string_of_nat (n : nat) : all_digits (string_of_nat n).
Proof.
  unfold string_of_nat, NilZero.string_of_uint.
  destruct (Nat.to_uint n) eqn:E; try apply all_digits_uint.
  repeat constructor.
Qed.

Lemma string_of_nat_inj (i j : nat) :
  string_of_nat i = string_of_nat j -> i = j.
Proof.
  unfold string_of_nat. intros H.
  apply DecimalNat.Unsigned.to_uint_inj.
  assert (Hn : forall n, Nat.to_uint n <> Decimal.Nil).
  { intros n Hnil. pose proof (DecimalNat.Unsigned.of_to n) as Hof.
    pose proof (DecimalNat.Unsigned.to_of (Nat.to_uint n)) as Hto.
    rewrite Hof in Hto. rewrite Hnil in Hto at 2. cbn in Hto.
    rewrite Hto in Hnil. discriminate Hnil. }
  pose proof (NilZero.usu _ (Hn i)) as Hi.
  pose proof (NilZero.usu _ (Hn j)) as Hj.
  rewrite H in Hi. rewrite Hi in Hj. congruence.
Qed.

(** Two texts that start with digits and go on with a bracket split at the
    same place. *)
Lemma digits_then_bracket (s1 s2 t1 t2 : string) :
  all_digits s1 -> all_digits s2 ->
  s1 +:+ String "]" t1 = s2 +:+ String "]" t2 -> s1 = s2 /\ t1 = t2.
Proof.
  revert s2. unfold all_digits.
  induction s1 as [ | c1 s1 IH ]; intros [ | c2 s2 ] H1 H2 E; cbn in *.
  - injection E as ->. auto.
  - injection E as <- _. inversion H2 as [ | ? ? Hc _ ]. discriminate Hc.
  - injection E as -> _. inversion H1 as [ | ? ? Hc _ ]. discriminate Hc.
  - injection E as -> E. inversion H1; inversion H2; subst.
    destruct (IH s2) as [-> ->]; auto.
Qed.

Lemma button_path_inj (i j : nat) (f g : string) :
  button_path i f = button_path j g -> i = j /\ f = g.
Proof.
  unfold button_path. cbn. intros E.
  injection E as E.
  apply digits_then_bracket in E; try apply all_digits_string_of_nat.
  destruct E as [Ei Ef]. injection Ef as ->.
  split; [ apply string_of_nat_inj; exact Ei | reflexivity ].
Qed.

(** *** The code's checks and the rules *)

Lemma isValidButtonId_rule (v : value) : isValidButtonId v = Spec.id_rule v.
Proof. destruct v; reflexivity. Qed.

Lemma nonempty_string_check (v : value) :
  negb (truthy v) || negb (is_string v) = negb (Spec.nonempty_string v).
Proof.
  destruct v as [ | | b | n | | s | fs | items ]; cbn;
    rewrite ?orb_true_r, ?orb_false_r; try reflexivity.
Qed.

(** A falsy value is a primitive: it has a text, and the text does not
    match the pattern. *)
Lemma falsy_no_match (v : value) :
  truthy v = false ->
  exists text : string,
    to_string v = Returns text /\ Regex.matches phone_pattern text = false.
Proof.
  destruct v as [ | | b | n | | s | fs | items ]; cbn [truthy];
    intros H; try discriminate H.
  - eexists. split; reflexivity.
  - eexists. split; reflexivity.
  - subst b. eexists. split; reflexivity.
  - apply negb_false_iff, Z.eqb_eq in H. subst n. eexists. split; reflexivity.
  - eexists. split; reflexivity.
  - apply negb_false_iff, String.eqb_eq in H. subst s.
    eexists. split; reflexivity.
Qed.

Lemma phone_check (v : value) :
  convertible v = true ->
  (if negb (truthy v) then Returns true
   else matched ← Regex.test phone_pattern v; Returns (negb matched))
  = Returns (negb (Spec.phone_rule v)).
Proof.
  unfold convertible, Spec.phone_rule, Regex.test. intros Hc.
  destruct (truthy v) eqn:Ht; cbn [negb].
  - destruct (to_string v); [ reflexivity | discriminate Hc ].
  - destruct (falsy_no_match v Ht) as (text & -> & ->). reflexivity.
Qed.

Lemma phone_check_throws (v : value) :
  convertible v = false ->
  (if negb (truthy v) then Returns true
   else matched ← Regex.test phone_pattern v; Returns (negb matched))
  = Throws TypeError.
Proof.
  unfold convertible, Regex.test. intros Hc.
  destruct (truthy v) eqn:Ht; cbn [negb].
  - destruct (to_string v) as [ text | [] ]; [ discriminate Hc | reflexivity ].
  - destruct (falsy_no_match v Ht) as (text & E & _).
    rewrite E in Hc. discriminate Hc.
Qed.

Lemma strict_eq_str_iff (v : value) (lit : string) :
  strict_eq_str v lit = true <-> v = VStr lit.
Proof.
  destruct v; cbn; try (split; [ discriminate | discriminate ]).
  rewrite String.eqb_eq. split; [ intros ->; reflexivity | ].
  intros E. injection E as ->. reflexivity.
Qed.

Lemma classified_eq (b : value) (tag : string) :
  classified b tag = strict_eq_str (classify_by truthy b) tag.
Proof. unfold classified. rewrite getButtonType_returns. reflexivity. Qed.

Lemma checkable_inv (b : value) :
  checkable b = true ->
  nullish b = false /\
  (strict_eq_str (classify_by truthy b) "cta_call" = false \/
   convertible (field b "phoneNumber") = true).
Proof.
  unfold checkable.
  rewrite classified_eq, andb_true_iff, orb_true_iff, !negb_true_iff. tauto.
Qed.

Lemma checkable_readable (b : value) : checkable b = true -> nullish b = false.
Proof. intros H. apply checkable_inv in H. tauto. Qed.

(** *** The validator returns on buttons that can be checked *)

Lemma validate_button_closed (b : value) (i : nat)
    (errs : list ValidationError.t) :
  checkable b = true ->
  validate_button b i errs = Returns (errs ++ rule_errors b i).
Proof.
  intros Hb. destruct (checkable_inv b Hb) as [Hn Hcases].
  unfold validate_button, rule_errors, field_error.
  rewrite !classified_eq, !(get_field b) by exact Hn.
  rewrite getButtonType_returns.
  unfold mbind, completion_bind, push.
  rewrite isValidButtonId_rule, !nonempty_string_check.
  destruct (strict_eq_str (classify_by truthy b) "cta_url");
    [ | destruct (strict_eq_str (classify_by truthy b) "cta_call") eqn:Ecall;
        [ destruct Hcases as [Hcall | Hp]; [ congruence | ];
          apply phone_check in Hp; unfold mbind, completion_bind in Hp;
          rewrite Hp; cbv beta iota
        | destruct (strict_eq_str (classify_by truthy b) "cta_copy") ] ];
    repeat match goal with
           | |- context [Spec.id_rule ?v] => destruct (Spec.id_rule v)
           | |- context [Spec.nonempty_string ?v] =>
               destruct (Spec.nonempty_string v)
           | |- context [Spec.phone_rule ?v] => destruct (Spec.phone_rule v)
           end;
    cbn [negb app]; rewrite <- ?app_assoc; cbn [app]; rewrite ?app_nil_r;
    reflexivity.
Qed.

Lemma button_errors_closed (b : value) (i : nat) :
  checkable b = true -> button_errors b i = rule_errors b i.
Proof.
  intros Hb. unfold button_errors.
  rewrite validate_button_closed by exact Hb. reflexivity.
Qed.

Lemma validate_button_push (b : value) (i : nat)
    (errs : list ValidationError.t) :
  checkable b = true ->
  validate_button b i errs = Returns (errs ++ button_errors b i).
Proof.
  intros Hb.
  rewrite validate_button_closed, button_errors_closed by exact Hb.
  reflexivity.
Qed.

(** The callback throws on a button that it cannot check. *)
Lemma validate_button_throws (b : value) (i : nat)
    (errs : list ValidationError.t) :
  checkable b = false -> validate_button b i errs = Throws TypeError.
Proof.
  unfold checkable. rewrite classified_eq. intros Hb.
  destruct (nullish b) eqn:Hn.
  { destruct b; try discriminate Hn; reflexivity. }
  cbn [negb andb] in Hb. apply orb_false_iff in Hb. destruct Hb as [Hcall Hp].
  apply negb_false_iff, strict_eq_str_iff in Hcall.
  apply phone_check_throws in Hp. unfold mbind, completion_bind in Hp.
  unfold validate_button.
  rewrite !(get_field b) by exact Hn.
  rewrite getButtonType_returns.
  unfold mbind, completion_bind. rewrite Hcall.
  cbn [strict_eq_str String.eqb Ascii.eqb Bool.eqb]. rewrite Hp. reflexivity.
Qed.

Lemma forEach_from_validate (bs : list value) (i : nat)
    (errs : list ValidationError.t) :
  Forall (fun b => checkable b = true) bs ->
  forEach_from validate_button i bs errs = Returns (errs ++ errors_from i bs).
Proof.
  intros H. revert i errs.
  induction H as [ | b bs Hb _ IH ]; intros i errs; cbn.
  - rewrite app_nil_r. reflexivity.
  - rewrite validate_button_push by exact Hb.
    unfold mbind, completion_bind. rewrite IH, app_assoc. reflexivity.
Qed.

Lemma validateInteractiveMessage_returns (config : value) (bs : list value) :
  nullish config = false ->
  Forall (fun b => checkable b = true) bs ->
  exists pre : list ValidationError.t,
    Forall (fun e => ValidationError.path e = "body" \/
                     ValidationError.path e = "buttons") pre /\
    validateInteractiveMessage config (VArr bs) =
      Returns {| isValid := (List.length (pre ++ errors_from 0 bs) =? 0)%nat;
                 errors := pre ++ errors_from 0 bs;
                 warnings := [] |}.
Proof.
  intros Hc Hbs. unfold validateInteractiveMessage, forEach.
  rewrite (get_field config) by exact Hc.
  unfold mbind at 1, completion_bind at 1.
  rewrite forEach_from_validate by exact Hbs.
  unfold mbind, completion_bind, push.
  repeat match goal with
         | |- context [if ?c then _ else _] => destruct c
         end;
    (eexists; split; [ | reflexivity ]);
    cbn [app];
    repeat (apply Forall_cons_2; [ cbn; auto | ]); apply Forall_nil_2.
Qed.

(** *** How many errors a button gets *)

Lemma rule_errors_count (b : value) (i : nat) :
  List.length (rule_errors b i) = Spec.rule_violations b.
Proof.
  unfold rule_errors, Spec.rule_violations, Spec.type_rule.
  rewrite !classified_eq, getButtonType_returns, !List.length_app.
  destruct (classify_by truthy b) as [ | | ? | ? | | tag | ? | ? ]; cbn;
    try (destruct (Spec.id_rule (field b "id")),
           (Spec.nonempty_string (field b "title")); reflexivity).
  destruct (String.eqb tag "cta_url") eqn:E1;
    [ | destruct (String.eqb tag "cta_call") eqn:E2;
        [ | destruct (String.eqb tag "cta_copy") eqn:E3 ] ];
    cbn;
    destruct (Spec.id_rule (field b "id")),
      (Spec.nonempty_string (field b "title"));
    repeat match goal with
           | |- context [Spec.nonempty_string ?v] =>
               destruct (Spec.nonempty_string v)
           | |- context [Spec.phone_rule ?v] => destruct (Spec.phone_rule v)
           end; reflexivity.
Qed.

Lemma button_errors_count (b : value) (i : nat) :
  checkable b = true ->
  List.length (button_errors b i) = Spec.rule_violations b.
Proof.
  intros Hb. rewrite button_errors_closed by exact Hb.
  apply rule_errors_count.
Qed.

(** *** Which button an error belongs to *)

Lemma rule_errors_paths (b : value) (i : nat) :
  Forall (fun e => exists f, ValidationError.path e = button_path i f)
    (rule_errors b i).
Proof.
  unfold rule_errors, field_error.
  repeat match goal with
         | |- context [if ?c then _ else _] => destruct c
         end;
    cbn [app];
    repeat (apply Forall_cons_2; [ eexists; reflexivity | ]);
    apply Forall_nil_2.
Qed.

Lemma button_errors_paths (b : value) (i : nat) :
  Forall (fun e => exists f, ValidationError.path e = button_path i f)
    (button_errors b i).
Proof.
  destruct (checkable b) eqn:Hb.
  - rewrite button_errors_closed by exact Hb. apply rule_errors_paths.
  - unfold button_errors. rewrite validate_button_throws by exact Hb.
    apply Forall_nil_2.
Qed.

Lemma paths_silent (es : list ValidationError.t) (i j : nat) (f : string) :
  i <> j ->
  Forall (fun e => exists g, ValidationError.path e = button_path j g) es ->
  existsb (fun e => String.eqb (ValidationError.path e) (button_path i f)) es
  = false.
Proof.
  intros Hij H. induction H as [ | e es [g Hg] _ IH ]; cbn; [ reflexivity | ].
  rewrite IH, orb_false_r. apply String.eqb_neq. rewrite Hg.
  intros E. apply button_path_inj in E. destruct E as [E _]. auto.
Qed.

Lemma errors_from_silent (bs : list value) (k i : nat) (f : string) :
  (i < k)%nat ->
  existsb (fun e => String.eqb (ValidationError.path e) (button_path i f))
    (errors_from k bs) = false.
Proof.
  revert k.
  induction bs as [ | b bs IH ]; intros k Hik; cbn; [ reflexivity | ].
  rewrite existsb_app, IH by lia.
  rewrite (paths_silent _ i k) by (try lia; apply button_errors_paths).
  reflexivity.
Qed.

Lemma errors_from_at (bs : list value) (k i : nat) (b : value) (f : string) :
  bs !! i = Some b ->
  existsb (fun e => String.eqb (ValidationError.path e) (button_path (k + i) f))
    (errors_from k bs)
  = existsb (fun e => String.eqb (ValidationError.path e) (button_path (k + i) f))
      (button_errors b (k + i)).
Proof.
  revert k i.
  induction bs as [ | b0 bs IH ]; intros k i Hi; [ discriminate Hi | ].
  cbn [errors_from]. rewrite existsb_app.
  destruct i as [ | i ]; cbn in Hi.
  - injection Hi as ->. rewrite Nat.add_0_r.
    rewrite errors_from_silent by lia.
    apply orb_false_r.
  - rewrite (paths_silent _ (k + S i) k)
      by (try lia; apply button_errors_paths).
    replace (k + S i)%nat with (S k + i)%nat by lia.
    apply IH, Hi.
Qed.

Lemma lookup_checkable (bs : list value) (i : nat) (b : value) :
  Forall (fun b => checkable b = true) bs -> bs !! i = Some b ->
  checkable b = true.
Proof.
  intros Hbs Hi.
  eapply (proj1 (Forall_forall _ bs) Hbs), list_elem_of_lookup_2, Hi.
Qed.

Lemma call_button_errors (b : value) (i : nat) :
  checkable b = true ->
  getButtonType b = Returns (VStr "cta_call") ->
  existsb
    (fun e => String.eqb (ValidationError.path e) (button_path i "phoneNumber"))
    (button_errors b i)
  = negb (Spec.phone_rule (field b "phoneNumber")).
Proof.
  intros Hb Ht. rewrite button_errors_closed by exact Hb.
  unfold rule_errors, field_error. rewrite !classified_eq.
  rewrite getButtonType_returns in Ht. injection Ht as Ht. rewrite Ht.
  cbn [strict_eq_str String.eqb Ascii.eqb Bool.eqb].
  assert (Hid : String.eqb (button_path i "id") (button_path i "phoneNumber") = false).
  { apply String.eqb_neq. intros E. apply button_path_inj in E.
    destruct E as [_ E]. discriminate E. }
  assert (Htitle : String.eqb (button_path i "title") (button_path i "phoneNumber") = false).
  { apply String.eqb_neq. intros E. apply button_path_inj in E.
    destruct E as [_ E]. discriminate E. }
  destruct (Spec.id_rule (field b "id")),
    (Spec.nonempty_string (field b "title")),
    (Spec.phone_rule (field b "phoneNumber"));
    cbn [negb app existsb ValidationError.path];
    rewrite ?Hid, ?Htitle, ?String.eqb_refl; reflexivity.
Qed.

(** *** The result in closed form *)

Lemma validateInteractiveMessage_exact (config : value) (bs : list value) :
  nullish config = false ->
  Forall (fun b => checkable b = true) bs ->
  validateInteractiveMessage config (VArr bs) =
  Returns
    (let es :=
       ((if Spec.nonempty_string (field config "body") then []
         else [ body_error (field config "body") ])
        ++ (if bs is [] then [ buttons_error (VArr bs) ] else []))
       ++ errors_from 0 bs in
     {| isValid := (List.length es =? 0)%nat; errors := es; warnings := [] |}).
Proof.
  intros Hc Hbs. unfold validateInteractiveMessage, forEach.
  rewrite (get_field config) by exact Hc.
  unfold mbind at 1, completion_bind at 1.
  rewrite forEach_from_validate by exact Hbs.
  unfold mbind, completion_bind, push, body_error, buttons_error.
  rewrite nonempty_string_check.
  destruct (Spec.nonempty_string (field config "body")), bs; reflexivity.
Qed.

Lemma errors_from_length (bs : list value) (i : nat) :
  Forall (fun b => checkable b = true) bs ->
  List.length (errors_from i bs) = sum_list (List.map Spec.rule_violations bs).
Proof.
  intros H. revert i.
  induction H as [ | b bs Hb _ IH ]; intros i; cbn; [ reflexivity | ].
  rewrite List.length_app, button_errors_count, IH by exact Hb. reflexivity.
Qed.

Lemma sum_list_map_zero {A : Type} (f : A -> nat) (l : list A) :
  sum_list (List.map f l) = 0%nat <-> Forall (fun x => f x = 0%nat) l.
Proof.
  induction l as [ | x l IH ]; cbn.
  - split; [ constructor | reflexivity ].
  - rewrite Forall_cons, <- IH. lia.
Qed.

Lemma button_path_eqb (i : nat) (g f : string) :
  String.eqb (button_path i g) (button_path i f) = String.eqb g f.
Proof.
  destruct (String.eqb_spec g f) as [-> | Hne].
  - apply String.eqb_refl.
  - apply String.eqb_neq. intros E. apply button_path_inj in E.
    destruct E as [_ E]. auto.
Qed.

Lemma reported_at_button (config : value) (bs : list value) (i : nat)
    (b : value) (f : string) :
  nullish config = false ->
  Forall (fun b => checkable b = true) bs ->
  bs !! i = Some b ->
  exists r : ValidationResult,
    validateInteractiveMessage config (VArr bs) = Returns r /\
    reported_at r (button_path i f) =
    existsb (fun e => String.eqb (ValidationError.path e) (button_path i f))
      (button_errors b i).
Proof.
  intros Hc Hbs Hi. rewrite validateInteractiveMessage_exact by assumption.
  eexists. split; [ reflexivity | ].
  unfold reported_at. cbn [errors]. rewrite !existsb_app.
  pose proof (errors_from_at bs 0 i b f Hi) as Hat.
  cbn [Nat.add] in Hat. rewrite Hat.
  destruct (Spec.nonempty_string (field config "body")), bs; reflexivity.
Qed.

Lemma existsb_eqb_In (k : string) (l : list string) :
  existsb (String.eqb k) l = true <-> In k l.
Proof.
  rewrite List.existsb_exists. split.
  - intros (x & Hx & E). apply String.eqb_eq in E. subst x. exact Hx.
  - intros H. exists k. split; [ exact H | apply String.eqb_refl ].
Qed.

(** The paths of the errors of a button are those of the fields whose rule
    it violates. *)
Lemma rule_errors_fields (b : value) (i : nat) :
  List.map ValidationError.path (rule_errors b i)
  = List.map (button_path i) (Spec.violated_fields b).
Proof.
  unfold rule_errors, field_error, Spec.violated_fields, Spec.type_rule,
    Spec.type_field.
  rewrite !classified_eq, getButtonType_returns.
  destruct (Spec.id_rule (field b "id")),
    (Spec.nonempty_string (field b "title"));
    (destruct (classify_by truthy b) as [ | | ? | ? | | tag | ? | ? ];
     cbn; try reflexivity;
     destruct (String.eqb tag "cta_url") eqn:E1;
       [ | destruct (String.eqb tag "cta_call") eqn:E2;
           [ | destruct (String.eqb tag "cta_copy") eqn:E3 ] ];
     cbn;
     repeat match goal with
            | |- context [Spec.nonempty_string ?v] =>
                destruct (Spec.nonempty_string v)
            | |- context [Spec.phone_rule ?v] => destruct (Spec.phone_rule v)
            end; reflexivity).
Qed.

Lemma reported_field (config : value) (bs : list value) (i : nat)
    (b : value) (f : string) :
  nullish config = false ->
  Forall (fun b => checkable b = true) bs ->
  bs !! i = Some b ->
  exists r : ValidationResult,
    validateInteractiveMessage config (VArr bs) = Returns r /\
    (reported_at r (button_path i f) = true <-> In f (Spec.violated_fields b)).
Proof.
  intros Hc Hbs Hi.
  destruct (reported_at_button config bs i b f Hc Hbs Hi) as (r & Hr & Hf).
  exists r. split; [ exact Hr | ]. rewrite Hf.
  rewrite button_errors_closed by (eapply lookup_checkable; eassumption).
  rewrite <- existsb_eqb_In.
  assert (E : forall es : list ValidationError.t,
             existsb (fun e => String.eqb (ValidationError.path e)
                                 (button_path i f)) es
             = existsb (fun p => String.eqb p (button_path i f))
                 (List.map ValidationError.path es)).
  { induction es as [ | e es IH ]; cbn; [ reflexivity | ].
    rewrite IH. reflexivity. }
  rewrite E, rule_errors_fields.
  induction (Spec.violated_fields b) as [ | g fs IH ]; cbn; [ tauto | ].
  rewrite button_path_eqb, (String.eqb_sym f g), !orb_true_iff, IH. tauto.
Qed.

(** *** Claims on the validator *)

(** C1 (what the code does).  When [buttons] is not an array, the
    validator does not return a result: after it has recorded the error at
    path [buttons], the call [buttons.forEach] throws a [TypeError].  This
    holds for every config, and in particular for [null] and [undefined]
    buttons. *)
Theorem validateInteractiveMessage_throws_without_array
    (config buttons : value) :
  isArray buttons = false ->
  validateInteractiveMessage config buttons = Throws TypeError.
Proof.
  intros Hb. unfold validateInteractiveMessage.
  destruct config; cbn; try reflexivity;
    destruct buttons; try discriminate Hb; reflexivity.
Qed.

Lemma validateInteractiveMessage_throws_without_array_witness :
  validateInteractiveMessage (VObj [ ("body", VStr "Hello") ]) VNull
  = Throws TypeError.
Proof.
  apply validateInteractiveMessage_throws_without_array. reflexivity.
Defined.

(** C2 (as the code has it).  For a button classified [cta_call], at any
    index of a list of buttons that the validator can check, the phone
    number has a text, the one that [RegExp.prototype.test] converts it to,
    and the validator reports an error at [buttons[i].phoneNumber] exactly
    when that text does not match the pattern [^\+?[1-9]\d{1,14}$].  The
    numbers [+1234567890], [+18005550123] and [123] match and produce no
    such error; [abc] and [invalid-phone] do not match and produce one. *)
Theorem phone_error_iff_pattern_fails :
  (forall (config : value) (bs : list value) (i : nat) (b : value),
      nullish config = false ->
      Forall (fun b => checkable b = true) bs ->
      bs !! i = Some b ->
      getButtonType b = Returns (VStr "cta_call") ->
      exists (r : ValidationResult) (text : string),
        validateInteractiveMessage config (VArr bs) = Returns r /\
        to_string (field b "phoneNumber") = Returns text /\
        (reported_at r (button_path i "phoneNumber") = true <->
         Regex.matches phone_pattern text = false))
  /\ phone_error_reported (VStr "+1234567890") = Some false
  /\ phone_error_reported (VStr "+18005550123") = Some false
  /\ phone_error_reported (VStr "123") = Some false
  /\ phone_error_reported (VStr "abc") = Some true
  /\ phone_error_reported (VStr "invalid-phone") = Some true.
Proof.
  split; [ | repeat split; vm_compute; reflexivity ].
  intros config bs i b Hc Hbs Hi Ht.
  assert (Hb : checkable b = true) by (eapply lookup_checkable; eassumption).
  destruct (checkable_inv b Hb) as [_ [Hcall | Hp]].
  { rewrite getButtonType_returns in Ht. injection Ht as Ht.
    rewrite Ht in Hcall. discriminate Hcall. }
  unfold convertible in Hp.
  destruct (to_string (field b "phoneNumber")) as [ text | ] eqn:Htext;
    [ | discriminate Hp ].
  destruct (validateInteractiveMessage_returns config bs Hc Hbs)
    as (pre & Hpre & Hr).
  eexists. exists text. split; [ exact Hr | ]. split; [ reflexivity | ].
  unfold reported_at. cbn [errors]. rewrite existsb_app.
  assert (Hsil :
    existsb (fun e => String.eqb (ValidationError.path e)
                        (button_path i "phoneNumber")) pre = false).
  { clear Hr. induction Hpre as [ | e pre He _ IH ]; cbn; [ reflexivity | ].
    rewrite IH, orb_false_r. destruct He as [-> | ->]; reflexivity. }
  rewrite Hsil, orb_false_l.
  pose proof (errors_from_at bs 0 i b "phoneNumber" Hi) as Hat.
  cbn [Nat.add] in Hat. rewrite Hat.
  rewrite call_button_errors by assumption.
  unfold Spec.phone_rule. rewrite Htext. apply negb_true_iff.
Qed.

Lemma phone_error_iff_pattern_fails_witness :
  exists (r : ValidationResult) (text : string),
    validateInteractiveMessage (VObj [ ("body", VStr "Need help?") ])
      (VArr [ VObj [ ("id", VStr "ok"); ("title", VStr "OK") ];
              call_button (VStr "invalid-phone") ]) = Returns r /\
    to_string (VStr "invalid-phone") = Returns text /\
    (reported_at r (button_path 1 "phoneNumber") = true <->
     Regex.matches phone_pattern text = false).
Proof.
  apply (proj1 phone_error_iff_pattern_fails
           (VObj [ ("body", VStr "Need help?") ])
           [ VObj [ ("id", VStr "ok"); ("title", VStr "OK") ];
             call_button (VStr "invalid-phone") ]
           1%nat (call_button (VStr "invalid-phone")));
    [ reflexivity
    | repeat (apply Forall_cons_2; [ reflexivity | ]); apply Forall_nil_2
    | reflexivity
    | reflexivity ].
Defined.

(** C2 fails as stated: [123] matches the pattern (a digit from 1 to 9
    followed by two digits), so the validator accepts a call button with
    that number and reports no error for it. *)
Lemma phone_123_is_accepted :
  Regex.matches phone_pattern "123" = true /\
  validate_call (VStr "123")
  = Returns {| isValid := true; errors := []; warnings := [] |} /\
  phone_error_reported (VStr "123") <> Some true.
Proof.
  repeat split; try (vm_compute; reflexivity). vm_compute. discriminate.
Qed.

(** C6.  For every config that can be read and every list of buttons that
    the validator can check, valid or not, the validator returns a result
    in which every violated rule of every button is reported at the path
    of that button and of the rule's field, and nothing else is reported
    under that button: an error lies at [buttons[i].f] exactly when the
    button at index [i] violates the rule of field [f].  The number of
    errors is one for a body that is not a non-empty string, one for an
    empty list and one per violated rule, so that a list of [n] buttons
    each of which violates exactly one rule yields at least [n] errors.
    [isValid] is true exactly when the list of errors is empty, which is
    the case exactly when the body is a non-empty string, there is a
    button and no button violates a rule. *)
Theorem validate_reports_every_invalid_button
    (config : value) (bs : list value) :
  nullish config = false ->
  Forall (fun b => checkable b = true) bs ->
  exists r : ValidationResult,
    validateInteractiveMessage config (VArr bs) = Returns r /\
    (forall (i : nat) (b : value) (f : string),
        bs !! i = Some b ->
        (reported_at r (button_path i f) = true <->
         In f (Spec.violated_fields b))) /\
    List.length (errors r) =
      (Spec.violated (Spec.nonempty_string (field config "body"))
       + (if bs is [] then 1 else 0)
       + sum_list (List.map Spec.rule_violations bs))%nat /\
    (Forall (fun b => Spec.rule_violations b = 1%nat) bs ->
     (List.length bs <= List.length (errors r))%nat) /\
    (isValid r = true <-> errors r = []) /\
    (errors r = [] <->
     Spec.nonempty_string (field config "body") = true /\
     bs <> [] /\
     Forall (fun b => Spec.rule_violations b = 0%nat) bs).
Proof.
  intros Hc Hbs.
  pose proof (validateInteractiveMessage_exact config bs Hc Hbs) as Hr.
  eexists. split; [ exact Hr | ].
  assert (Hlen :
    List.length
      (((if Spec.nonempty_string (field config "body") then []
         else [ body_error (field config "body") ])
        ++ (if bs is [] then [ buttons_error (VArr bs) ] else []))
       ++ errors_from 0 bs)
    = (Spec.violated (Spec.nonempty_string (field config "body"))
       + (if bs is [] then 1 else 0)
       + sum_list (List.map Spec.rule_violations bs))%nat).
  { rewrite !List.length_app, errors_from_length by exact Hbs.
    destruct (Spec.nonempty_string (field config "body")), bs; reflexivity. }
  cbn [errors isValid].
  split; [ | split; [ exact Hlen | split; [ | split ] ] ].
  - intros i b f Hi.
    destruct (reported_field config bs i b f Hc Hbs Hi) as (r & Hr' & Hf).
    rewrite Hr in Hr'. injection Hr' as <-. exact Hf.
  - intros H1. rewrite Hlen.
    assert (Hsum : sum_list (List.map Spec.rule_violations bs)
                   = List.length bs).
    { clear Hr Hlen Hbs. induction H1 as [ | b bs H1 _ IH ]; cbn;
        [ reflexivity | ]. rewrite H1, IH. reflexivity. }
    lia.
  - rewrite Nat.eqb_eq. apply List.length_zero_iff_nil.
  - rewrite <- List.length_zero_iff_nil, Hlen, <- sum_list_map_zero.
    destruct (Spec.nonempty_string (field config "body")), bs; cbn;
      split; try lia; try (intros (H1 & H2 & H3); congruence).
    intros H. repeat split; try lia. discriminate.
Qed.

Lemma validate_reports_every_invalid_button_witness :
  exists r : ValidationResult,
    validateInteractiveMessage (VObj [ ("body", VStr "Pick one") ])
      (VArr [ VObj [ ("id", VStr ""); ("title", VStr "No id") ];
              VObj [ ("id", VStr "b"); ("title", VStr "") ];
              VObj [ ("id", VStr "c"); ("title", VStr "Site");
                     ("type", VStr "cta_url") ];
              call_button (VStr "abc") ]) = Returns r /\
    (forall (i : nat) (b : value) (f : string),
        [ VObj [ ("id", VStr ""); ("title", VStr "No id") ];
          VObj [ ("id", VStr "b"); ("title", VStr "") ];
          VObj [ ("id", VStr "c"); ("title", VStr "Site");
                 ("type", VStr "cta_url") ];
          call_button (VStr "abc") ] !! i = Some b ->
        (reported_at r (button_path i f) = true <->
         In f (Spec.violated_fields b))) /\
    List.length (errors r) = 4%nat /\
    (Forall (fun b => Spec.rule_violations b = 1%nat)
       [ VObj [ ("id", VStr ""); ("title", VStr "No id") ];
         VObj [ ("id", VStr "b"); ("title", VStr "") ];
         VObj [ ("id", VStr "c"); ("title", VStr "Site");
                ("type", VStr "cta_url") ];
         call_button (VStr "abc") ] ->
     (4 <= List.length (errors r))%nat) /\
    (isValid r = true <-> errors r = []) /\
    (errors r = [] <->
     Spec.nonempty_string (VStr "Pick one") = true /\
     [ VObj [ ("id", VStr ""); ("title", VStr "No id") ];
       VObj [ ("id", VStr "b"); ("title", VStr "") ];
       VObj [ ("id", VStr "c"); ("title", VStr "Site");
              ("type", VStr "cta_url") ];
       call_button (VStr "abc") ] <> [] /\
     Forall (fun b => Spec.rule_violations b = 0%nat)
       [ VObj [ ("id", VStr ""); ("title", VStr "No id") ];
         VObj [ ("id", VStr "b"); ("title", VStr "") ];
         VObj [ ("id", VStr "c"); ("title", VStr "Site");
                ("type", VStr "cta_url") ];
         call_button (VStr "abc") ]).
Proof.
  apply (validate_reports_every_invalid_button
           (VObj [ ("body", VStr "Pick one") ])
           [ VObj [ ("id", VStr ""); ("title", VStr "No id") ];
             VObj [ ("id", VStr "b"); ("title", VStr "") ];
             VObj [ ("id", VStr "c"); ("title", VStr "Site");
                    ("type", VStr "cta_url") ];
             call_button (VStr "abc") ]);
    [ reflexivity
    | repeat (apply Forall_cons_2; [ vm_compute; reflexivity | ]);
      apply Forall_nil_2 ].
Defined.

End Validator.

(** ** Properties of the normalizer *)

Section Normalizer.

Lemma truthy_not_nullish (v : value) : truthy v = true -> nullish v = false.
Proof. destruct v; cbn; intros H; try discriminate H; reflexivity. Qed.

Lemma classify_by_truthy (b : value) : truthy (classify_by truthy b) = true.
Proof.
  unfold classify_by, classifier_table.
  destruct (is_object b); [ | reflexivity ].
  destruct (truthy (field b "type")) eqn:E; [ exact E | ]. cbn.
  repeat match goal with
         | |- context [truthy (field b ?k)] =>
             destruct (truthy (field b k)); cbn; try reflexivity
         end.
Qed.

(** The callback never throws; its result is decided by the three shape
    tests, in order. *)
Lemma normalize_entry_cases (b : value) :
  normalize_entry b =
  Returns
    (if both_truthy b "name" "buttonParamsJson" then b
     else if both_truthy b "id" "title" then
       VObj [ ("name", classify_by truthy b);
              ("buttonParamsJson",
               JSON_stringify
                 (buttonParams (field b "id") (field b "title")
                    (field b "subtitle") (field b "disabled"))) ]
     else if both_truthy b "buttonId" "buttonText" then
       VObj [ ("name", classify_by truthy b);
              ("buttonParamsJson",
               JSON_stringify
                 (buttonParams (field b "buttonId")
                    (or_else (field (field b "buttonText") "displayText")
                       (field b "buttonText"))
                    (field b "subtitle") (field b "disabled"))) ]
     else b).
Proof.
  destruct (truthy b) eqn:Hb.
  - pose proof (truthy_not_nullish b Hb) as Hn.
    unfold normalize_entry, and_then, both_truthy. rewrite Hb.
    rewrite !(get_field b) by exact Hn.
    rewrite getButtonType_returns.
    unfold mbind, completion_bind, buttonParams.
    repeat match goal with
           | |- context [truthy (field b ?k)] =>
               let E := fresh "E" in
               destruct (truthy (field b k)) eqn:E; cbn [andb]
           end;
      try discriminate; try reflexivity;
      rewrite (get_field (field b "buttonText"))
        by (apply truthy_not_nullish; assumption);
      reflexivity.
  - assert (Hf : forall k, field b k = VUndefined)
      by (intros k; destruct b; try discriminate Hb; reflexivity).
    unfold normalize_entry, and_then, both_truthy.
    rewrite !Hf, Hb. cbn. rewrite Hb. cbn. rewrite ?Hb. reflexivity.
Qed.

Lemma normalize_entry_returns (b : value) :
  normalize_entry b = Returns (normalized b).
Proof. unfold normalized. rewrite normalize_entry_cases. reflexivity. Qed.

Lemma normalized_canonical (b : value) :
  both_truthy b "name" "buttonParamsJson" = true -> normalized b = b.
Proof.
  intros H. unfold normalized. rewrite normalize_entry_cases, H. reflexivity.
Qed.

Lemma normalized_idempotent (b : value) :
  normalized (normalized b) = normalized b.
Proof.
  assert (Hout : forall name json : value,
             truthy name = true -> truthy json = true ->
             normalized (VObj [ ("name", name); ("buttonParamsJson", json) ])
             = VObj [ ("name", name); ("buttonParamsJson", json) ]).
  { intros name json Hn Hj. apply normalized_canonical.
    unfold both_truthy. cbn. rewrite Hn, Hj. reflexivity. }
  assert (Hcases := normalize_entry_cases b).
  unfold normalized at 2 3. rewrite Hcases.
  destruct (both_truthy b "name" "buttonParamsJson") eqn:E1.
  { apply normalized_canonical, E1. }
  destruct (both_truthy b "id" "title") eqn:E2.
  { apply Hout; [ apply classify_by_truthy | reflexivity ]. }
  destruct (both_truthy b "buttonId" "buttonText") eqn:E3.
  { apply Hout; [ apply classify_by_truthy | reflexivity ]. }
  unfold normalized. rewrite Hcases. reflexivity.
Qed.

Lemma map_items_normalize (x : list value) :
  map_items normalize_entry x = Returns (List.map normalized x).
Proof.
  induction x as [ | b x IH ]; cbn; [ reflexivity | ].
  rewrite normalize_entry_returns, IH. reflexivity.
Qed.

Lemma buildInteractiveButtons_returns (x : list value) :
  buildInteractiveButtons (VArr x) = Returns (List.map normalized x).
Proof. apply map_items_normalize. Qed.

Lemma map_normalized_fixed (x : list value) :
  Forall (fun b => normalized b = b) x -> List.map normalized x = x.
Proof.
  induction 1 as [ | b x Hb _ IH ]; cbn; [ reflexivity | ].
  rewrite Hb, IH. reflexivity.
Qed.

(** *** Claims on the normalizer *)

(** C4 (as the code has it).  For every entry that does not pass the
    canonical test (its [name] and [buttonParamsJson] are not both truthy)
    and whose [id] and [title] are both truthy, normalization emits
    [{name: <classified type>, buttonParamsJson: JSON of {id, title,
    subtitle: subtitle || null, disabled: disabled || false}}]: a falsy
    subtitle, the empty string included, is serialized as [null], and a
    falsy [disabled] as [false]. *)
Theorem legacy_entry_emitted (b : value) :
  both_truthy b "name" "buttonParamsJson" = false ->
  both_truthy b "id" "title" = true ->
  exists name : value,
    getButtonType b = Returns name /\
    buildInteractiveButtons (VArr [b]) =
    Returns
      [ VObj [ ("name", name);
               ("buttonParamsJson",
                JSON_stringify
                  (VObj [ ("id", field b "id"); ("title", field b "title");
                          ("subtitle",
                           if truthy (field b "subtitle")
                           then field b "subtitle" else VNull);
                          ("disabled",
                           if truthy (field b "disabled")
                           then field b "disabled" else VBool false) ])) ] ].
Proof.
  intros H1 H2. exists (classify_by truthy b).
  split; [ apply getButtonType_returns | ].
  rewrite buildInteractiveButtons_returns. cbn [List.map].
  unfold normalized. rewrite normalize_entry_cases, H1, H2. reflexivity.
Qed.

Lemma legacy_entry_emitted_witness :
  exists name : value,
    getButtonType (VObj [ ("id", VStr "a"); ("title", VStr "A");
                          ("subtitle", VStr "") ]) = Returns name /\
    buildInteractiveButtons
      (VArr [ VObj [ ("id", VStr "a"); ("title", VStr "A");
                     ("subtitle", VStr "") ] ]) =
    Returns
      [ VObj [ ("name", name);
               ("buttonParamsJson",
                JSON_stringify
                  (VObj [ ("id", VStr "a"); ("title", VStr "A");
                          ("subtitle", VNull);
                          ("disabled", VBool false) ])) ] ].
Proof.
  apply (legacy_entry_emitted
           (VObj [ ("id", VStr "a"); ("title", VStr "A");
                   ("subtitle", VStr "") ])); reflexivity.
Defined.

(** C4 fails as stated: an entry whose subtitle is the empty string is
    serialized with [subtitle: null], not with the empty string that
    [subtitle ?? null] would keep. *)
Lemma empty_subtitle_is_serialized_as_null :
  let b := VObj [ ("id", VStr "a"); ("title", VStr "A");
                  ("subtitle", VStr "") ] in
  buildInteractiveButtons (VArr [b]) =
    Returns
      [ VObj [ ("name", VStr "quick_reply");
               ("buttonParamsJson",
                JSON_stringify
                  (VObj [ ("id", VStr "a"); ("title", VStr "A");
                          ("subtitle", VNull);
                          ("disabled", VBool false) ])) ] ] /\
  buildInteractiveButtons (VArr [b])
  <> Returns [ Spec.legacy_entry (VStr "quick_reply") b ].
Proof.
  split; [ reflexivity | vm_compute; discriminate ].
Qed.

(** C7 (as the code has it).  Normalization is idempotent on every list:
    [buildInteractiveButtons] returns, and normalizing its result returns
    the same list.  Every entry whose [name] and [buttonParamsJson] are
    both truthy is passed through unchanged, so a list of such entries is
    returned as it is. *)
Theorem buildInteractiveButtons_idempotent :
  (forall x : list value,
      exists y : list value,
        buildInteractiveButtons (VArr x) = Returns y /\
        buildInteractiveButtons (VArr y) = Returns y) /\
  (forall x : list value,
      Forall (fun b => both_truthy b "name" "buttonParamsJson" = true) x ->
      buildInteractiveButtons (VArr x) = Returns x).
Proof.
  split.
  - intros x. exists (List.map normalized x).
    rewrite !buildInteractiveButtons_returns. split; [ reflexivity | ].
    f_equal. apply map_normalized_fixed.
    apply Forall_forall. intros b Hb.
    apply list_elem_of_In, List.in_map_iff in Hb. destruct Hb as (b0 & <- & _).
    apply normalized_idempotent.
  - intros x Hx. rewrite buildInteractiveButtons_returns. f_equal.
    apply map_normalized_fixed.
    eapply Forall_impl; [ exact Hx | ]. intros b Hb.
    apply normalized_canonical, Hb.
Qed.

Lemma buildInteractiveButtons_idempotent_witness :
  buildInteractiveButtons
    (VArr [ VObj [ ("name", VStr "quick_reply");
                   ("buttonParamsJson", VStr "{}") ] ])
  = Returns [ VObj [ ("name", VStr "quick_reply");
                     ("buttonParamsJson", VStr "{}") ] ].
Proof.
  apply (proj2 buildInteractiveButtons_idempotent).
  apply Forall_cons_2; [ reflexivity | apply Forall_nil_2 ].
Defined.

(** C7 fails as stated: an entry that exposes both [name] and
    [buttonParamsJson], with the empty string as its [name], is not passed
    through; its [id] and [title] make the legacy rule rewrite it. *)
Lemma entry_with_empty_name_is_rewritten :
  let b := VObj [ ("name", VStr ""); ("buttonParamsJson", VStr "{}");
                  ("id", VStr "a"); ("title", VStr "A") ] in
  Spec.exposes b "name" = true /\
  Spec.exposes b "buttonParamsJson" = true /\
  buildInteractiveButtons (VArr [b]) =
    Returns
      [ VObj [ ("name", VStr "quick_reply");
               ("buttonParamsJson",
                JSON_stringify
                  (VObj [ ("id", VStr "a"); ("title", VStr "A");
                          ("subtitle", VNull);
                          ("disabled", VBool false) ])) ] ] /\
  buildInteractiveButtons (VArr [b]) <> Returns [b].
Proof.
  repeat split; try reflexivity. vm_compute. discriminate.
Qed.

(** C10 (as the code has it).  The shape tests are truthiness tests.  An
    entry whose [id] or [title] is falsy is not converted by the simple
    legacy rule: it is passed through unchanged when its [buttonId] or
    [buttonText] is falsy too, and it is converted by the old-Baileys rule
    when both are truthy and the entry is not canonical.  An entry whose
    [buttonId] or [buttonText] is falsy is not converted by the old-Baileys
    rule: it is passed through or converted by the simple legacy rule. *)
Theorem falsy_fields_disable_legacy_rules :
  (forall bs : list value,
      Forall (fun b => both_truthy b "id" "title" = false /\
                       both_truthy b "buttonId" "buttonText" = false) bs ->
      buildInteractiveButtons (VArr bs) = Returns bs) /\
  (forall b : value,
      both_truthy b "id" "title" = false ->
      both_truthy b "name" "buttonParamsJson" = false ->
      both_truthy b "buttonId" "buttonText" = true ->
      normalize_entry b =
      Returns
        (VObj [ ("name", classify_by truthy b);
                ("buttonParamsJson",
                 JSON_stringify
                   (buttonParams (field b "buttonId")
                      (or_else (field (field b "buttonText") "displayText")
                         (field b "buttonText"))
                      (field b "subtitle") (field b "disabled"))) ])) /\
  (forall b : value,
      both_truthy b "buttonId" "buttonText" = false ->
      normalize_entry b = Returns b \/
      (both_truthy b "id" "title" = true /\
       normalize_entry b =
       Returns
         (VObj [ ("name", classify_by truthy b);
                 ("buttonParamsJson",
                  JSON_stringify
                    (buttonParams (field b "id") (field b "title")
                       (field b "subtitle") (field b "disabled"))) ]))).
Proof.
  split; [ | split ].
  - intros bs H. rewrite buildInteractiveButtons_returns. f_equal.
    apply map_normalized_fixed.
    eapply Forall_impl; [ exact H | ]. intros b [H2 H3].
    unfold normalized. rewrite normalize_entry_cases, H2, H3.
    destruct (both_truthy b "name" "buttonParamsJson"); reflexivity.
  - intros b H2 H1 H3. rewrite normalize_entry_cases, H1, H2, H3. reflexivity.
  - intros b H3. rewrite normalize_entry_cases, H3.
    destruct (both_truthy b "name" "buttonParamsJson"); [ left; reflexivity | ].
    destruct (both_truthy b "id" "title");
      [ right; split; reflexivity | left; reflexivity ].
Qed.

Lemma falsy_fields_disable_legacy_rules_witness :
  buildInteractiveButtons
    (VArr [ VObj [ ("id", VStr ""); ("title", VStr "No id") ];
            VObj [ ("id", VStr "x"); ("title", VNum 0) ] ])
  = Returns [ VObj [ ("id", VStr ""); ("title", VStr "No id") ];
              VObj [ ("id", VStr "x"); ("title", VNum 0) ] ].
Proof.
  apply (proj1 falsy_fields_disable_legacy_rules).
  repeat (apply Forall_cons_2; [ split; reflexivity | ]). apply Forall_nil_2.
Defined.

(** C10 fails as stated: an entry whose [id] is the empty string and that
    also carries a truthy [buttonId] and [buttonText] is not passed
    through; the old-Baileys rule converts it. *)
Lemma empty_id_with_old_shape_is_converted :
  let b := VObj [ ("id", VStr ""); ("title", VStr "T");
                  ("buttonId", VStr "b1"); ("buttonText", VStr "Old") ] in
  truthy (field b "id") = false /\
  buildInteractiveButtons (VArr [b]) =
    Returns
      [ VObj [ ("name", VStr "quick_reply");
               ("buttonParamsJson",
                JSON_stringify
                  (VObj [ ("id", VStr "b1"); ("title", VStr "Old");
                          ("subtitle", VNull);
                          ("disabled", VBool false) ])) ] ] /\
  buildInteractiveButtons (VArr [b]) <> Returns [b].
Proof.
  repeat split; try reflexivity. vm_compute. discriminate.
Qed.

End Normalizer.

(** ** Properties of the assembler *)

Section Assembler.

Lemma map_items_project (bs : list value) :
  Forall (fun b => nullish b = false) bs ->
  exists entries : list value,
    map_items
      (fun button =>
         name ← button.["name"];
         buttonParamsJson ← button.["buttonParamsJson"];
         Returns (VObj [ ("name", name);
                         ("buttonParamsJson", buttonParamsJson) ])) bs
    = Returns entries.
Proof.
  induction 1 as [ | b bs Hb _ [entries IH] ]; cbn.
  - eexists; reflexivity.
  - rewrite !(get_field b) by exact Hb. cbn. rewrite IH. cbn.
    eexists; reflexivity.
Qed.

Lemma or_else_optional_string (v : value) :
  Spec.optional_string v = true ->
  or_else v (VStr "") = coalesce v (VStr "").
Proof.
  destruct v as [ | | b | n | | s | fs | items ]; cbn; intros H;
    try discriminate H; try reflexivity.
  unfold or_else. cbn. destruct (String.eqb s "") eqn:E; cbn;
    [ apply String.eqb_eq in E; subst s | ]; reflexivity.
Qed.

Lemma media_code_chain (mediaType : value) :
  (if strict_eq_str mediaType "image" then VNum 1
   else if strict_eq_str mediaType "video" then VNum 2 else VNum 3)
  = VNum (Spec.media_code mediaType).
Proof.
  destruct mediaType as [ | | b | n | | s | fs | items ]; try reflexivity.
  unfold Spec.media_code, Spec.media_codes, strict_eq_str. cbn [List.find fst snd].
  destruct (String.eqb s "image"); [ reflexivity | ].
  destruct (String.eqb s "video"); [ reflexivity | ].
  destruct (String.eqb s "document"); reflexivity.
Qed.

(** C3 (as the code has it).  For every config whose [headerText] is
    truthy and whose [headerMedia] is falsy, the envelope is assembled and
    its [messageParams.header] is [{type: config.headerType || 1, text:
    config.headerText}]: the type is [config.headerType] when that is
    truthy and 1 otherwise, so that a [headerType] of 0 gives type 1. *)
Theorem text_header_assembled (config : value) (bs : list value) :
  nullish config = false ->
  Forall (fun b => nullish b = false) bs ->
  truthy (field config "headerText") = true ->
  truthy (field config "headerMedia") = false ->
  exists envelope : value,
    buildMessageContent config (VArr bs) = Returns envelope /\
    header_of envelope =
    Returns
      (VObj [ ("type",
               if truthy (field config "headerType")
               then field config "headerType" else VNum 1);
              ("text", field config "headerText") ]).
Proof.
  intros Hc Hbs Ht Hm.
  destruct (map_items_project bs Hbs) as [entries He].
  unfold buildMessageContent, array_map. rewrite He.
  rewrite !(get_field config) by exact Hc.
  unfold mbind, completion_bind. rewrite Ht, Hm.
  destruct (truthy (field config "footer"));
    (eexists; split; [ reflexivity | reflexivity ]).
Qed.

Lemma text_header_assembled_witness :
  exists envelope : value,
    buildMessageContent
      (VObj [ ("body", VStr "b"); ("headerType", VNum 0);
              ("headerText", VStr "H") ]) (VArr []) = Returns envelope /\
    header_of envelope =
    Returns (VObj [ ("type", VNum 1); ("text", VStr "H") ]).
Proof.
  apply (text_header_assembled
           (VObj [ ("body", VStr "b"); ("headerType", VNum 0);
                   ("headerText", VStr "H") ]) []);
    [ reflexivity | apply Forall_nil_2 | reflexivity | reflexivity ].
Defined.

(** C3 fails as stated: with [headerType] 0 the header's type is 1, not
    the 0 that [config.headerType ?? 1] would keep. *)
Lemma header_type_zero_becomes_one :
  let config := VObj [ ("body", VStr "b"); ("headerType", VNum 0);
                       ("headerText", VStr "H") ] in
  Spec.text_header config = VObj [ ("type", VNum 0); ("text", VStr "H") ] /\
  assembled_header config (VArr []) =
    Returns (VObj [ ("type", VNum 1); ("text", VStr "H") ]) /\
  assembled_header config (VArr []) <> Returns (Spec.text_header config).
Proof.
  repeat split; try reflexivity. vm_compute. discriminate.
Qed.

(** C8.  For every config whose [headerMedia] is set (truthy, as any
    object is), with [headerText] and [mediaCaption] strings or absent, the
    envelope is assembled and its header is [{type: <mapped code>, text:
    config.headerText ?? "", media: {url: mediaUrl, caption: mediaCaption
    ?? ""}}], where the code is 1 for image, 2 for video, 3 for document
    and 3 for any other media type; this header replaces the plain text
    header.  For [{body: "b", headerText: "H", headerMedia: {mediaType:
    "video", mediaUrl: "u"}}] the type is 2 and the media field is
    there. *)
Theorem media_header_assembled (config : value) (bs : list value) :
  nullish config = false ->
  Forall (fun b => nullish b = false) bs ->
  truthy (field config "headerMedia") = true ->
  Spec.optional_string (field config "headerText") = true ->
  Spec.optional_string
    (field (field config "headerMedia") "mediaCaption") = true ->
  exists envelope : value,
    buildMessageContent config (VArr bs) = Returns envelope /\
    header_of envelope = Returns (Spec.media_header config).
Proof.
  intros Hc Hbs Hm Ht Hcap.
  destruct (map_items_project bs Hbs) as [entries He].
  unfold buildMessageContent, array_map. rewrite He.
  rewrite !(get_field config) by exact Hc.
  unfold mbind, completion_bind. rewrite Hm.
  rewrite !(get_field (field config "headerMedia"))
    by (apply truthy_not_nullish, Hm).
  cbv beta iota.
  rewrite media_code_chain, !or_else_optional_string by assumption.
  destruct (truthy (field config "footer")),
    (truthy (field config "headerText"));
    (eexists; split; [ reflexivity | reflexivity ]).
Qed.

Lemma media_header_assembled_witness :
  exists envelope : value,
    buildMessageContent
      (VObj [ ("body", VStr "b"); ("headerText", VStr "H");
              ("headerMedia",
               VObj [ ("mediaType", VStr "video"); ("mediaUrl", VStr "u") ]) ])
      (VArr []) = Returns envelope /\
    header_of envelope =
    Returns
      (VObj [ ("type", VNum 2); ("text", VStr "H");
              ("media", VObj [ ("url", VStr "u"); ("caption", VStr "") ]) ]).
Proof.
  apply (media_header_assembled
           (VObj [ ("body", VStr "b"); ("headerText", VStr "H");
                   ("headerMedia",
                    VObj [ ("mediaType", VStr "video");
                           ("mediaUrl", VStr "u") ]) ]) []);
    [ reflexivity | apply Forall_nil_2 | reflexivity | reflexivity
    | reflexivity ].
Defined.

End Assembler.

(** ** Properties of [InteractiveValidationError] *)

Section ErrorContext.

Import InteractiveValidationError.

Lemma fresh_reference (h : store) (this : nat) (e : InteractiveValidationError.t) :
  h !! this = Some e -> fresh (dom h) <> this.
Proof.
  intros H Heq. apply (is_fresh (dom h)). rewrite Heq.
  apply elem_of_dom. exists e. exact H.
Qed.

(** C9.  For every error [e] in the store and every context string,
    [e.addContext(ctx)] returns a new error, different from [e], whose
    message is [e.message + " in " + ctx], whose context is [e.context +
    " -> " + ctx] and whose errors, warnings and example are those of [e];
    [e] itself, and every other object of the store, is left as it was. *)
Theorem addContext_extends_and_preserves
    (h : store) (this : nat) (e : InteractiveValidationError.t)
    (ctx : string) :
  h !! this = Some e ->
  exists (result : nat) (h' : store),
    addContext this ctx h = Some (result, h') /\
    result <> this /\
    h' !! result =
      Some {| name := "InteractiveValidationError";
              message := message e +:+ " in " +:+ ctx;
              context := context e +:+ " -> " +:+ ctx;
              errors := errors e;
              warnings := warnings e;
              example := example e |} /\
    h' !! this = Some e /\
    (forall l : nat, l <> result -> h' !! l = h !! l).
Proof.
  intros H. unfold addContext, new_InteractiveValidationError.
  rewrite H. cbn.
  pose proof (fresh_reference h this e H) as Hfresh.
  eexists _, _. split; [ reflexivity | ].
  split; [ exact Hfresh | ].
  split; [ apply lookup_insert_eq | ].
  split.
  - rewrite lookup_insert_ne by exact Hfresh. exact H.
  - intros l Hl. apply lookup_insert_ne. auto.
Qed.

Lemma addContext_extends_and_preserves_witness :
  let e := {| name := "InteractiveValidationError";
              message := "Invalid interactive message configuration";
              context := "sendInteractiveButtonsBasic";
              errors := [];
              warnings := [];
              example := VUndefined |} in
  let h : store := {[ 0%nat := e ]} in
  exists (result : nat) (h' : store),
    addContext 0%nat "nested_function" h = Some (result, h') /\
    result <> 0%nat /\
    h' !! result =
      Some {| name := "InteractiveValidationError";
              message :=
                "Invalid interactive message configuration in nested_function";
              context := "sendInteractiveButtonsBasic -> nested_function";
              errors := [];
              warnings := [];
              example := VUndefined |} /\
    h' !! 0%nat = Some e /\
    (forall l : nat, l <> result -> h' !! l = h !! l).
Proof.
  intros e h.
  apply (addContext_extends_and_preserves h 0%nat e "nested_function").
  apply lookup_singleton_eq.
Defined.

End ErrorContext.

(** ** More on the validator *)

Section ValidatorResult.

Lemma validateInteractiveMessage_throws_without_array_general
    (config buttons : value) :
  isArray buttons = false ->
  validateInteractiveMessage config buttons = Throws TypeError.
Proof.
  intros Hb. unfold validateInteractiveMessage.
  destruct config; cbn; try reflexivity;
    destruct buttons; try discriminate Hb; reflexivity.
Qed.

(** X1.  On a readable config and buttons that the validator can check
    (none is [null] or [undefined], and the phone number of every call
    button can be converted to a string) the validator returns, and the
    number of errors is exactly one for a body that is not a non-empty
    string, one for an empty list, and one per rule violated by each
    button: nothing is reported twice and nothing is skipped. *)
Theorem validator_error_count (config : value) (bs : list value) :
  nullish config = false ->
  Forall (fun b => checkable b = true) bs ->
  exists r : ValidationResult,
    validateInteractiveMessage config (VArr bs) = Returns r /\
    warnings r = [] /\
    List.length (errors r) =
      (Spec.violated (Spec.nonempty_string (field config "body"))
       + (if bs is [] then 1 else 0)
       + sum_list (List.map Spec.rule_violations bs))%nat.
Proof.
  intros Hc Hbs. rewrite validateInteractiveMessage_exact by assumption.
  eexists. split; [ reflexivity | ]. split; [ reflexivity | ].
  cbn [errors]. rewrite !List.length_app, errors_from_length by exact Hbs.
  destruct (Spec.nonempty_string (field config "body")), bs; reflexivity.
Qed.

Lemma validator_error_count_witness :
  exists r : ValidationResult,
    validateInteractiveMessage (VObj [ ("body", VStr "") ])
      (VArr [ VObj [ ("id", VStr "a") ]; call_button (VStr "abc") ])
    = Returns r /\
    warnings r = [] /\
    List.length (errors r) = 3%nat.
Proof.
  apply (validator_error_count (VObj [ ("body", VStr "") ])
           [ VObj [ ("id", VStr "a") ]; call_button (VStr "abc") ]);
    [ reflexivity
    | repeat (apply Forall_cons_2; [ reflexivity | ]); apply Forall_nil_2 ].
Defined.

(** X2.  On a readable config and buttons that the validator can check,
    the result is valid exactly when the body is a non-empty string, there
    is at least one button and no button violates a rule. *)
Theorem validator_accepts_iff (config : value) (bs : list value) :
  nullish config = false ->
  Forall (fun b => checkable b = true) bs ->
  exists r : ValidationResult,
    validateInteractiveMessage config (VArr bs) = Returns r /\
    (isValid r = true <->
     Spec.nonempty_string (field config "body") = true /\
     bs <> [] /\
     Forall (fun b => Spec.rule_violations b = 0%nat) bs).
Proof.
  intros Hc Hbs. rewrite validateInteractiveMessage_exact by assumption.
  eexists. split; [ reflexivity | ]. cbn [isValid].
  rewrite Nat.eqb_eq, !List.length_app, errors_from_length by exact Hbs.
  rewrite <- sum_list_map_zero.
  destruct (Spec.nonempty_string (field config "body")), bs; cbn;
    split; try lia; try (intros (H1 & H2 & H3); congruence).
  - intros H. repeat split; try lia. discriminate.
Qed.

Lemma validator_accepts_iff_witness :
  exists r : ValidationResult,
    validateInteractiveMessage (VObj [ ("body", VStr "Confirm?") ])
      (VArr [ VObj [ ("id", VStr "accept"); ("title", VStr "Accept") ] ])
    = Returns r /\
    (isValid r = true <->
     Spec.nonempty_string (VStr "Confirm?") = true /\
     [ VObj [ ("id", VStr "accept"); ("title", VStr "Accept") ] ] <> [] /\
     Forall (fun b => Spec.rule_violations b = 0%nat)
       [ VObj [ ("id", VStr "accept"); ("title", VStr "Accept") ] ]).
Proof.
  apply (validator_accepts_iff (VObj [ ("body", VStr "Confirm?") ])
           [ VObj [ ("id", VStr "accept"); ("title", VStr "Accept") ] ]);
    [ reflexivity
    | repeat (apply Forall_cons_2; [ reflexivity | ]); apply Forall_nil_2 ].
Defined.

(** X3.  With an empty list of buttons the validator never looks further:
    it returns an invalid result whose last error is the one at path
    [buttons], preceded by the body error when the body is not a non-empty
    string, and by nothing else. *)
Theorem validator_on_no_buttons (config : value) :
  nullish config = false ->
  validateInteractiveMessage config (VArr []) =
  Returns
    {| isValid := false;
       errors :=
         (if Spec.nonempty_string (field config "body") then []
          else [ body_error (field config "body") ])
         ++ [ buttons_error (VArr []) ];
       warnings := [] |}.
Proof.
  intros Hc.
  rewrite validateInteractiveMessage_exact by (try apply Forall_nil_2; exact Hc).
  cbn. rewrite app_nil_r.
  destruct (Spec.nonempty_string (field config "body")); reflexivity.
Qed.

Lemma validator_on_no_buttons_witness :
  validateInteractiveMessage (VObj [ ("body", VStr "x") ]) (VArr []) =
  Returns {| isValid := false;
             errors := [ buttons_error (VArr []) ];
             warnings := [] |}.
Proof.
  apply (validator_on_no_buttons (VObj [ ("body", VStr "x") ])). reflexivity.
Defined.

Lemma forEach_from_uncheckable (bs : list value) (i : nat)
    (errs : list ValidationError.t) :
  Exists (fun b => checkable b = false) bs ->
  forEach_from validate_button i bs errs = Throws TypeError.
Proof.
  intros H. revert i errs.
  induction H as [ b bs Hb | b bs _ IH ]; intros i errs; cbn.
  - rewrite validate_button_throws by exact Hb. reflexivity.
  - destruct (checkable b) eqn:Hb.
    + rewrite validate_button_push by exact Hb. cbn. apply IH.
    + rewrite validate_button_throws by exact Hb. reflexivity.
Qed.

Lemma checkable_or_not (bs : list value) :
  Forall (fun b => checkable b = true) bs \/
  Exists (fun b => checkable b = false) bs.
Proof.
  induction bs as [ | b bs [IH | IH] ].
  - left. constructor.
  - destruct (checkable b) eqn:Hb.
    + left. constructor; assumption.
    + right. left. exact Hb.
  - right. right. exact IH.
Qed.

Lemma readable_or_not (bs : list value) :
  Forall (fun b => nullish b = false) bs \/
  Exists (fun b => nullish b = true) bs.
Proof.
  induction bs as [ | b bs [IH | IH] ].
  - left. constructor.
  - destruct (nullish b) eqn:Hb.
    + right. left. exact Hb.
    + left. constructor; assumption.
  - right. right. exact IH.
Qed.

(** X4.  The validator returns a result exactly when the config can be
    read (it is neither [null] nor [undefined]), [buttons] is an array and
    every item can be checked: none is [null] or [undefined], and the phone
    number of every item classified [cta_call] can be converted to a
    string.  In every other case it throws a [TypeError]. *)
Theorem validator_returns_iff (config buttons : value) :
  let checked :=
    nullish config = false /\
    exists bs, buttons = VArr bs /\ Forall (fun b => checkable b = true) bs in
  ((exists r, validateInteractiveMessage config buttons = Returns r) <->
   checked) /\
  (validateInteractiveMessage config buttons = Throws TypeError <->
   ~ checked).
Proof.
  intros checked.
  assert (Hret : (exists r, validateInteractiveMessage config buttons
                            = Returns r) <-> checked).
  { split.
    - intros [r Hr]. destruct (nullish config) eqn:Hc.
      { destruct config; try discriminate Hc; discriminate Hr. }
      split; [ reflexivity | ].
      destruct (isArray buttons) eqn:Ha.
      + destruct buttons as [ | | | | | | | bs ]; try discriminate Ha.
        exists bs. split; [ reflexivity | ].
        destruct (checkable_or_not bs) as [H | H]; [ exact H | ].
        unfold validateInteractiveMessage, forEach in Hr.
        rewrite (get_field config) in Hr by exact Hc.
        unfold mbind at 1, completion_bind at 1 in Hr.
        rewrite forEach_from_uncheckable in Hr by exact H. discriminate Hr.
      + rewrite validateInteractiveMessage_throws_without_array_general in Hr
          by exact Ha. discriminate Hr.
    - intros (Hc & bs & -> & Hbs).
      rewrite validateInteractiveMessage_exact by assumption. eauto. }
  split; [ exact Hret | ].
  rewrite <- Hret. split.
  - intros H [r Hr]. congruence.
  - intros H. destruct (validateInteractiveMessage config buttons) as [r | e].
    + destruct H. eauto.
    + destruct e. reflexivity.
Qed.

(** *** Where the errors point *)

Lemma button_errors_located (b : value) (i : nat) :
  checkable b = true ->
  Forall (fun e => exists f, In f button_error_fields /\
                     ValidationError.path e = button_path i f /\
                     ValidationError.value e = field b f)
    (button_errors b i).
Proof.
  intros Hb. rewrite button_errors_closed by exact Hb.
  unfold rule_errors, field_error.
  repeat match goal with
         | |- context [if ?c then _ else _] => destruct c
         end;
    cbn [app];
    repeat (apply Forall_cons_2;
            [ eexists; split; [ | split; reflexivity ]; cbn; tauto | ]);
    apply Forall_nil_2.
Qed.

Lemma errors_from_located (bs : list value) (k : nat) :
  Forall (fun b => checkable b = true) bs ->
  Forall (fun e => exists j b f,
              bs !! j = Some b /\ In f button_error_fields /\
              ValidationError.path e = button_path (k + j) f /\
              ValidationError.value e = field b f)
    (errors_from k bs).
Proof.
  intros H. revert k.
  induction H as [ | b bs Hb _ IH ]; intros k; cbn; [ constructor | ].
  apply Forall_app. split.
  - eapply Forall_impl; [ apply button_errors_located, Hb | ].
    intros e (f & Hf & Hp & Hv). exists 0%nat, b, f.
    rewrite Nat.add_0_r. auto.
  - eapply Forall_impl; [ apply (IH (S k)) | ].
    intros e (j & b0 & f & Hj & Hf & Hp & Hv). exists (S j), b0, f.
    replace (k + S j)%nat with (S k + j)%nat by lia. auto.
Qed.

(** X5.  On a readable config and buttons that the validator can check,
    every error of the result points at something that is there and
    carries the offending value: the path is [body] with the
    config's body, or [buttons] with the list, or [buttons[i].f] for a
    button that exists at index [i] and one of the fields id, title, url,
    phoneNumber, copyText, with that button's value of the field. *)
Theorem validator_errors_located (config : value) (bs : list value) :
  nullish config = false ->
  Forall (fun b => checkable b = true) bs ->
  exists r : ValidationResult,
    validateInteractiveMessage config (VArr bs) = Returns r /\
    Forall
      (fun e =>
         (ValidationError.path e = "body" /\
          ValidationError.value e = field config "body") \/
         (ValidationError.path e = "buttons" /\
          ValidationError.value e = VArr bs) \/
         (exists i b f,
             bs !! i = Some b /\ In f button_error_fields /\
             ValidationError.path e = button_path i f /\
             ValidationError.value e = field b f))
      (errors r).
Proof.
  intros Hc Hbs. rewrite validateInteractiveMessage_exact by assumption.
  eexists. split; [ reflexivity | ]. cbn [errors].
  apply Forall_app_2; [ apply Forall_app_2 | ].
  - destruct (Spec.nonempty_string (field config "body"));
      [ apply Forall_nil_2 | ].
    apply Forall_cons_2; [ | apply Forall_nil_2 ].
    left. split; reflexivity.
  - destruct bs; [ | apply Forall_nil_2 ].
    apply Forall_cons_2; [ | apply Forall_nil_2 ].
    right. left. split; reflexivity.
  - eapply Forall_impl; [ apply (errors_from_located bs 0 Hbs) | ].
    intros e H. right. right. exact H.
Qed.

Lemma validator_errors_located_witness :
  exists r : ValidationResult,
    validateInteractiveMessage (VObj [ ("body", VStr "x") ])
      (VArr [ VObj [ ("id", VNum 7); ("title", VStr "T") ] ]) = Returns r /\
    Forall
      (fun e =>
         (ValidationError.path e = "body" /\
          ValidationError.value e = VStr "x") \/
         (ValidationError.path e = "buttons" /\
          ValidationError.value e
          = VArr [ VObj [ ("id", VNum 7); ("title", VStr "T") ] ]) \/
         (exists i b f,
             [ VObj [ ("id", VNum 7); ("title", VStr "T") ] ] !! i = Some b /\
             In f button_error_fields /\
             ValidationError.path e = button_path i f /\
             ValidationError.value e = field b f))
      (errors r).
Proof.
  apply (validator_errors_located (VObj [ ("body", VStr "x") ])
           [ VObj [ ("id", VNum 7); ("title", VStr "T") ] ]);
    [ reflexivity
    | repeat (apply Forall_cons_2; [ reflexivity | ]); apply Forall_nil_2 ].
Defined.

(** *** Which check reports where *)

Lemma base_checks_reported (b : value) (i : nat) :
  checkable b = true ->
  existsb (fun e => String.eqb (ValidationError.path e) (button_path i "id"))
    (button_errors b i) = negb (Spec.id_rule (field b "id")) /\
  existsb (fun e => String.eqb (ValidationError.path e) (button_path i "title"))
    (button_errors b i) = negb (Spec.nonempty_string (field b "title")).
Proof.
  intros Hb. rewrite button_errors_closed by exact Hb.
  unfold rule_errors, field_error.
  split;
    repeat match goal with
           | |- context [if ?c then _ else _] => destruct c
           end;
    cbn [app existsb ValidationError.path negb];
    rewrite ?button_path_eqb; reflexivity.
Qed.

(** X6.  On a readable config and buttons that the validator can check,
    for the button at index [i], the validator reports an error at
    [buttons[i].id] exactly when the id is not a string of 1 to 64 code
    units, and an error at [buttons[i].title] exactly when the title is not
    a non-empty string, whatever the type of the button. *)
Theorem base_errors_iff (config : value) (bs : list value) (i : nat)
    (b : value) :
  nullish config = false ->
  Forall (fun b => checkable b = true) bs ->
  bs !! i = Some b ->
  exists r : ValidationResult,
    validateInteractiveMessage config (VArr bs) = Returns r /\
    (reported_at r (button_path i "id") = false <->
     exists s, field b "id" = VStr s /\
               (1 <= String.length s <= 64)%nat) /\
    (reported_at r (button_path i "title") = false <->
     exists s, field b "title" = VStr s /\ s <> EmptyString).
Proof.
  intros Hc Hbs Hi.
  assert (Hb : checkable b = true) by (eapply lookup_checkable; eassumption).
  destruct (reported_at_button config bs i b "id" Hc Hbs Hi) as (r & Hr & Hid).
  destruct (reported_at_button config bs i b "title" Hc Hbs Hi)
    as (r' & Hr' & Htitle).
  assert (r' = r) by congruence. subst r'.
  exists r. split; [ exact Hr | ].
  destruct (base_checks_reported b i Hb) as [H1 H2].
  rewrite Hid, Htitle, H1, H2, !negb_false_iff. split.
  - destruct (field b "id") as [ | | | | | s | | ]; cbn [Spec.id_rule];
      try (split; [ discriminate | intros (s0 & E & _); discriminate E ]).
    rewrite andb_true_iff, !Nat.leb_le. split.
    + intros H. exists s. split; [ reflexivity | exact H ].
    + intros (s0 & E & H). injection E as <-. exact H.
  - destruct (field b "title") as [ | | | | | s | | ]; cbn;
      try (split; [ discriminate | intros (s0 & E & _); discriminate E ]).
    rewrite negb_true_iff, String.eqb_neq. split.
    + intros H. exists s. split; [ reflexivity | exact H ].
    + intros (s0 & E & H). injection E as <-. exact H.
Qed.

Lemma base_errors_iff_witness :
  exists r : ValidationResult,
    validateInteractiveMessage (VObj [ ("body", VStr "x") ])
      (VArr [ VObj [ ("id", VStr ""); ("title", VStr "T") ] ]) = Returns r /\
    (reported_at r (button_path 0 "id") = false <->
     exists s, VStr "" = VStr s /\ (1 <= String.length s <= 64)%nat) /\
    (reported_at r (button_path 0 "title") = false <->
     exists s, VStr "T" = VStr s /\ s <> EmptyString).
Proof.
  apply (base_errors_iff (VObj [ ("body", VStr "x") ])
           [ VObj [ ("id", VStr ""); ("title", VStr "T") ] ] 0%nat
           (VObj [ ("id", VStr ""); ("title", VStr "T") ]));
    [ reflexivity
    | repeat (apply Forall_cons_2; [ reflexivity | ]); apply Forall_nil_2
    | reflexivity ].
Defined.

Lemma type_checks_reported (b : value) (i : nat) :
  checkable b = true ->
  let t := classify_by truthy b in
  let reported f :=
    existsb (fun e => String.eqb (ValidationError.path e) (button_path i f))
      (button_errors b i) in
  reported "url" =
    strict_eq_str t "cta_url" && negb (Spec.nonempty_string (field b "url"))
  /\ reported "phoneNumber" =
    strict_eq_str t "cta_call" && negb (Spec.phone_rule (field b "phoneNumber"))
  /\ reported "copyText" =
    strict_eq_str t "cta_copy"
    && negb (Spec.nonempty_string (field b "copyText")).
Proof.
  intros Hb t reported. subst t reported. cbv beta.
  rewrite button_errors_closed by exact Hb.
  unfold rule_errors, field_error. rewrite !classified_eq.
  destruct (classify_by truthy b) as [ | | ? | ? | | tag | ? | ? ];
    cbn [strict_eq_str andb].
  all: try (repeat split;
            repeat match goal with
                   | |- context [if ?c then _ else _] => destruct c
                   end;
            cbn [app existsb ValidationError.path];
            rewrite ?button_path_eqb; reflexivity).
  destruct (String.eqb_spec tag "cta_url") as [-> | H1];
    [ | destruct (String.eqb_spec tag "cta_call") as [-> | H2];
        [ | destruct (String.eqb_spec tag "cta_copy") as [-> | H3] ] ];
    cbn [String.eqb Ascii.eqb Bool.eqb andb];
    repeat split;
    repeat match goal with
           | |- context [if ?c then _ else _] => destruct c
           end;
    cbn [app existsb ValidationError.path negb andb];
    rewrite ?button_path_eqb; reflexivity.
Qed.

(** X7.  On a readable config and buttons that the validator can check,
    the type-specific checks are keyed by the classifier's result [t]: an
    error at [buttons[i].url] is reported exactly when [t] is [cta_url] and
    the url is not a non-empty string, at [buttons[i].phoneNumber] exactly
    when [t] is [cta_call] and the text of the phone number does not match
    the pattern, and at [buttons[i].copyText] exactly when [t] is
    [cta_copy] and the copy text is not a non-empty string.  A button of
    any other type is never checked for these fields. *)
Theorem type_errors_iff (config : value) (bs : list value) (i : nat)
    (b t : value) :
  nullish config = false ->
  Forall (fun b => checkable b = true) bs ->
  bs !! i = Some b ->
  getButtonType b = Returns t ->
  exists r : ValidationResult,
    validateInteractiveMessage config (VArr bs) = Returns r /\
    (reported_at r (button_path i "url") = true <->
     t = VStr "cta_url" /\ Spec.nonempty_string (field b "url") = false) /\
    (reported_at r (button_path i "phoneNumber") = true <->
     t = VStr "cta_call" /\
     exists text : string,
       to_string (field b "phoneNumber") = Returns text /\
       Regex.matches phone_pattern text = false)
    /\
    (reported_at r (button_path i "copyText") = true <->
     t = VStr "cta_copy" /\
     Spec.nonempty_string (field b "copyText") = false).
Proof.
  intros Hc Hbs Hi Ht.
  assert (Hb : checkable b = true) by (eapply lookup_checkable; eassumption).
  rewrite getButtonType_returns in Ht. injection Ht as <-.
  destruct (reported_at_button config bs i b "url" Hc Hbs Hi) as (r & Hr & Hu).
  destruct (reported_at_button config bs i b "phoneNumber" Hc Hbs Hi)
    as (r1 & Hr1 & Hp).
  destruct (reported_at_button config bs i b "copyText" Hc Hbs Hi)
    as (r2 & Hr2 & Hcp).
  assert (r1 = r) by congruence. assert (r2 = r) by congruence. subst r1 r2.
  exists r. split; [ exact Hr | ].
  destruct (type_checks_reported b i Hb) as (H1 & H2 & H3).
  rewrite Hu, Hp, Hcp, H1, H2, H3.
  rewrite !andb_true_iff, !negb_true_iff, !strict_eq_str_iff.
  split; [ tauto | ]. split; [ | tauto ].
  assert (Hrule :
    classify_by truthy b = VStr "cta_call" ->
    (Spec.phone_rule (field b "phoneNumber") = false <->
     exists text : string,
       to_string (field b "phoneNumber") = Returns text /\
       Regex.matches phone_pattern text = false)).
  { intros Hcall. destruct (checkable_inv b Hb) as [_ [Hn | Hcv]].
    { rewrite Hcall in Hn. discriminate Hn. }
    unfold convertible in Hcv. unfold Spec.phone_rule.
    destruct (to_string (field b "phoneNumber")) as [ text | ];
      [ | discriminate Hcv ].
    split.
    - intros H. exists text. split; [ reflexivity | exact H ].
    - intros (text' & E & H). injection E as <-. exact H. }
  split.
  - intros [Hcall H]. split; [ exact Hcall | ]. apply Hrule; assumption.
  - intros [Hcall H]. split; [ exact Hcall | ]. apply Hrule; assumption.
Qed.

Lemma type_errors_iff_witness :
  exists r : ValidationResult,
    validateInteractiveMessage (VObj [ ("body", VStr "x") ])
      (VArr [ VObj [ ("id", VStr "a"); ("title", VStr "A");
                     ("type", VStr "cta_call");
                     ("phoneNumber", VStr "abc") ] ]) = Returns r /\
    (reported_at r (button_path 0 "url") = true <->
     VStr "cta_call" = VStr "cta_url" /\
     Spec.nonempty_string VUndefined = false) /\
    (reported_at r (button_path 0 "phoneNumber") = true <->
     VStr "cta_call" = VStr "cta_call" /\
     exists text : string,
       to_string (VStr "abc") = Returns text /\
       Regex.matches phone_pattern text = false) /\
    (reported_at r (button_path 0 "copyText") = true <->
     VStr "cta_call" = VStr "cta_copy" /\
     Spec.nonempty_string VUndefined = false).
Proof.
  apply (type_errors_iff (VObj [ ("body", VStr "x") ])
           [ VObj [ ("id", VStr "a"); ("title", VStr "A");
                    ("type", VStr "cta_call");
                    ("phoneNumber", VStr "abc") ] ] 0%nat
           (VObj [ ("id", VStr "a"); ("title", VStr "A");
                   ("type", VStr "cta_call");
                   ("phoneNumber", VStr "abc") ])
           (VStr "cta_call"));
    [ reflexivity
    | repeat (apply Forall_cons_2; [ reflexivity | ]); apply Forall_nil_2
    | reflexivity
    | reflexivity ].
Defined.

End ValidatorResult.

(** ** More on the classifier *)

Section ClassifierRange.

(** X8.  The classifier's result is never falsy, so a converted entry
    always has a name; and unless the button carries a truthy [type], the
    result is one of the nine tags quick_reply, cta_url, cta_copy,
    cta_call, cta_catalog, cta_reminder, cta_cancel_reminder,
    address_message and single_select. *)
Theorem classifier_range (b : value) :
  exists t : value,
    getButtonType b = Returns t /\
    truthy t = true /\
    (truthy (field b "type") = false ->
     exists tag, In tag inferred_tags /\ t = VStr tag).
Proof.
  exists (classify_by truthy b).
  split; [ apply getButtonType_returns | ].
  split; [ apply classify_by_truthy | ].
  intros Ht. unfold classify_by, classifier_table, inferred_tags.
  destruct (is_object b); [ | eexists; split; [ | reflexivity ]; cbn; tauto ].
  rewrite Ht. cbn.
  repeat match goal with
         | |- context [truthy (field b ?k)] => destruct (truthy (field b k))
         end;
    (eexists; split; [ | reflexivity ]; cbn; tauto).
Qed.

(** X9.  The classifier reads nothing but the [type] field and the
    truthiness of the eight fields of its table: two objects that agree on
    those are classified alike, whatever their id, title or other
    fields. *)
Theorem classifier_reads_nine_fields (fs1 fs2 : list (string * value)) :
  lookup_field "type" fs1 = lookup_field "type" fs2 ->
  Forall (fun k => truthy (lookup_field k fs1) = truthy (lookup_field k fs2))
    (List.map fst classifier_table) ->
  getButtonType (VObj fs1) = getButtonType (VObj fs2).
Proof.
  intros Htype H. rewrite !getButtonType_returns. f_equal.
  unfold classify_by, classifier_table in *. cbn in *.
  rewrite Htype.
  repeat match goal with
         | H : Forall _ (_ :: _) |- _ =>
             apply Forall_cons in H; destruct H as [? H]
         end.
  repeat match goal with
         | E : truthy (lookup_field ?k fs1) = _ |- _ => rewrite E; clear E
         end.
  reflexivity.
Qed.

Lemma classifier_reads_nine_fields_witness :
  getButtonType (VObj [ ("id", VStr "a"); ("url", VStr "https://a.example") ])
  = getButtonType (VObj [ ("title", VStr "B"); ("url", VNum 1) ]).
Proof.
  apply classifier_reads_nine_fields;
    [ reflexivity
    | repeat (apply Forall_cons_2; [ reflexivity | ]); apply Forall_nil_2 ].
Defined.

End ClassifierRange.

(** ** More on the normalizer *)

Section NormalizerShape.

(** X10.  The normalizer never drops or adds an entry: on an array it
    returns a list of the same length.  Called without argument it returns
    the empty list, and on any other value that is not an array ([null]
    included) it throws a [TypeError]. *)
Theorem normalizer_keeps_length :
  (forall x : list value,
      exists y : list value,
        buildInteractiveButtons (VArr x) = Returns y /\
        List.length y = List.length x) /\
  buildInteractiveButtons VUndefined = Returns [] /\
  (forall v : value,
      isArray v = false -> v <> VUndefined ->
      buildInteractiveButtons v = Throws TypeError).
Proof.
  split; [ | split ].
  - intros x. exists (List.map normalized x).
    split; [ apply buildInteractiveButtons_returns | apply List.length_map ].
  - reflexivity.
  - intros v Ha Hu. destruct v; try discriminate Ha; try reflexivity.
    destruct Hu. reflexivity.
Qed.

Lemma normalizer_keeps_length_witness :
  buildInteractiveButtons VNull = Throws TypeError.
Proof.
  apply (proj2 (proj2 normalizer_keeps_length)); [ reflexivity | discriminate ].
Defined.

Lemma normalized_shape (b : value) :
  (normalized b = b /\
   (both_truthy b "name" "buttonParamsJson" = true \/
    both_truthy b "id" "title" = false /\
    both_truthy b "buttonId" "buttonText" = false)) \/
  (exists (t : value) (json : string),
      getButtonType b = Returns t /\
      normalized b = VObj [ ("name", t); ("buttonParamsJson", VStr json) ] /\
      both_truthy (normalized b) "name" "buttonParamsJson" = true).
Proof.
  unfold normalized. rewrite normalize_entry_cases, getButtonType_returns.
  destruct (both_truthy b "name" "buttonParamsJson") eqn:E1; [ auto | ].
  destruct (both_truthy b "id" "title") eqn:E2.
  { right. eexists _, _. split; [ reflexivity | ].
    split; [ reflexivity | ].
    unfold both_truthy. cbn. rewrite classify_by_truthy. reflexivity. }
  destruct (both_truthy b "buttonId" "buttonText") eqn:E3; [ | auto ].
  right. eexists _, _. split; [ reflexivity | ].
  split; [ reflexivity | ].
  unfold both_truthy. cbn. rewrite classify_by_truthy. reflexivity.
Qed.

(** X11.  Each entry of the normalizer's result is either the input entry
    itself (when it is canonical for the code, or matches neither legacy
    shape) or a fresh two-field object [{name, buttonParamsJson}] whose
    name is the classifier's result for the input and whose parameters are
    a string; such an entry passes the canonical test.  An item that
    matches no shape comes out as it went in, without [name] and
    [buttonParamsJson] if it had none. *)
Theorem normalizer_output_shape (x : list value) :
  exists y : list value,
    buildInteractiveButtons (VArr x) = Returns y /\
    Forall2
      (fun b c =>
         (c = b /\
          (both_truthy b "name" "buttonParamsJson" = true \/
           both_truthy b "id" "title" = false /\
           both_truthy b "buttonId" "buttonText" = false)) \/
         (exists (t : value) (json : string),
             getButtonType b = Returns t /\
             c = VObj [ ("name", t); ("buttonParamsJson", VStr json) ] /\
             both_truthy c "name" "buttonParamsJson" = true))
      x y.
Proof.
  exists (List.map normalized x).
  split; [ apply buildInteractiveButtons_returns | ].
  induction x as [ | b x IH ]; cbn; constructor; [ | exact IH ].
  apply normalized_shape.
Qed.

End NormalizerShape.

(** ** More on the assembler *)

Section AssemblerShape.

Lemma map_items_project_exact (bs : list value) :
  Forall (fun b => nullish b = false) bs ->
  map_items
    (fun button =>
       name ← button.["name"];
       buttonParamsJson ← button.["buttonParamsJson"];
       Returns (VObj [ ("name", name);
                       ("buttonParamsJson", buttonParamsJson) ])) bs
  = Returns (List.map project bs).
Proof.
  induction 1 as [ | b bs Hb _ IH ]; cbn; [ reflexivity | ].
  rewrite !(get_field b) by exact Hb. cbn. rewrite IH. reflexivity.
Qed.

Lemma map_items_project_unreadable (bs : list value) :
  Exists (fun b => nullish b = true) bs ->
  map_items
    (fun button =>
       name ← button.["name"];
       buttonParamsJson ← button.["buttonParamsJson"];
       Returns (VObj [ ("name", name);
                       ("buttonParamsJson", buttonParamsJson) ])) bs
  = Throws TypeError.
Proof.
  induction 1 as [ b bs Hb | b bs _ IH ]; cbn.
  - destruct b; try discriminate Hb; reflexivity.
  - destruct (nullish b) eqn:Hb.
    + destruct b; try discriminate Hb; reflexivity.
    + rewrite !(get_field b) by exact Hb. cbn. rewrite IH. reflexivity.
Qed.

Lemma buildMessageContent_exact (config : value) (bs : list value) :
  nullish config = false ->
  Forall (fun b => nullish b = false) bs ->
  let headerText := field config "headerText" in
  let headerMedia := field config "headerMedia" in
  buildMessageContent config (VArr bs) =
  Returns
    (VObj
       [ ("interactive",
          VObj
            [ ("nativeFlow",
               VObj
                 [ ("buttons",
                    VArr
                      (List.map
                         (fun b =>
                            VObj [ ("name", field b "name");
                                   ("buttonParamsJson",
                                    field b "buttonParamsJson") ]) bs));
                   ("messageParams",
                    VObj
                      ([ ("body", VObj [ ("text", field config "body") ]) ]
                       ++ (if truthy (field config "footer")
                           then [ ("footer",
                                   VObj [ ("text", field config "footer") ]) ]
                           else [])
                       ++ (if truthy headerMedia then
                             [ ("header",
                                VObj
                                  [ ("type",
                                     VNum (Spec.media_code
                                             (field headerMedia "mediaType")));
                                    ("text", or_else headerText (VStr ""));
                                    ("media",
                                     VObj
                                       [ ("url", field headerMedia "mediaUrl");
                                         ("caption",
                                          or_else
                                            (field headerMedia "mediaCaption")
                                            (VStr "")) ]) ]) ]
                           else if truthy headerText then
                             [ ("header",
                                VObj
                                  [ ("type",
                                     or_else (field config "headerType")
                                       (VNum 1));
                                    ("text", headerText) ]) ]
                           else []))) ]) ]) ]).
Proof.
  intros Hc Hbs headerText headerMedia. subst headerText headerMedia.
  unfold buildMessageContent, array_map.
  rewrite map_items_project_exact by exact Hbs. unfold project.
  rewrite !(get_field config) by exact Hc.
  unfold mbind, completion_bind.
  destruct (truthy (field config "headerMedia")) eqn:Hm.
  - rewrite !(get_field (field config "headerMedia"))
      by (apply truthy_not_nullish, Hm).
    cbv beta iota. rewrite media_code_chain.
    destruct (truthy (field config "footer")),
      (truthy (field config "headerText")); reflexivity.
  - destruct (truthy (field config "footer")),
      (truthy (field config "headerText")); reflexivity.
Qed.

(** X12.  The envelope in full.  On a readable config and readable
    entries the assembler returns [{interactive: {nativeFlow: {buttons,
    messageParams}}}] where [buttons] holds, for each entry in order, the
    two fields [name] and [buttonParamsJson] and nothing else, and
    [messageParams] holds, in this order, [body] with the config's body, a
    [footer] only if the config's footer is truthy, and a [header] only if
    [headerMedia] or [headerText] is truthy: the media header if
    [headerMedia] is truthy, the text header otherwise. *)
Theorem envelope_shape (config : value) (bs : list value) :
  nullish config = false ->
  Forall (fun b => nullish b = false) bs ->
  let headerText := field config "headerText" in
  let headerMedia := field config "headerMedia" in
  buildMessageContent config (VArr bs) =
  Returns
    (VObj
       [ ("interactive",
          VObj
            [ ("nativeFlow",
               VObj
                 [ ("buttons",
                    VArr
                      (List.map
                         (fun b =>
                            VObj [ ("name", field b "name");
                                   ("buttonParamsJson",
                                    field b "buttonParamsJson") ]) bs));
                   ("messageParams",
                    VObj
                      ([ ("body", VObj [ ("text", field config "body") ]) ]
                       ++ (if truthy (field config "footer")
                           then [ ("footer",
                                   VObj [ ("text", field config "footer") ]) ]
                           else [])
                       ++ (if truthy headerMedia then
                             [ ("header",
                                VObj
                                  [ ("type",
                                     VNum (Spec.media_code
                                             (field headerMedia "mediaType")));
                                    ("text", or_else headerText (VStr ""));
                                    ("media",
                                     VObj
                                       [ ("url", field headerMedia "mediaUrl");
                                         ("caption",
                                          or_else
                                            (field headerMedia "mediaCaption")
                                            (VStr "")) ]) ]) ]
                           else if truthy headerText then
                             [ ("header",
                                VObj
                                  [ ("type",
                                     or_else (field config "headerType")
                                       (VNum 1));
                                    ("text", headerText) ]) ]
                           else []))) ]) ]) ]).
Proof. exact (buildMessageContent_exact config bs). Qed.

Lemma envelope_shape_witness :
  buildMessageContent
    (VObj [ ("body", VStr "Confirm?"); ("footer", VStr "") ])
    (VArr [ VObj [ ("name", VStr "quick_reply");
                   ("buttonParamsJson", VStr "{}"); ("extra", VNum 1) ] ])
  = Returns
      (VObj
         [ ("interactive",
            VObj
              [ ("nativeFlow",
                 VObj
                   [ ("buttons",
                      VArr [ VObj [ ("name", VStr "quick_reply");
                                    ("buttonParamsJson", VStr "{}") ] ]);
                     ("messageParams",
                      VObj [ ("body", VObj [ ("text", VStr "Confirm?") ]) ])
                   ]) ]) ]).
Proof.
  apply (envelope_shape
           (VObj [ ("body", VStr "Confirm?"); ("footer", VStr "") ])
           [ VObj [ ("name", VStr "quick_reply");
                    ("buttonParamsJson", VStr "{}"); ("extra", VNum 1) ] ]);
    [ reflexivity
    | repeat (apply Forall_cons_2; [ reflexivity | ]); apply Forall_nil_2 ].
Defined.

(** X13.  The assembler returns exactly when the config can be read,
    [buttons] is an array and none of its items is [null] or [undefined];
    otherwise it throws a [TypeError].  It checks nothing else: an empty
    body or an empty list of buttons is assembled as it is. *)
Theorem assembler_returns_iff (config buttons : value) :
  let readable :=
    nullish config = false /\
    exists bs, buttons = VArr bs /\ Forall (fun b => nullish b = false) bs in
  ((exists envelope, buildMessageContent config buttons = Returns envelope)
   <-> readable) /\
  (buildMessageContent config buttons = Throws TypeError <-> ~ readable).
Proof.
  intros readable.
  assert (Hret : (exists envelope,
                     buildMessageContent config buttons = Returns envelope)
                 <-> readable).
  { split.
    - intros [envelope He].
      destruct buttons as [ | | | | | | | bs ]; try discriminate He.
      destruct (readable_or_not bs) as [Hbs | Hbs].
      + split; [ | eauto ].
        destruct (nullish config) eqn:Hc; [ | reflexivity ].
        unfold buildMessageContent, array_map in He.
        rewrite map_items_project_exact in He by exact Hbs.
        destruct config; try discriminate Hc; discriminate He.
      + unfold buildMessageContent, array_map in He.
        rewrite map_items_project_unreadable in He by exact Hbs.
        discriminate He.
    - intros (Hc & bs & -> & Hbs).
      rewrite (buildMessageContent_exact config bs Hc Hbs). eauto. }
  split; [ exact Hret | ].
  rewrite <- Hret. split.
  - intros H [envelope He]. congruence.
  - intros H. destruct (buildMessageContent config buttons) as [envelope | e].
    + destruct H. eauto.
    + destruct e. reflexivity.
Qed.

(** X14.  Normalizer and assembler compose without loss on legacy input:
    when every entry is converted by one of the two legacy rules, the
    [buttons] of the envelope are exactly the entries that the normalizer
    returned. *)
Theorem legacy_buttons_reach_envelope (config : value) (x : list value) :
  nullish config = false ->
  Forall (fun b => both_truthy b "name" "buttonParamsJson" = false /\
                   (both_truthy b "id" "title"
                    || both_truthy b "buttonId" "buttonText") = true) x ->
  exists (y : list value) (envelope nativeFlow : value),
    buildInteractiveButtons (VArr x) = Returns y /\
    buildMessageContent config (VArr y) = Returns envelope /\
    field (field envelope "interactive") "nativeFlow" = nativeFlow /\
    field nativeFlow "buttons" = VArr y.
Proof.
  intros Hc Hx.
  assert (Hy : Forall (fun c => nullish c = false /\ project c = c)
                 (List.map normalized x)).
  { induction Hx as [ | b x [H1 H2] _ IH ]; cbn; constructor; [ | exact IH ].
    destruct (normalized_shape b) as [[_ [H | [H3 H4]]] | (t & json & _ & -> & _)].
    - congruence.
    - rewrite H3, H4 in H2. discriminate H2.
    - split; reflexivity. }
  exists (List.map normalized x). eexists _, _.
  split; [ apply buildInteractiveButtons_returns | ].
  assert (Hr : Forall (fun c => nullish c = false) (List.map normalized x)).
  { eapply Forall_impl; [ exact Hy | ]. intros c [H _]. exact H. }
  rewrite (buildMessageContent_exact config (List.map normalized x) Hc Hr).
  split; [ reflexivity | ]. split; [ reflexivity | ].
  cbn. f_equal. change (List.map project (List.map normalized x)
                         = List.map normalized x).
  clear Hx Hr. induction Hy as [ | c y [_ Hc'] _ IH ]; cbn; [ reflexivity | ].
  rewrite Hc', IH. reflexivity.
Qed.

Lemma legacy_buttons_reach_envelope_witness :
  exists (y : list value) (envelope nativeFlow : value),
    buildInteractiveButtons
      (VArr [ VObj [ ("id", VStr "accept"); ("title", VStr "Accept") ];
              VObj [ ("buttonId", VStr "b");
                     ("buttonText",
                      VObj [ ("displayText", VStr "Old") ]) ] ])
    = Returns y /\
    buildMessageContent (VObj [ ("body", VStr "Confirm?") ]) (VArr y)
    = Returns envelope /\
    field (field envelope "interactive") "nativeFlow" = nativeFlow /\
    field nativeFlow "buttons" = VArr y.
Proof.
  apply (legacy_buttons_reach_envelope (VObj [ ("body", VStr "Confirm?") ])
           [ VObj [ ("id", VStr "accept"); ("title", VStr "Accept") ];
             VObj [ ("buttonId", VStr "b");
                    ("buttonText", VObj [ ("displayText", VStr "Old") ]) ] ]);
    [ reflexivity
    | repeat (apply Forall_cons_2; [ split; reflexivity | ]);
      apply Forall_nil_2 ].
Defined.

End AssemblerShape.

(** ** More on [InteractiveValidationError] *)

Section ErrorClass.

Import InteractiveValidationError.

Lemma append_assoc (a b c : string) : (a +:+ b) +:+ c = a +:+ b +:+ c.
Proof.
  induction a as [ | x a IH ]; [ reflexivity | ].
  change (String x ((a +:+ b) +:+ c) = String x (a +:+ b +:+ c)).
  rewrite IH. reflexivity.
Qed.

Lemma fold_join (sep : string) (items : list string) (first : string) :
  List.fold_left (fun acc c => acc +:+ sep +:+ c) items first
  = String.concat sep (first :: items).
Proof.
  revert first. induction items as [ | c items IH ]; intros first.
  - reflexivity.
  - cbn [List.fold_left]. rewrite IH.
    destruct items as [ | c' items ]; cbn [String.concat].
    + reflexivity.
    + rewrite !append_assoc. reflexivity.
Qed.

Lemma addContext_result (h : store) (this : nat)
    (e : InteractiveValidationError.t) (ctx : string) :
  h !! this = Some e ->
  exists (next : nat) (h' : store),
    addContext this ctx h = Some (next, h') /\
    h' !! next =
      Some (constructed (message e +:+ " in " +:+ ctx)
              (context e +:+ " -> " +:+ ctx) (errors e) (warnings e)
              (example e)) /\
    (forall l o, h !! l = Some o -> h' !! l = Some o).
Proof.
  intros H. unfold addContext, new_InteractiveValidationError.
  rewrite H. cbn.
  eexists _, _. split; [ reflexivity | ].
  split; [ apply lookup_insert_eq | ].
  intros l o Hl. rewrite lookup_insert_ne; [ exact Hl | ].
  intros <-. apply (is_fresh (dom h)), elem_of_dom. eauto.
Qed.

(** X15.  Contexts accumulate along a chain of [addContext] calls: after
    [e.addContext(c1)...addContext(cn)] the last error's context is the
    original context and [c1 ... cn] joined by [" -> "], its message is
    the original message and [c1 ... cn] joined by [" in "], and its
    errors, warnings and example are those of [e]; [e] and every other
    error that existed before the chain are unchanged. *)
Theorem addContext_chain (contexts : list string) (h : store) (this : nat)
    (e : InteractiveValidationError.t) :
  h !! this = Some e ->
  exists (last : nat) (h' : store) (e' : InteractiveValidationError.t),
    addContexts this contexts h = Some (last, h') /\
    h' !! last = Some e' /\
    context e' = String.concat " -> " (context e :: contexts) /\
    message e' = String.concat " in " (message e :: contexts) /\
    errors e' = errors e /\
    warnings e' = warnings e /\
    example e' = example e /\
    (forall l o, h !! l = Some o -> h' !! l = Some o).
Proof.
  rewrite <- !fold_join.
  revert h this e. induction contexts as [ | c contexts IH ]; intros h this e H.
  - exists this, h, e. cbn. repeat split; auto.
  - destruct (addContext_result h this e c H) as (next & h1 & Hadd & Hnext & Hkeep).
    destruct (IH h1 next _ Hnext)
      as (last & h' & e' & Hrun & Hlast & Hc & Hm & He & Hw & Hx & Hkeep').
    exists last, h', e'. cbn [addContexts]. rewrite Hadd.
    repeat split; auto.
Qed.

Lemma addContext_chain_witness :
  let e := constructed "Invalid" "validate" [] [] VUndefined in
  let h : store := {[ 0%nat := e ]} in
  exists (last : nat) (h' : store) (e' : InteractiveValidationError.t),
    addContexts 0%nat [ "send"; "handler" ] h = Some (last, h') /\
    h' !! last = Some e' /\
    context e' = "validate -> send -> handler" /\
    message e' = "Invalid in send in handler" /\
    errors e' = [] /\
    warnings e' = [] /\
    example e' = VUndefined /\
    (forall l o, h !! l = Some o -> h' !! l = Some o).
Proof.
  intros e h.
  apply (addContext_chain [ "send"; "handler" ] h 0%nat e).
  apply lookup_singleton_eq.
Defined.

(** *** [createButtonValidationError] *)

Lemma missingFields_nil (requiredFields providedFields : list string) :
  missingFields requiredFields providedFields = [] <->
  (forall f, In f requiredFields -> In f providedFields).
Proof.
  unfold missingFields.
  induction requiredFields as [ | f fs IH ]; cbn.
  - split; [ intros _ f [] | reflexivity ].
  - destruct (existsb (String.eqb f) providedFields) eqn:E; cbn.
    + rewrite IH. apply List.existsb_exists in E.
      destruct E as (g & Hg & Hfg). apply String.eqb_eq in Hfg. subst g.
      split.
      * intros H g [<- | Hin]; auto.
      * intros H g Hin. apply H. auto.
    + split; [ discriminate | ].
      intros H. assert (Hf : In f providedFields) by (apply H; auto).
      assert (existsb (String.eqb f) providedFields = true).
      { apply List.existsb_exists. exists f.
        split; [ exact Hf | apply String.eqb_refl ]. }
      congruence.
Qed.

(** X16.  [createButtonValidationError] reports one error per required
    field that is not among the provided ones, in the order of
    [requiredFields]: the paths are [button.<field>], the expected values
    the field names, the warnings empty.  The list of errors is empty
    exactly when every required field is provided; an error object is
    created even then, and the errors that existed before are
    unchanged. *)
Theorem created_errors_are_the_missing_fields (buttonType : string)
    (requiredFields providedFields : list string) (h : store) :
  exists (e : InteractiveValidationError.t),
    snd (createButtonValidationError buttonType requiredFields
           providedFields h)
    !! fst (createButtonValidationError buttonType requiredFields
              providedFields h) = Some e /\
    context e = "button_validation" /\
    List.map ValidationError.path (errors e) =
      List.map (fun f => "button." +:+ f)
        (missingFields requiredFields providedFields) /\
    List.map ValidationError.expected (errors e) =
      missingFields requiredFields providedFields /\
    warnings e = [] /\
    (errors e = [] <->
     forall f, In f requiredFields -> In f providedFields) /\
    (forall l o,
        h !! l = Some o ->
        snd (createButtonValidationError buttonType requiredFields
               providedFields h) !! l = Some o).
Proof.
  unfold createButtonValidationError, new_InteractiveValidationError.
  cbn [fst snd]. eexists. split; [ apply lookup_insert_eq | ].
  cbn [context errors warnings].
  split; [ reflexivity | ].
  split; [ rewrite List.map_map; reflexivity | ].
  split; [ rewrite List.map_map; apply List.map_id | ].
  split; [ reflexivity | ].
  split.
  - rewrite <- missingFields_nil.
    destruct (missingFields requiredFields providedFields); cbn;
      split; try reflexivity; discriminate.
  - intros l o Hl. rewrite lookup_insert_ne; [ exact Hl | ].
    intros <-. apply (is_fresh (dom h)), elem_of_dom. eauto.
Qed.

(** *** The example payload *)

Lemma lookup_set_field (k k' : string) (v : value)
    (fs : list (string * value)) :
  lookup_field k (set_field k' v fs) =
  if String.eqb k k' then v else lookup_field k fs.
Proof.
  induction fs as [ | [k0 v0] fs IH ]; cbn.
  - destruct (String.eqb k k'); reflexivity.
  - destruct (String.eqb_spec k' k0) as [-> | Hne]; cbn.
    + destruct (String.eqb k k0); reflexivity.
    + destruct (String.eqb_spec k k0) as [-> | Hne'].
      * destruct (String.eqb_spec k0 k'); [ congruence | reflexivity ].
      * exact IH.
Qed.

Lemma keys_set_field (k k' : string) (v : value)
    (fs : list (string * value)) :
  existsb (String.eqb k) (List.map fst (set_field k' v fs)) =
  String.eqb k k' || existsb (String.eqb k) (List.map fst fs).
Proof.
  induction fs as [ | [k0 v0] fs IH ]; cbn.
  - reflexivity.
  - destruct (String.eqb_spec k' k0) as [-> | Hne]; cbn.
    + destruct (String.eqb k k0); reflexivity.
    + rewrite IH. destruct (String.eqb k k0), (String.eqb k k'); reflexivity.
Qed.

Lemma spread_lookup (g : string -> value) (k : string)
    (obj base : list (string * value)) :
  Forall (fun kv => snd kv = g (fst kv)) obj ->
  lookup_field k (spread base obj) =
  if existsb (String.eqb k) (List.map fst obj) then g k
  else lookup_field k base.
Proof.
  unfold spread. intros H. revert base.
  induction H as [ | [k0 v0] obj Hkv _ IH ]; intros base; [ reflexivity | ].
  cbn in *. rewrite IH, lookup_set_field.
  destruct (String.eqb_spec k k0) as [-> | Hne]; cbn.
  - subst v0. destruct (existsb (String.eqb k0) (List.map fst obj)); reflexivity.
  - reflexivity.
Qed.

Lemma set_field_Forall (P : string * value -> Prop) (k : string) (v : value)
    (fs : list (string * value)) :
  P (k, v) -> Forall P fs -> Forall P (set_field k v fs).
Proof.
  intros Hkv H. induction H as [ | [k0 v0] fs H0 Hfs IH ]; cbn.
  - repeat constructor. exact Hkv.
  - destruct (String.eqb_spec k k0) as [-> | Hne];
      constructor; assumption.
Qed.

Lemma example_step_placeholders (acc : list (string * value)) (f : string) :
  Forall (fun kv => snd kv = lookup_field (fst kv) placeholders) acc ->
  Forall (fun kv => snd kv = lookup_field (fst kv) placeholders)
    (example_step acc f).
Proof.
  intros H. unfold example_step.
  repeat match goal with
         | |- context [String.eqb f ?lit] => destruct (String.eqb f lit)
         end;
    repeat (apply set_field_Forall; [ reflexivity | ]); exact H.
Qed.

Lemma example_fields_placeholders (requiredFields : list string)
    (acc : list (string * value)) :
  Forall (fun kv => snd kv = lookup_field (fst kv) placeholders) acc ->
  Forall (fun kv => snd kv = lookup_field (fst kv) placeholders)
    (List.fold_left example_step requiredFields acc).
Proof.
  revert acc. induction requiredFields as [ | f fs IH ]; intros acc H.
  - exact H.
  - cbn. apply IH, example_step_placeholders, H.
Qed.

Lemma keys_example_step (k : string) (acc : list (string * value))
    (f : string) :
  existsb (String.eqb k) (List.map fst (example_step acc f)) =
  (String.eqb k f && existsb (String.eqb k) (List.map fst placeholders))
  || existsb (String.eqb k) (List.map fst acc).
Proof.
  unfold example_step, placeholders. cbn [List.map fst existsb].
  repeat match goal with
         | |- context [String.eqb f ?lit] =>
             destruct (String.eqb_spec f lit) as [-> | ?]
         end;
    rewrite ?keys_set_field;
    repeat match goal with
           | |- context [String.eqb k ?lit] =>
               destruct (String.eqb_spec k lit) as [-> | ?]
           end;
    cbn; try reflexivity; try congruence.
  repeat match goal with
         | |- context [String.eqb f ?lit] =>
             destruct (String.eqb_spec f lit) as [-> | ?]
         end;
    cbn; try reflexivity; congruence.
Qed.

Lemma keys_example_fields (k : string) (requiredFields : list string)
    (acc : list (string * value)) :
  existsb (String.eqb k)
    (List.map fst (List.fold_left example_step requiredFields acc)) =
  (existsb (String.eqb k) requiredFields
   && existsb (String.eqb k) (List.map fst placeholders))
  || existsb (String.eqb k) (List.map fst acc).
Proof.
  revert acc. induction requiredFields as [ | f fs IH ]; intros acc.
  - reflexivity.
  - cbn [List.fold_left existsb]. rewrite IH, keys_example_step.
    destruct (String.eqb k f), (existsb (String.eqb k) fs),
      (existsb (String.eqb k) (List.map fst placeholders)),
      (existsb (String.eqb k) (List.map fst acc)); reflexivity.
Qed.

(** What a read of the example payload yields. *)
Lemma button_example_field (buttonType : string)
    (requiredFields : list string) (k : string) :
  field (button_example buttonType requiredFields) k =
  if existsb (String.eqb k) requiredFields
     && existsb (String.eqb k) (List.map fst placeholders)
  then lookup_field k placeholders
  else lookup_field k [ ("type", VStr buttonType); ("id", VStr "button_id");
                        ("title", VStr "Button Title") ].
Proof.
  unfold button_example, field.
  rewrite (spread_lookup (fun k => lookup_field k placeholders))
    by (apply example_fields_placeholders; constructor).
  rewrite keys_example_fields. cbn [List.map existsb]. rewrite orb_false_r.
  reflexivity.
Qed.

Lemma button_example_violations (buttonType : string)
    (requiredFields : list string) :
  Spec.rule_violations (button_example buttonType requiredFields) =
  if String.eqb buttonType "cta_url"
  then Spec.violated (existsb (String.eqb "url") requiredFields)
  else if String.eqb buttonType "cta_call"
  then Spec.violated (existsb (String.eqb "phoneNumber") requiredFields)
  else if String.eqb buttonType "cta_copy"
  then Spec.violated (existsb (String.eqb "copyText") requiredFields)
  else 0%nat.
Proof.
  assert (F : exists has : string -> bool,
             (forall k, has k = existsb (String.eqb k) requiredFields) /\
             (forall k,
                 field (button_example buttonType requiredFields) k =
                 if has k && existsb (String.eqb k) (List.map fst placeholders)
                 then lookup_field k placeholders
                 else lookup_field k
                        [ ("type", VStr buttonType); ("id", VStr "button_id");
                          ("title", VStr "Button Title") ])).
  { exists (fun k => existsb (String.eqb k) requiredFields).
    split; [ reflexivity | apply button_example_field ]. }
  destruct F as (has & Hhas & F). rewrite <- !Hhas. clear Hhas.
  unfold Spec.rule_violations, Spec.type_rule.
  rewrite getButtonType_returns. unfold classify_by, classifier_table.
  change (is_object (button_example buttonType requiredFields)) with true.
  cbv iota. cbn [List.find fst snd]. rewrite !F.
  cbn [List.map fst existsb placeholders lookup_field String.eqb Ascii.eqb
       Bool.eqb orb andb].
  rewrite ?andb_false_r, ?andb_true_r. cbv iota.
  unfold Spec.type_rules.
  destruct (String.eqb_spec buttonType "") as [-> | Hne].
  - destruct (has "url") eqn:Eu;
      [ cbn [truthy negb String.eqb Ascii.eqb Bool.eqb List.find fst snd];
        rewrite F, Eu; vm_compute; reflexivity | ].
    destruct (has "copyText") eqn:Ec;
      [ cbn [truthy negb String.eqb Ascii.eqb Bool.eqb List.find fst snd];
        rewrite F, Ec; vm_compute; reflexivity | ].
    destruct (has "phoneNumber") eqn:Ep;
      [ cbn [truthy negb String.eqb Ascii.eqb Bool.eqb List.find fst snd];
        rewrite F, Ep; vm_compute; reflexivity | ].
    destruct (has "catalogLink"), (has "reminderText"), (has "addressId"),
      (has "options"); vm_compute; reflexivity.
  - assert (Ht : truthy (VStr buttonType) = true).
    { cbn. apply negb_true_iff, String.eqb_neq, Hne. }
    rewrite Ht. cbn [List.find fst snd].
    destruct (String.eqb buttonType "cta_url");
      [ rewrite F; destruct (has "url"); vm_compute; reflexivity | ].
    destruct (String.eqb buttonType "cta_call");
      [ rewrite F; destruct (has "phoneNumber"); vm_compute; reflexivity | ].
    destruct (String.eqb buttonType "cta_copy");
      [ rewrite F; destruct (has "copyText"); vm_compute; reflexivity | ].
    vm_compute. reflexivity.
Qed.

Lemma button_example_checkable (buttonType : string)
    (requiredFields : list string) :
  checkable (button_example buttonType requiredFields) = true.
Proof.
  unfold checkable.
  assert (Hcv : convertible
                  (field (button_example buttonType requiredFields)
                     "phoneNumber") = true).
  { rewrite button_example_field.
    destruct (existsb (String.eqb "phoneNumber") requiredFields); reflexivity. }
  rewrite Hcv, orb_true_r. reflexivity.
Qed.

(** X17.  The example payload that [createButtonValidationError] attaches
    is itself a button that the validator accepts, provided the required
    fields name the field that the validator checks for that type: for
    every config with a valid body, the message made of the example alone
    is valid exactly when [url] is required for [cta_url], [phoneNumber]
    for [cta_call] and [copyText] for [cta_copy].  For every other type the
    example is always accepted. *)
Theorem button_example_accepted (buttonType : string)
    (requiredFields : list string) (config : value) :
  nullish config = false ->
  Spec.nonempty_string (field config "body") = true ->
  exists r : ValidationResult,
    validateInteractiveMessage config
      (VArr [ button_example buttonType requiredFields ]) = Returns r /\
    (isValid r = true <->
     (buttonType = "cta_url" -> In "url" requiredFields) /\
     (buttonType = "cta_call" -> In "phoneNumber" requiredFields) /\
     (buttonType = "cta_copy" -> In "copyText" requiredFields)).
Proof.
  intros Hc Hbody.
  assert (Hex : Forall (fun b => checkable b = true)
                  [ button_example buttonType requiredFields ]).
  { apply Forall_cons_2;
      [ apply button_example_checkable | apply Forall_nil_2 ]. }
  rewrite validateInteractiveMessage_exact by assumption.
  eexists. split; [ reflexivity | ]. cbn [isValid].
  rewrite Hbody. cbn [app errors_from]. rewrite app_nil_r.
  rewrite Nat.eqb_eq, button_errors_count by apply button_example_checkable.
  rewrite button_example_violations.
  rewrite <- !existsb_eqb_In.
  destruct (String.eqb_spec buttonType "cta_url") as [-> | H1];
    [ | destruct (String.eqb_spec buttonType "cta_call") as [-> | H2];
        [ | destruct (String.eqb_spec buttonType "cta_copy") as [-> | H3] ] ].
  - destruct (existsb (String.eqb "url") requiredFields); cbn.
    + repeat split; auto; discriminate.
    + split; [ discriminate | ]. intros (H & _). discriminate (H eq_refl).
  - destruct (existsb (String.eqb "phoneNumber") requiredFields); cbn.
    + repeat split; auto; discriminate.
    + split; [ discriminate | ]. intros (_ & H & _). discriminate (H eq_refl).
  - destruct (existsb (String.eqb "copyText") requiredFields); cbn.
    + repeat split; auto; discriminate.
    + split; [ discriminate | ]. intros (_ & _ & H). discriminate (H eq_refl).
  - split; [ | reflexivity ]. intros _. repeat split; intros E; congruence.
Qed.

Lemma button_example_accepted_witness :
  exists r : ValidationResult,
    validateInteractiveMessage (VObj [ ("body", VStr "x") ])
      (VArr [ button_example "cta_call" [ "phoneNumber" ] ]) = Returns r /\
    (isValid r = true <->
     ("cta_call" = "cta_url" -> In "url" [ "phoneNumber" ]) /\
     ("cta_call" = "cta_call" -> In "phoneNumber" [ "phoneNumber" ]) /\
     ("cta_call" = "cta_copy" -> In "copyText" [ "phoneNumber" ])).
Proof.
  apply (button_example_accepted "cta_call" [ "phoneNumber" ]
           (VObj [ ("body", VStr "x") ])); reflexivity.
Defined.

End ErrorClass.

(** ** The senders *)

Section Senders.

Import Send.

Lemma run_bind {A B : Type} (w : world) (p : prog A) (k : A -> prog B)
    (log : list call) :
  run w (p ≫= k) log =
  match run w p log with
  | (Fulfilled a, log') => run w (k a) log'
  | (Rejected r, log') => (Rejected r, log')
  end.
Proof.
  revert log. unfold mbind, prog_mbind.
  induction p as [ a | r | s c IH | m j c o c' IH | s j c o c' IH ];
    intros log; cbn; auto.
Qed.

Lemma run_importBaileysModules (w : world) (log : list call) :
  run w importBaileysModules log =
  (Fulfilled (imported_modules w log), log ++ import_calls).
Proof.
  unfold importBaileysModules, imported_modules, import_calls, try_import.
  cbn.
  destruct (on_import w log "baileys"); cbn;
    destruct (on_import w (log ++ [ Imported "baileys" ])
                "@whiskeysockets/baileys"); cbn;
    destruct (on_import w ((log ++ [ Imported "baileys" ])
                           ++ [ Imported "@whiskeysockets/baileys" ])
                "@adiwajshing/baileys");
    cbn; rewrite <- !app_assoc; reflexivity.
Qed.

Lemma normalized_readable (b : value) :
  nullish b = false -> nullish (normalized b) = false.
Proof.
  intros Hb. unfold normalized. rewrite normalize_entry_cases.
  repeat match goal with
         | |- context [if ?c then _ else _] => destruct c
         end; auto.
Qed.

Lemma validator_valid_iff (config : value) (bs : list value) (r : ValidationResult) :
  nullish config = false ->
  Forall (fun b => checkable b = true) bs ->
  validateInteractiveMessage config (VArr bs) = Returns r ->
  (isValid r = true <-> acceptable config bs) /\
  warnings r = [].
Proof.
  intros Hc Hbs Hr.
  rewrite validateInteractiveMessage_exact in Hr by assumption.
  injection Hr as <-. split; [ | reflexivity ]. cbn [isValid].
  rewrite Nat.eqb_eq, !List.length_app, errors_from_length by exact Hbs.
  unfold acceptable.
  assert (Hz : sum_list (List.map Spec.rule_violations bs) = 0%nat <->
               Forall (fun b => nullish b = false /\
                                Spec.rule_violations b = 0%nat) bs).
  { rewrite sum_list_map_zero, !Forall_forall. split.
    - intros H b Hb.
      split; [ apply checkable_readable, (proj1 (Forall_forall _ bs) Hbs) | ];
        auto.
    - intros H b Hb. apply H, Hb. }
  rewrite <- Hz.
  destruct (Spec.nonempty_string (field config "body")), bs; cbn;
    split; try lia; try (intros (H0 & H1 & H2 & H3); congruence).
  intros H. repeat split; auto; try lia.
Qed.

Lemma validateInteractiveMessage_returns_inv (config buttons : value)
    (r : ValidationResult) :
  validateInteractiveMessage config buttons = Returns r ->
  nullish config = false /\
  exists bs, buttons = VArr bs /\ Forall (fun b => checkable b = true) bs.
Proof.
  intros Hr. destruct (nullish config) eqn:Hc.
  { destruct config; try discriminate Hc; discriminate Hr. }
  split; [ reflexivity | ].
  destruct (isArray buttons) eqn:Ha.
  - destruct buttons as [ | | | | | | | bs ]; try discriminate Ha.
    exists bs. split; [ reflexivity | ].
    destruct (checkable_or_not bs) as [H | H]; [ exact H | ].
    unfold validateInteractiveMessage, forEach in Hr.
    rewrite (get_field config) in Hr by exact Hc.
    unfold mbind at 1, completion_bind at 1 in Hr.
    rewrite forEach_from_uncheckable in Hr by exact H. discriminate Hr.
  - rewrite validateInteractiveMessage_throws_without_array_general in Hr
      by exact Ha. discriminate Hr.
Qed.

Lemma acceptable_readable (config : value) (bs : list value) :
  acceptable config bs -> Forall (fun b => nullish b = false) bs.
Proof.
  intros (_ & _ & _ & H). eapply Forall_impl; [ exact H | ].
  intros b [Hb _]. exact Hb.
Qed.

Lemma rule_abiding_checkable (b : value) :
  nullish b = false -> Spec.rule_violations b = 0%nat -> checkable b = true.
Proof.
  intros Hn Hz. unfold checkable. rewrite Hn, classified_eq. cbn [negb andb].
  destruct (strict_eq_str (classify_by truthy b) "cta_call") eqn:Hcall;
    [ | reflexivity ].
  apply strict_eq_str_iff in Hcall.
  unfold Spec.rule_violations, Spec.type_rule in Hz.
  rewrite getButtonType_returns, Hcall in Hz.
  cbn [List.find Spec.type_rules fst snd String.eqb Ascii.eqb Bool.eqb] in Hz.
  unfold convertible. unfold Spec.phone_rule in Hz. cbn [negb orb].
  destruct (to_string (field b "phoneNumber")); [ reflexivity | ].
  unfold Spec.violated in Hz.
  destruct (Spec.id_rule (field b "id")),
    (Spec.nonempty_string (field b "title")); discriminate Hz.
Qed.

Lemma acceptable_checkable (config : value) (bs : list value) :
  acceptable config bs -> Forall (fun b => checkable b = true) bs.
Proof.
  intros (_ & _ & _ & H). eapply Forall_impl; [ exact H | ].
  intros b [Hb Hz]. apply rule_abiding_checkable; assumption.
Qed.

Lemma toJSON_constructed (r : ValidationResult) (message context : string) :
  isValid r = false ->
  toJSON (constructed message context (errors r) (warnings r) VUndefined)
  = (r, VUndefined).
Proof. destruct r as [v es ws]. cbn. intros ->. reflexivity. Qed.

(** X18.  [sendInteractiveButtonsBasic] sends nothing that the validator
    rejects.  On a readable config and buttons that the validator can
    check and that are not acceptable, the call is rejected with an [InteractiveValidationError]
    whose context is [sendInteractiveButtonsBasic] and which carries every
    error of the validator (at least one), so that its [toJSON] is the
    validator's result; no module is imported and nothing is relayed. *)
Theorem basic_rejects_what_validator_rejects (socket : handle)
    (jid config : value) (bs : list value) :
  nullish config = false ->
  Forall (fun b => checkable b = true) bs ->
  ~ acceptable config bs ->
  exists (r : ValidationResult) (e : InteractiveValidationError.t),
    validateInteractiveMessage config (VArr bs) = Returns r /\
    errors r <> [] /\
    InteractiveValidationError.errors e = errors r /\
    InteractiveValidationError.context e = "sendInteractiveButtonsBasic" /\
    toJSON e = (r, VUndefined) /\
    forall (w : world) (log : list call),
      run w
        (sendInteractiveButtonsBasic
           {| basic_socket := socket; basic_jid := jid;
              basic_config := config; basic_buttons := VArr bs |}) log
      = (Rejected (ValidationFailed e), log).
Proof.
  intros Hc Hbs Hno.
  destruct (validateInteractiveMessage config (VArr bs)) as [r | x] eqn:Hr;
    [ | rewrite validateInteractiveMessage_exact in Hr by assumption;
        discriminate Hr ].
  destruct (validator_valid_iff config bs r Hc Hbs Hr) as [Hiff Hw].
  assert (Hv : isValid r = false).
  { destruct (isValid r); [ destruct Hno; apply Hiff; reflexivity | reflexivity ]. }
  exists r. eexists. split; [ reflexivity | ].
  split.
  { intros He. rewrite validateInteractiveMessage_exact in Hr by assumption.
    injection Hr as <-. cbn [isValid errors] in *. rewrite He in Hv.
    discriminate Hv. }
  split; [ | split; [ | split ] ].
  4: { intros w log. unfold sendInteractiveButtonsBasic. cbn [basic_config
         basic_buttons basic_socket basic_jid]. rewrite Hr. cbn. rewrite Hv.
       cbn. reflexivity. }
  - reflexivity.
  - reflexivity.
  - apply toJSON_constructed, Hv.
Qed.

Lemma basic_rejects_what_validator_rejects_witness :
  exists (r : ValidationResult) (e : InteractiveValidationError.t),
    validateInteractiveMessage (VObj [ ("body", VStr "") ])
      (VArr [ VObj [ ("id", VStr "a"); ("title", VStr "A") ] ]) = Returns r /\
    errors r <> [] /\
    InteractiveValidationError.errors e = errors r /\
    InteractiveValidationError.context e = "sendInteractiveButtonsBasic" /\
    toJSON e = (r, VUndefined) /\
    forall (w : world) (log : list call),
      run w
        (sendInteractiveButtonsBasic
           {| basic_socket := 0%nat; basic_jid := VStr "1@s.whatsapp.net";
              basic_config := VObj [ ("body", VStr "") ];
              basic_buttons :=
                VArr [ VObj [ ("id", VStr "a"); ("title", VStr "A") ] ] |})
        log
      = (Rejected (ValidationFailed e), log).
Proof.
  apply (basic_rejects_what_validator_rejects 0%nat (VStr "1@s.whatsapp.net")
           (VObj [ ("body", VStr "") ])
           [ VObj [ ("id", VStr "a"); ("title", VStr "A") ] ]);
    [ reflexivity
    | repeat (apply Forall_cons_2; [ reflexivity | ]); apply Forall_nil_2
    | intros (_ & H & _); discriminate H ].
Defined.

Lemma basic_sends_acceptable_input_general (socket : handle) (jid config : value)
    (bs : list value) :
  acceptable config bs ->
  sendInteractiveButtonsBasic
    {| basic_socket := socket; basic_jid := jid; basic_config := config;
       basic_buttons := VArr bs |}
  = sendInteractiveMessage
      {| Send.socket := socket; Send.jid := jid; Send.config := config;
         Send.buttons := VArr bs; Send.format := VStr "current" |}.
Proof.
  intros Hacc. pose proof (acceptable_readable config bs Hacc) as Hbs.
  pose proof (acceptable_checkable config bs Hacc) as Hck.
  pose proof Hacc as (Hc & _).
  destruct (validateInteractiveMessage config (VArr bs)) as [r | x] eqn:Hr;
    [ | rewrite validateInteractiveMessage_exact in Hr by assumption;
        discriminate Hr ].
  destruct (validator_valid_iff config bs r Hc Hck Hr) as [Hiff _].
  apply Hiff in Hacc.
  unfold sendInteractiveButtonsBasic.
  cbn [basic_config basic_buttons basic_socket basic_jid].
  rewrite Hr. cbn [lift mbind prog_mbind prog_bind]. rewrite Hacc. cbn [negb].
  rewrite buildInteractiveButtons_returns. cbn [lift mbind prog_mbind prog_bind].
  rewrite buildMessageContent_exact;
    [ reflexivity | exact Hc | ].
  apply Forall_forall. intros c Hin.
  apply list_elem_of_In, List.in_map_iff in Hin. destruct Hin as (b & <- & Hb).
  apply normalized_readable.
  apply (proj1 (Forall_forall _ bs) Hbs), list_elem_of_In, Hb.
Qed.

(** X19.  Once the validator has accepted the input, the normalization
    and the assembly that [sendInteractiveButtonsBasic] runs before sending
    cannot fail: on acceptable input the call is exactly
    [sendInteractiveMessage] with the same socket, jid, config and buttons
    and the format [current]. *)
Theorem basic_sends_acceptable_input (socket : handle) (jid config : value)
    (bs : list value) :
  acceptable config bs ->
  sendInteractiveButtonsBasic
    {| basic_socket := socket; basic_jid := jid; basic_config := config;
       basic_buttons := VArr bs |}
  = sendInteractiveMessage
      {| Send.socket := socket; Send.jid := jid; Send.config := config;
         Send.buttons := VArr bs; Send.format := VStr "current" |}.
Proof. exact (basic_sends_acceptable_input_general socket jid config bs). Qed.

Lemma basic_sends_acceptable_input_witness :
  sendInteractiveButtonsBasic
    {| basic_socket := 0%nat; basic_jid := VStr "1@s.whatsapp.net";
       basic_config := VObj [ ("body", VStr "Confirm?") ];
       basic_buttons :=
         VArr [ VObj [ ("id", VStr "accept"); ("title", VStr "Accept") ] ] |}
  = sendInteractiveMessage
      {| Send.socket := 0%nat; Send.jid := VStr "1@s.whatsapp.net";
         Send.config := VObj [ ("body", VStr "Confirm?") ];
         Send.buttons :=
           VArr [ VObj [ ("id", VStr "accept"); ("title", VStr "Accept") ] ];
         Send.format := VStr "current" |}.
Proof.
  apply (basic_sends_acceptable_input 0%nat (VStr "1@s.whatsapp.net")
           (VObj [ ("body", VStr "Confirm?") ])
           [ VObj [ ("id", VStr "accept"); ("title", VStr "Accept") ] ]).
  split; [ reflexivity | ]. split; [ reflexivity | ].
  split; [ discriminate | ].
  repeat (apply Forall_cons_2; [ split; vm_compute; reflexivity | ]).
  apply Forall_nil_2.
Defined.

(** X20.  [sendInteractiveMessage] first asks for the three modules
    [baileys], [@whiskeysockets/baileys] and [@adiwajshing/baileys], in
    this order and whatever its parameters; when none of them can be
    imported the call is rejected with the error "No Baileys module found
    ..." before the config or the buttons are looked at, and nothing is
    generated or relayed. *)
Theorem no_module_no_send (params : SendInteractiveMessageParams)
    (w : world) (log : list call) :
  imported_modules w log = [] ->
  run w (sendInteractiveMessage params) log =
  (Rejected (ErrorThrown no_module_message), log ++ import_calls).
Proof.
  intros H. unfold sendInteractiveMessage.
  rewrite run_bind, run_importBaileysModules, H. reflexivity.
Qed.

Lemma no_module_no_send_witness :
  let w := {| on_import := fun _ _ => None;
              on_generate := fun _ _ _ _ _ => Failed VUndefined;
              on_relay := fun _ _ _ _ _ => Failed VUndefined |} in
  run w
    (sendInteractiveMessage
       {| Send.socket := 0%nat; Send.jid := VStr "1@s.whatsapp.net";
          Send.config := VNull; Send.buttons := VNull;
          Send.format := VUndefined |}) []
  = (Rejected (ErrorThrown no_module_message), [] ++ import_calls).
Proof.
  intros w. apply (no_module_no_send _ w []). reflexivity.
Defined.

(** X21.  With at least one module at hand, a readable config and readable
    buttons, [sendInteractiveMessage] uses the first module that could be
    imported, in the order of the three imports.  It assembles the content
    from the normalized buttons, or from the buttons as they are when the
    format is [legacy], and without validating them; it asks the module for
    a message with the option [ephemeralExpiration: 86400], and relays the
    message's [key] and [message] to the socket.  A failure of the module
    or of the socket rejects the call, and a message that cannot be read
    rejects it with a [TypeError] before anything is relayed. *)
Theorem message_delivery (socket : handle) (jid config format : value)
    (bs : list value) (w : world) (log : list call) (module : handle)
    (others : list handle) :
  imported_modules w log = module :: others ->
  nullish config = false ->
  Forall (fun b => nullish b = false) bs ->
  exists content : value,
    buildMessageContent config
      (VArr (if strict_eq_str format "legacy" then bs
             else List.map normalized bs)) = Returns content /\
    run w
      (sendInteractiveMessage
         {| Send.socket := socket; Send.jid := jid; Send.config := config;
            Send.buttons := VArr bs; Send.format := format |}) log
    = deliver w (log ++ import_calls) module socket jid content.
Proof.
  intros Himp Hc Hbs.
  set (entries := if strict_eq_str format "legacy" then bs
                  else List.map normalized bs).
  assert (He : Forall (fun b => nullish b = false) entries).
  { subst entries. destruct (strict_eq_str format "legacy"); [ exact Hbs | ].
    apply Forall_forall. intros c Hin.
    apply list_elem_of_In, List.in_map_iff in Hin.
    destruct Hin as (b & <- & Hb). apply normalized_readable.
    apply (proj1 (Forall_forall _ bs) Hbs), list_elem_of_In, Hb. }
  pose proof (buildMessageContent_exact config entries Hc He) as Hcontent.
  cbv zeta in Hcontent.
  eexists. split; [ exact Hcontent | ].
  unfold sendInteractiveMessage.
  rewrite run_bind, run_importBaileysModules, Himp.
  cbn [Send.socket Send.jid Send.config Send.buttons Send.format].
  match goal with
  | |- context [lift ?c ≫= _] =>
      assert (Hn : lift c = Done (VArr entries))
  end.
  { subst entries. rewrite buildInteractiveButtons_returns.
    destruct format as [ | | | | | f | | ]; try reflexivity.
    cbn [strict_eq_str]. destruct (String.eqb f "legacy"); reflexivity. }
  rewrite Hn. cbn [mbind prog_mbind prog_bind]. rewrite Hcontent.
  cbn [lift mbind prog_mbind prog_bind run]. unfold deliver.
  destruct (on_generate w (log ++ import_calls) module jid _ _)
    as [message | reason];
    cbn [or_reject mbind prog_mbind prog_bind run]; [ | reflexivity ].
  destruct (nullish message) eqn:Hm.
  - destruct message; try discriminate Hm; reflexivity.
  - rewrite !(get_field message) by exact Hm.
    cbn [lift mbind prog_mbind prog_bind run].
    destruct (on_relay w _ socket jid _ _); reflexivity.
Qed.

Lemma message_delivery_witness :
  let w := {| on_import :=
                fun _ s => if String.eqb s "baileys" then None else Some 7%nat;
              on_generate := fun _ _ _ _ _ => Failed VUndefined;
              on_relay := fun _ _ _ _ _ => Failed VUndefined |} in
  exists content : value,
    buildMessageContent (VObj [ ("body", VStr "Confirm?") ])
      (VArr (List.map normalized
               [ VObj [ ("id", VStr "a"); ("title", VStr "A") ] ]))
    = Returns content /\
    run w
      (sendInteractiveMessage
         {| Send.socket := 0%nat; Send.jid := VStr "1@s.whatsapp.net";
            Send.config := VObj [ ("body", VStr "Confirm?") ];
            Send.buttons :=
              VArr [ VObj [ ("id", VStr "a"); ("title", VStr "A") ] ];
            Send.format := VUndefined |}) []
    = deliver w ([] ++ import_calls) 7%nat 0%nat (VStr "1@s.whatsapp.net")
        content.
Proof.
  intros w.
  apply (message_delivery 0%nat (VStr "1@s.whatsapp.net")
           (VObj [ ("body", VStr "Confirm?") ]) VUndefined
           [ VObj [ ("id", VStr "a"); ("title", VStr "A") ] ] w [] 7%nat
           [ 7%nat ]);
    [ reflexivity | reflexivity
    | repeat (apply Forall_cons_2; [ reflexivity | ]); apply Forall_nil_2 ].
Defined.

(** X22.  Whatever its parameters and whatever the outside answers,
    [sendInteractiveMessage] makes the three imports, then at most one
    call of [generateWAMessageFromContent] and at most one call of
    [relayMessage], in this order; and it is fulfilled only if it relayed
    exactly one message, with the value that the socket answered. *)
Theorem at_most_one_relay (params : SendInteractiveMessageParams)
    (w : world) (log : list call) :
  exists calls : list call,
    snd (run w (sendInteractiveMessage params) log)
    = log ++ import_calls ++ calls /\
    (calls = [] \/
     (exists m j c o, calls = [ Generated m j c o ]) \/
     (exists m j c o s k n,
         calls = [ Generated m j c o; Relayed s j k n ])) /\
    (forall v,
        fst (run w (sendInteractiveMessage params) log) = Fulfilled v ->
        exists m j c o s k n,
          calls = [ Generated m j c o; Relayed s j k n ] /\
          on_relay w (log ++ import_calls ++ [ Generated m j c o ]) s j k n
          = Resolved v).
Proof.
  unfold sendInteractiveMessage.
  rewrite run_bind, run_importBaileysModules.
  destruct (imported_modules w log) as [ | module others ].
  { exists []. rewrite app_nil_r. split; [ reflexivity | ].
    split; [ auto | ]. intros v Hv. discriminate Hv. }
  match goal with
  | |- context [lift ?c ≫= _] => destruct c as [normalizedButtons | []]
  end; cbn [lift mbind prog_mbind prog_bind run].
  2: { exists []. rewrite app_nil_r. split; [ reflexivity | ].
       split; [ auto | ]. intros v Hv. discriminate Hv. }
  destruct (buildMessageContent (Send.config params) normalizedButtons)
    as [content | []]; cbn [lift mbind prog_mbind prog_bind run].
  2: { exists []. rewrite app_nil_r. split; [ reflexivity | ].
       split; [ auto | ]. intros v Hv. discriminate Hv. }
  destruct (on_generate w (log ++ import_calls) module (Send.jid params)
              content (VObj [ ("ephemeralExpiration", VNum 86400) ]))
    as [message | reason] eqn:Hg;
    cbn [or_reject mbind prog_mbind prog_bind run].
  2: { eexists [ _ ]. rewrite <- app_assoc. split; [ reflexivity | ].
       split; [ right; left; eauto | ]. intros v Hv. discriminate Hv. }
  destruct (nullish message) eqn:Hm.
  { eexists [ _ ]. rewrite <- app_assoc.
    destruct message; try discriminate Hm;
      (split; [ reflexivity | ]);
      (split; [ right; left; eauto | ]); intros v Hv; discriminate Hv. }
  rewrite !(get_field message) by exact Hm.
  cbn [lift mbind prog_mbind prog_bind run].
  eexists [ _; _ ]. rewrite <- !app_assoc.
  destruct (on_relay w (log ++ import_calls ++ [ _ ]) _ _ _ _) eqn:Hr;
    cbn [or_reject run fst snd].
  - split; [ reflexivity | ]. split; [ right; right; eauto 10 | ].
    intros v0 Hv. injection Hv as <-. eauto 10.
  - split; [ reflexivity | ]. split; [ right; right; eauto 10 | ].
    intros v0 Hv. discriminate Hv.
Qed.

(** X23.  A fulfilled [sendInteractiveButtonsBasic] means that the input
    passed the validator: whatever the outside answers, the call can only
    be fulfilled when the buttons are an array and config and buttons are
    acceptable. *)
Theorem fulfilled_means_validated (params : SendInteractiveButtonsBasicParams)
    (w : world) (log : list call) (v : value) :
  fst (run w (sendInteractiveButtonsBasic params) log) = Fulfilled v ->
  exists bs : list value,
    basic_buttons params = VArr bs /\
    acceptable (basic_config params) bs.
Proof.
  unfold sendInteractiveButtonsBasic.
  destruct (validateInteractiveMessage (basic_config params)
              (basic_buttons params)) as [r | []] eqn:Hr;
    cbn [lift mbind prog_mbind prog_bind run fst];
    [ | discriminate ].
  destruct (validateInteractiveMessage_returns_inv _ _ _ Hr)
    as (Hc & bs & Hb & Hbs).
  rewrite Hb in Hr.
  destruct (validator_valid_iff _ bs r Hc Hbs Hr) as [Hiff _].
  destruct (isValid r); cbn [negb run fst]; [ | discriminate ].
  intros _. exists bs. split; [ exact Hb | apply Hiff; reflexivity ].
Qed.

Lemma fulfilled_means_validated_witness :
  let w := {| on_import := fun _ _ => Some 1%nat;
              on_generate :=
                fun _ _ _ _ _ =>
                  Resolved (VObj [ ("key", VStr "k"); ("message", VNull) ]);
              on_relay := fun _ _ _ _ _ => Resolved (VStr "sent") |} in
  let params :=
    {| basic_socket := 0%nat; basic_jid := VStr "1@s.whatsapp.net";
       basic_config := VObj [ ("body", VStr "Confirm?") ];
       basic_buttons :=
         VArr [ VObj [ ("id", VStr "accept"); ("title", VStr "Accept") ] ] |} in
  exists bs : list value,
    basic_buttons params = VArr bs /\
    acceptable (basic_config params) bs.
Proof.
  intros w params.
  apply (fulfilled_means_validated params w [] (VStr "sent")).
  vm_compute. reflexivity.
Defined.

(** X24.  When the validator cannot even run, because the config is
    [null] or [undefined], the buttons are not an array or one of them is
    [null] or [undefined], [sendInteractiveButtonsBasic] is rejected with
    the [TypeError] of the validator, and nothing is imported or
    relayed. *)
Theorem basic_rejects_unreadable_input (socket : handle)
    (jid config buttons : value) (w : world) (log : list call) :
  nullish config = true \/
  isArray buttons = false \/
  (exists bs, buttons = VArr bs /\ Exists (fun b => nullish b = true) bs) ->
  run w
    (sendInteractiveButtonsBasic
       {| basic_socket := socket; basic_jid := jid; basic_config := config;
          basic_buttons := buttons |}) log
  = (Rejected TypeErrorThrown, log).
Proof.
  intros H. unfold sendInteractiveButtonsBasic.
  cbn [basic_config basic_buttons].
  destruct (validateInteractiveMessage config buttons) as [r | []] eqn:Hr;
    [ | reflexivity ].
  destruct (validateInteractiveMessage_returns_inv _ _ _ Hr)
    as (Hc & bs & Hb & Hbs).
  destruct H as [H | [H | (bs' & Hb' & H)]].
  - congruence.
  - rewrite Hb in H. discriminate H.
  - rewrite Hb in Hb'. injection Hb' as <-.
    apply Exists_exists in H. destruct H as (b & Hin & Hn).
    rewrite (checkable_readable b (proj1 (Forall_forall _ bs) Hbs b Hin))
      in Hn.
    discriminate Hn.
Qed.

Lemma basic_rejects_unreadable_input_witness :
  let w := {| on_import := fun _ _ => Some 1%nat;
              on_generate := fun _ _ _ _ _ => Failed VUndefined;
              on_relay := fun _ _ _ _ _ => Failed VUndefined |} in
  run w
    (sendInteractiveButtonsBasic
       {| basic_socket := 0%nat; basic_jid := VStr "1@s.whatsapp.net";
          basic_config := VObj [ ("body", VStr "x") ];
          basic_buttons := VNull |}) []
  = (Rejected TypeErrorThrown, []).
Proof.
  intros w.
  apply (basic_rejects_unreadable_input 0%nat (VStr "1@s.whatsapp.net")
           (VObj [ ("body", VStr "x") ]) VNull w []).
  right. left. reflexivity.
Defined.

(** X25.  [sendButtons] wraps body and footer in a config of its own, so
    the config is always readable: on buttons that the validator can check
    the call either is
    rejected with the validator's errors or goes on to
    [sendInteractiveMessage] with the config [{body, footer}] and the
    format [current].  A body that is not a non-empty string is always
    rejected, and the body error comes first. *)
Theorem sendButtons_validates_body (socket : handle)
    (jid body footer : value) (bs : list value) :
  Forall (fun b => checkable b = true) bs ->
  let config := VObj [ ("body", body); ("footer", footer) ] in
  exists r : ValidationResult,
    validateInteractiveMessage config (VArr bs) = Returns r /\
    sendButtons socket jid (VArr bs) body footer =
      (if isValid r then
         sendInteractiveMessage
           {| Send.socket := socket; Send.jid := jid; Send.config := config;
              Send.buttons := VArr bs; Send.format := VStr "current" |}
       else
         Reject
           (ValidationFailed
              (constructed "Invalid interactive message configuration"
                 "sendInteractiveButtonsBasic" (errors r) [] VUndefined))) /\
    (Spec.nonempty_string body = false ->
     isValid r = false /\
     exists rest, errors r = body_error body :: rest).
Proof.
  intros Hbs config.
  assert (Hc : nullish config = false) by reflexivity.
  destruct (validateInteractiveMessage config (VArr bs)) as [r | x] eqn:Hr;
    [ | rewrite validateInteractiveMessage_exact in Hr by assumption;
        discriminate Hr ].
  destruct (validator_valid_iff config bs r Hc Hbs Hr) as [Hiff Hw].
  exists r. split; [ reflexivity | ]. split.
  - unfold sendButtons. fold config.
    destruct (isValid r) eqn:Hv.
    + apply basic_sends_acceptable_input_general, Hiff. reflexivity.
    + unfold sendInteractiveButtonsBasic.
      cbn [basic_config basic_buttons basic_socket basic_jid].
      rewrite Hr. cbn [lift mbind prog_mbind prog_bind]. rewrite Hv, Hw.
      reflexivity.
  - intros Hbody.
    rewrite validateInteractiveMessage_exact in Hr by assumption.
    injection Hr as <-. cbn [isValid errors].
    change (field config "body") with body. rewrite Hbody.
    split; [ reflexivity | ]. cbn [app]. eauto.
Qed.

Lemma sendButtons_validates_body_witness :
  let config := VObj [ ("body", VStr ""); ("footer", VUndefined) ] in
  exists r : ValidationResult,
    validateInteractiveMessage config (VArr []) = Returns r /\
    sendButtons 0%nat (VStr "1@s.whatsapp.net") (VArr []) (VStr "")
      VUndefined =
      (if isValid r then
         sendInteractiveMessage
           {| Send.socket := 0%nat; Send.jid := VStr "1@s.whatsapp.net";
              Send.config := config; Send.buttons := VArr [];
              Send.format := VStr "current" |}
       else
         Reject
           (ValidationFailed
              (constructed "Invalid interactive message configuration"
                 "sendInteractiveButtonsBasic" (errors r) [] VUndefined))) /\
    (Spec.nonempty_string (VStr "") = false ->
     isValid r = false /\
     exists rest, errors r = body_error (VStr "") :: rest).
Proof.
  apply (sendButtons_validates_body 0%nat (VStr "1@s.whatsapp.net")
           (VStr "") VUndefined []).
  apply Forall_nil_2.
Defined.

Lemma validateInteractiveMessage_throws_uncheckable (config : value)
    (bs : list value) :
  Exists (fun b => checkable b = false) bs ->
  validateInteractiveMessage config (VArr bs) = Throws TypeError.
Proof.
  intros H. destruct (nullish config) eqn:Hc.
  { destruct config; try discriminate Hc; reflexivity. }
  unfold validateInteractiveMessage, forEach.
  rewrite (get_field config) by exact Hc.
  unfold mbind at 1, completion_bind at 1.
  rewrite forEach_from_uncheckable by exact H. reflexivity.
Qed.

(** X28.  A call button whose phone number cannot be converted to a
    string, such as an object with a [toString] property of its own, is
    not reported as invalid: the pattern test throws.  The validator then
    throws a [TypeError], whatever the config and the other buttons, and
    [sendInteractiveButtonsBasic] is rejected with that [TypeError] before
    anything is imported or relayed. *)
Theorem unconvertible_phone_is_a_type_error (socket : handle)
    (jid config : value) (bs : list value) (w : world) (log : list call) :
  Exists (fun b => getButtonType b = Returns (VStr "cta_call") /\
                   to_string (field b "phoneNumber") = Throws TypeError) bs ->
  validateInteractiveMessage config (VArr bs) = Throws TypeError /\
  run w
    (sendInteractiveButtonsBasic
       {| basic_socket := socket; basic_jid := jid; basic_config := config;
          basic_buttons := VArr bs |}) log
  = (Rejected TypeErrorThrown, log).
Proof.
  intros H.
  assert (Hthrows : validateInteractiveMessage config (VArr bs)
                    = Throws TypeError).
  { apply validateInteractiveMessage_throws_uncheckable.
    eapply Exists_impl; [ exact H | ].
    intros b [Ht Hp]. unfold checkable, classified, convertible.
    rewrite Ht, Hp. apply andb_false_r. }
  split; [ exact Hthrows | ].
  unfold sendInteractiveButtonsBasic. cbn [basic_config basic_buttons].
  rewrite Hthrows. reflexivity.
Qed.

Lemma unconvertible_phone_is_a_type_error_witness :
  let w := {| on_import := fun _ _ => Some 1%nat;
              on_generate := fun _ _ _ _ _ => Failed VUndefined;
              on_relay := fun _ _ _ _ _ => Failed VUndefined |} in
  let bs :=
    [ VObj [ ("id", VStr "ok"); ("title", VStr "OK") ];
      call_button (VObj [ ("toString", VNum 1) ]) ] in
  validateInteractiveMessage (VObj [ ("body", VStr "x") ]) (VArr bs)
  = Throws TypeError /\
  run w
    (sendInteractiveButtonsBasic
       {| basic_socket := 0%nat; basic_jid := VStr "1@s.whatsapp.net";
          basic_config := VObj [ ("body", VStr "x") ];
          basic_buttons := VArr bs |}) []
  = (Rejected TypeErrorThrown, []).
Proof.
  intros w bs.
  apply (unconvertible_phone_is_a_type_error 0%nat (VStr "1@s.whatsapp.net")
           (VObj [ ("body", VStr "x") ]) bs w []).
  right. left. split; reflexivity.
Defined.

End Senders.

(** ** What a converted entry carries *)

Section ConvertedEntry.

(** X26.  The entry that a legacy rule emits depends on the button only
    through its id, title, subtitle, [disabled] and classification: two
    buttons that agree on those are converted to the same entry.  The
    url, phone number or copy text of a button decide its [name] but are
    not part of [buttonParamsJson]. *)
Theorem converted_entry_ignores_other_fields (b1 b2 : value) :
  both_truthy b1 "name" "buttonParamsJson" = false ->
  both_truthy b2 "name" "buttonParamsJson" = false ->
  both_truthy b1 "id" "title" = true ->
  field b2 "id" = field b1 "id" ->
  field b2 "title" = field b1 "title" ->
  or_else (field b2 "subtitle") VNull = or_else (field b1 "subtitle") VNull ->
  or_else (field b2 "disabled") (VBool false)
  = or_else (field b1 "disabled") (VBool false) ->
  getButtonType b2 = getButtonType b1 ->
  buildInteractiveButtons (VArr [ b2 ]) = buildInteractiveButtons (VArr [ b1 ]).
Proof.
  intros Hn1 Hn2 H1 Hid Htitle Hsub Hdis Htype.
  assert (H2 : both_truthy b2 "id" "title" = true).
  { unfold both_truthy in *. rewrite Hid, Htitle. exact H1. }
  rewrite !getButtonType_returns in Htype. injection Htype as Htype.
  rewrite !buildInteractiveButtons_returns. cbn [List.map].
  unfold normalized. rewrite !normalize_entry_cases, Hn1, Hn2, H1, H2.
  unfold buttonParams. rewrite Hid, Htitle, Hsub, Hdis, Htype. reflexivity.
Qed.

Lemma converted_entry_ignores_other_fields_witness :
  buildInteractiveButtons
    (VArr [ VObj [ ("id", VStr "site"); ("title", VStr "Visit");
                   ("url", VStr "https://b.example") ] ])
  = buildInteractiveButtons
      (VArr [ VObj [ ("id", VStr "site"); ("title", VStr "Visit");
                     ("url", VStr "https://a.example") ] ]).
Proof.
  apply converted_entry_ignores_other_fields; reflexivity.
Defined.

(** X27.  The wire format of a converted entry.  For a button with a
    non-empty string id and title and no truthy subtitle or [disabled],
    [buttonParamsJson] is the text
    [{"id":<id>,"title":<title>,"subtitle":null,"disabled":false}], with
    the four keys in this order and id and title quoted as JSON
    strings. *)
Theorem legacy_wire_format (b : value) (id title : string) :
  both_truthy b "name" "buttonParamsJson" = false ->
  field b "id" = VStr id -> id <> EmptyString ->
  field b "title" = VStr title -> title <> EmptyString ->
  truthy (field b "subtitle") = false ->
  truthy (field b "disabled") = false ->
  exists name : value,
    getButtonType b = Returns name /\
    buildInteractiveButtons (VArr [ b ]) =
    Returns
      [ VObj
          [ ("name", name);
            ("buttonParamsJson",
             VStr ("{" +:+ quote "id" +:+ ":" +:+ quote id +:+ ","
                   +:+ quote "title" +:+ ":" +:+ quote title +:+ ","
                   +:+ quote "subtitle" +:+ ":null,"
                   +:+ quote "disabled" +:+ ":false}")) ] ].
Proof.
  intros Hn Hid Hi Htitle Ht Hsub Hdis.
  exists (classify_by truthy b). split; [ apply getButtonType_returns | ].
  rewrite buildInteractiveButtons_returns. cbn [List.map].
  unfold normalized. rewrite normalize_entry_cases, Hn.
  assert (H1 : both_truthy b "id" "title" = true).
  { unfold both_truthy. rewrite Hid, Htitle. cbn.
    apply String.eqb_neq in Hi, Ht. rewrite Hi, Ht. reflexivity. }
  rewrite H1. unfold buttonParams, or_else. rewrite Hsub, Hdis, Hid, Htitle.
  unfold JSON_stringify.
  cbn [serialize List.flat_map snd fst app String.concat].
  rewrite !append_assoc. reflexivity.
Qed.

Lemma legacy_wire_format_witness :
  exists name : value,
    getButtonType (VObj [ ("id", VStr "a"); ("title", VStr "A") ])
    = Returns name /\
    buildInteractiveButtons
      (VArr [ VObj [ ("id", VStr "a"); ("title", VStr "A") ] ]) =
    Returns
      [ VObj
          [ ("name", name);
            ("buttonParamsJson",
             VStr ("{" +:+ quote "id" +:+ ":" +:+ quote "a" +:+ ","
                   +:+ quote "title" +:+ ":" +:+ quote "A" +:+ ","
                   +:+ quote "subtitle" +:+ ":null,"
                   +:+ quote "disabled" +:+ ":false}")) ] ].
Proof.
  apply (legacy_wire_format (VObj [ ("id", VStr "a"); ("title", VStr "A") ])
           "a" "A"); try reflexivity; discriminate.
Defined.

End ConvertedEntry.
